(** * Wakala reconciler: settlement normalisation and reconciliation

    A shallow embedding of the core of the Go service:
    - [currency]        (internal/currency): the fixed rate table, [ToUSD], [FromUSD];
    - [ingestion]       (internal/ingestion): the CSV and JSON parsers and [IngestReport];
    - [repository]      (internal/repository): the SQLite tables and the queries used;
    - [reconciliation]  (internal/reconciliation): matching and the three detectors.

    Go's [float64] is IEEE 754 binary64; it is embedded as the standard
    library's [spec_float] with 53 bits of precision and round to nearest
    even, so every comparison below is the one the compiled code performs. *)

From Stdlib Require Import ZArith Lia Bool List String Ascii.
From Stdlib Require Import Strings.Byte DecimalString.
From Stdlib Require DecimalZ DecimalPos.
From Stdlib Require Import Floats.SpecFloat.
From stdpp Require Import gmap strings list fin_maps.

Open Scope Z_scope.

(** ** float64 *)

Module Float64.

Definition float64 : Type := spec_float.

Definition prec : Z := 53.
Definition emax : Z := 1024.

Definition add : float64 -> float64 -> float64 := SFadd prec emax.
Definition sub : float64 -> float64 -> float64 := SFsub prec emax.
Definition mul : float64 -> float64 -> float64 := SFmul prec emax.
Definition div : float64 -> float64 -> float64 := SFdiv prec emax.
(** [math.Abs] *)
Definition Abs : float64 -> float64 := SFabs.

(** Go's [<], [<=], [>], [>=] and [==] on float64: false on NaN. *)
Definition ltb : float64 -> float64 -> bool := SFltb.
Definition leb : float64 -> float64 -> bool := SFleb.
Definition gtb (x y : float64) : bool := SFltb y x.
Definition geb (x y : float64) : bool := SFleb y x.
Definition eqb : float64 -> float64 -> bool := SFeqb.

(** An integer that binary64 holds exactly (|n| < 2^53) as a float. *)
Definition of_Z (n : Z) : float64 := binary_normalize prec emax n 0 false.

(** The decimal constant [n / 10^k], rounded once to nearest even: the
    value the Go compiler gives the literal and [strconv.ParseFloat]
    gives the text.  Both operands are exact for n < 2^53 and k <= 22,
    so the single rounding of the division is the only one. *)
Definition dec (n : Z) (k : Z) : float64 := div (of_Z n) (of_Z (10 ^ k)).

Definition zero : float64 := S754_zero false.

Definition is_nan (x : float64) : bool :=
  match x with S754_nan => true | _ => false end.

(** Neither NaN nor an infinity. *)
Definition is_finite (x : float64) : bool :=
  match x with
  | S754_zero _ | S754_finite _ _ _ => true
  | _ => false
  end.

End Float64.

Import Float64.

(** ** Go values: int, errors, time *)

Module Go.

(** [int] is 64 bits wide on the platforms the service targets; [+] and
    [-] wrap around. *)
Definition int : Type := Z.

Definition wrap (z : Z) : int := (z + 2 ^ 63) mod 2 ^ 64 - 2 ^ 63.
Definition int_add (a b : int) : int := wrap (a + b).
Definition int_sub (a b : int) : int := wrap (a - b).

(** [len] of a slice. *)
Definition len {A : Type} (l : list A) : int := Z.of_nat (length l).

(** [time.Time] as nanoseconds since the Unix epoch, [time.Duration] as
    nanoseconds. *)
Definition Time : Type := Z.
Definition Duration : Type := Z.
Definition Hour : Duration := 3600 * 1000000000.

(** [fmt.Sprintf("%d", n)] *)
Definition itoa (n : int) : string := NilZero.string_of_int (Z.to_int n).

(** The error values the modelled code creates or passes on.  [Wrap ctx e]
    is [fmt.Errorf("ctx: %w", e)]. *)
Inductive error :=
| UnsupportedCurrency (code : string)   (* "unsupported currency: %s" *)
| UnsupportedFormat (format : string)   (* "unsupported format: %s" *)
| ExpectedColumns (got : int)           (* "expected 7 columns, got %d" *)
| EOF                                   (* io.EOF *)
| ErrFieldCount                         (* csv.ErrFieldCount *)
| ErrSyntax (what : string)             (* a parse error of csv, strconv, time or json *)
| ErrNoRows                             (* sql.ErrNoRows *)
| ErrConstraint                         (* UNIQUE, PRIMARY KEY or FOREIGN KEY violation *)
| ErrStore                              (* any other failure of a database call *)
| Wrap (context : string) (cause : error).

(** A Go result pair [(v, err)]: [Ok v] is [(v, nil)], [Err e] is
    [(zero value, e)].  Every error return of the functions below carries
    the zero value ([nil], [0], [""] or [false]), except the count that
    [InsertRecords] and [BulkInsert] return next to a row error, which no
    caller reads. *)
Inductive result (A : Type) :=
| Ok (v : A)
| Err (e : error).
Arguments Ok {A} v.
Arguments Err {A} e.

Definition is_ok {A : Type} (r : result A) : bool :=
  match r with Ok _ => true | Err _ => false end.

End Go.

Import Go.

(** ** Package domain *)

Module domain.

(** [type Severity string] with its four constants. *)
Inductive Severity := SeverityLow | SeverityMedium | SeverityHigh | SeverityCritical.

(** [type DiscrepancyType string] with its three constants. *)
Inductive DiscrepancyType :=
| DiscrepancyMissingSettlement
| DiscrepancyAmountMismatch
| DiscrepancyOrphaned.

(** [type Processor string] and [type TransactionStatus string]: the
    tables hold any text, so they stay strings. *)
Definition Processor : Type := string.
Definition TransactionStatus : Type := string.

Definition StatusAuthorized : TransactionStatus := "authorized".
Definition StatusCaptured : TransactionStatus := "captured".
Definition StatusSettled : TransactionStatus := "settled".
Definition StatusFailed : TransactionStatus := "failed".

Definition ProcessorAfriPay : Processor := "afripay".
Definition ProcessorNairaGateway : Processor := "nairagateway".
Definition ProcessorCapePay : Processor := "capepay".

Module Transaction.
Record t := mk {
  ID : string;
  ProcessorReference : string;
  Processor : domain.Processor;
  MerchantID : string;
  CustomerCountry : string;
  MerchantCountry : string;
  Amount : float64;
  Currency : string;
  USDAmount : float64;
  Status : TransactionStatus;
  CreatedAt : Time;
  CapturedAt : option Time;
  SettledAt : option Time
}.
End Transaction.

Module SettlementReport.
Record t := mk {
  ID : string;
  Processor : domain.Processor;
  ReportDate : Time;
  BatchID : string;
  FileHash : string;
  RecordCount : int;
  IngestedAt : Time
}.
End SettlementReport.

Module SettlementRecord.
Record t := mk {
  ID : string;
  ReportID : string;
  Processor : domain.Processor;
  ProcessorTransactionID : string;
  WakalaTransactionID : string;
  GrossAmount : float64;
  FeeAmount : float64;
  NetAmount : float64;
  Currency : string;
  USDGrossAmount : float64;
  USDNetAmount : float64;
  SettlementDate : Time;
  BatchID : string
}.
End SettlementRecord.

Module Discrepancy.
Record t := mk {
  ID : string;
  Type_ : DiscrepancyType;
  TransactionID : string;
  SettlementID : string;
  Processor : domain.Processor;
  ExpectedUSD : float64;
  ActualUSD : float64;
  DifferenceUSD : float64;
  Currency : string;
  Severity : domain.Severity;
  Description : string;
  DetectedAt : Time
}.
End Discrepancy.

End domain.

Import domain.

(** ** Package currency *)

Module currency.

(** [ratesPerUSD]: units of local currency per 1 USD. *)
Definition ratesPerUSD : gmap string float64 :=
  <["USD" := dec 10 1]>
    (<["KES" := dec 1295 1]>
      (<["NGN" := dec 15800 1]>
        (<["ZAR" := dec 186 1]> ∅))).

Definition ToUSD (amount : float64) (currency : string) : result float64 :=
  match ratesPerUSD !! currency with
  | None => Err (UnsupportedCurrency currency)
  | Some rate => Ok (div amount rate)
  end.

Definition FromUSD (usdAmount : float64) (currency : string) : result float64 :=
  match ratesPerUSD !! currency with
  | None => Err (UnsupportedCurrency currency)
  | Some rate => Ok (mul usdAmount rate)
  end.

Definition Rate (currency : string) : result float64 :=
  match ratesPerUSD !! currency with
  | None => Err (UnsupportedCurrency currency)
  | Some rate => Ok rate
  end.

End currency.

(** ** The Go standard library the service calls

    Functions of packages outside the repository, taken as an interface:
    the definitions below hold for every implementation of it. *)

(** The JSON document of [ParseNairaGatewayJSON] ([nairaGatewayFile] and
    [nairaGatewayEntry] of package ingestion), declared here because
    [json.Unmarshal] produces it. *)
Module nairaGatewayEntry.
Record t := mk {
  Ref : string;
  MerchantID : string;
  AmountNGN : float64;
  ProcessingFee : float64;
  PayoutNGN : float64;
  SettledAt : string
}.
End nairaGatewayEntry.

Module nairaGatewayFile.
Record t := mk {
  BatchID : string;
  SettlementDate : string;
  Records : list nairaGatewayEntry.t
}.
End nairaGatewayFile.

Class StdLib := {
  (** [fmt.Sprintf("%x", sha256.Sum256(data))] *)
  sha256_hex : list byte -> string;
  (** [strconv.ParseFloat(s, 64)] *)
  ParseFloat : string -> result float64;
  (** [strconv.Atoi] *)
  Atoi : string -> result int;
  (** [time.Parse(layout, value)] *)
  time_Parse : string -> string -> result Time;
  (** [t.Format(time.RFC3339)] of a time [t] computed from [time.Now()]:
      the text is cut to the second and written in the local zone. *)
  time_Format_RFC3339 : Time -> string;
  (** The text a DATETIME column of the table of transactions holds for
      the time its rows scan to: what [t.Format(time.RFC3339)] gave when
      the row was written, cut to the second, in the zone [t] had.
      SQLite compares and sorts these columns as text. *)
  column_text : Time -> string;
  (** [strings.TrimSpace] *)
  TrimSpace : string -> string;
  (** The record scanner of [encoding/csv] for a separator [Comma] and the
      [TrimLeadingSpace] flag: the records of the input in order, up to the
      end of the input, each one its fields or a syntax error, before any
      check of the number of fields (blank lines are no records). *)
  csv_records : ascii -> bool -> string -> list (result (list string));
  (** [json.Unmarshal(data, &file)] into a [nairaGatewayFile] *)
  json_Unmarshal : list byte -> result nairaGatewayFile.t;
  (** [fmt.Sprintf("%.<digits>f", x)] *)
  fmt_f : nat -> float64 -> string
}.

(** The layouts handed to [time.Parse]. *)
Definition layout_date : string := "2006-01-02".
Definition RFC3339 : string := "2006-01-02T15:04:05Z07:00".
Definition layout_offset : string := "2006-01-02T15:04:05-07:00".

(** ** The world: database, clock, environment

    The SQLite database is four tables, each the list of its rows in
    insertion order.  A database call can fail for reasons outside the
    program (I/O, locking); [faults] is the schedule of these failures, one
    flag per repository call, [true] for a call that fails.  Once the
    schedule is used up no call fails.  Log output is not modelled. *)

(** A row of [settlement_records]: column [wakala_transaction_id] is
    nullable, the other columns are the fields of the Go struct. *)
Record settlement_row := {
  row_fields : SettlementRecord.t;
  wakala_transaction_id : option string
}.

Record DB := {
  transactions : list Transaction.t;
  settlement_reports : list SettlementReport.t;
  settlement_records : list settlement_row;
  discrepancies : list Discrepancy.t
}.

Record World := {
  db : DB;
  clock : Time;
  faults : list bool;
  (** the value of the environment variable SETTLEMENT_WINDOW_HOURS *)
  env_SETTLEMENT_WINDOW_HOURS : string
}.

Definition set_db (d : DB) (w : World) : World :=
  {| db := d; clock := clock w; faults := faults w;
     env_SETTLEMENT_WINDOW_HOURS := env_SETTLEMENT_WINDOW_HOURS w |}.

Definition set_transactions (l : list Transaction.t) (d : DB) : DB :=
  {| transactions := l; settlement_reports := settlement_reports d;
     settlement_records := settlement_records d; discrepancies := discrepancies d |}.

Definition set_settlement_reports (l : list SettlementReport.t) (d : DB) : DB :=
  {| transactions := transactions d; settlement_reports := l;
     settlement_records := settlement_records d; discrepancies := discrepancies d |}.

Definition set_settlement_records (l : list settlement_row) (d : DB) : DB :=
  {| transactions := transactions d; settlement_reports := settlement_reports d;
     settlement_records := l; discrepancies := discrepancies d |}.

Definition set_discrepancies (l : list Discrepancy.t) (d : DB) : DB :=
  {| transactions := transactions d; settlement_reports := settlement_reports d;
     settlement_records := settlement_records d; discrepancies := l |}.

(** Stateful code: a state monad over the world. *)
Definition M (A : Type) : Type := World -> A * World.

Definition ret {A : Type} (a : A) : M A := fun w => (a, w).

Definition bind {A B : Type} (c : M A) (k : A -> M B) : M B :=
  fun w => let (a, w') := c w in k a w'.

Notation "'let*' x ':=' c 'in' k" := (bind c (fun x => k))
  (at level 10, x pattern, c at level 100, k at level 200).

(** [time.Now()]: reads the clock, which then moves on. *)
Definition time_Now : M Time :=
  fun w => (clock w,
            {| db := db w; clock := clock w + 1; faults := faults w;
               env_SETTLEMENT_WINDOW_HOURS := env_SETTLEMENT_WINDOW_HOURS w |}).

(** [os.Getenv("SETTLEMENT_WINDOW_HOURS")] *)
Definition Getenv_SETTLEMENT_WINDOW_HOURS : M string :=
  fun w => (env_SETTLEMENT_WINDOW_HOURS w, w).

(** The start of a repository call: takes the next flag of the schedule. *)
Definition db_call : M bool :=
  fun w => match faults w with
           | [] => (false, w)
           | b :: rest =>
               (b, {| db := db w; clock := clock w; faults := rest;
                      env_SETTLEMENT_WINDOW_HOURS := env_SETTLEMENT_WINDOW_HOURS w |})
           end.

Definition get_db : M DB := fun w => (db w, w).
Definition put_db (d : DB) : M unit := fun w => (tt, set_db d w).

(** ** Package repository

    Each method is one database call: it fails as a whole when the schedule
    says so, and then changes nothing (single statements are atomic, the
    bulk inserts run in a transaction that the deferred [Rollback] undoes).
    Which step of a bulk insert failed shows only in the error text, so one
    flag stands for the call.  The constraints modelled are the primary
    keys, the UNIQUE [file_hash], the foreign key of
    [settlement_records.report_id] and NOT NULL on the REAL columns, which
    a NaN violates because SQLite stores it as NULL.  A row holds the Go
    values its columns scan to.  The DATETIME columns hold RFC 3339 text:
    the one query that compares and sorts times
    ([GetCapturedWithoutSettlement]) works on that text, [column_text] of
    the value. *)

Module repository.

(** [scanSettlementRecord]: the Go field is the column when it is not
    NULL, and stays empty otherwise. *)
Definition scanSettlementRecord (r : settlement_row) : SettlementRecord.t :=
  let f := row_fields r in
  SettlementRecord.mk
    (SettlementRecord.ID f) (SettlementRecord.ReportID f)
    (SettlementRecord.Processor f) (SettlementRecord.ProcessorTransactionID f)
    (match wakala_transaction_id r with Some id => id | None => "" end)
    (SettlementRecord.GrossAmount f) (SettlementRecord.FeeAmount f)
    (SettlementRecord.NetAmount f) (SettlementRecord.Currency f)
    (SettlementRecord.USDGrossAmount f) (SettlementRecord.USDNetAmount f)
    (SettlementRecord.SettlementDate f) (SettlementRecord.BatchID f).

(** The row an INSERT writes: an empty [WakalaTransactionID] is bound as
    NULL. *)
Definition row_of_record (rec : SettlementRecord.t) : settlement_row :=
  {| row_fields := rec;
     wakala_transaction_id :=
       if String.eqb (SettlementRecord.WakalaTransactionID rec) ""
       then None else Some (SettlementRecord.WakalaTransactionID rec) |}.

(** *** SettlementRepo *)

Definition ReportExistsByHash (hash : string) : M (result bool) :=
  let* failed := db_call in
  if failed then ret (Err ErrStore) else
  let* d := get_db in
  let count :=
    len (List.filter (fun r => String.eqb (SettlementReport.FileHash r) hash)
                     (settlement_reports d)) in
  ret (Ok (0 <? count)).

(** A plain INSERT: a report with the same id or the same file hash is a
    constraint violation. *)
Definition InsertReport (rpt : SettlementReport.t) : M (option error) :=
  let* failed := db_call in
  if failed then ret (Some ErrStore) else
  let* d := get_db in
  if existsb (fun r => String.eqb (SettlementReport.ID r) (SettlementReport.ID rpt)
                       || String.eqb (SettlementReport.FileHash r)
                                     (SettlementReport.FileHash rpt))
             (settlement_reports d)
  then ret (Some ErrConstraint)
  else
    let* _ := put_db (set_settlement_reports (settlement_reports d ++ [rpt]) d) in
    ret None.

(** A NaN is bound as NULL: the record has one in a REAL NOT NULL column. *)
Definition record_has_null (rec : SettlementRecord.t) : bool :=
  is_nan (SettlementRecord.GrossAmount rec)
  || is_nan (SettlementRecord.FeeAmount rec)
  || is_nan (SettlementRecord.NetAmount rec)
  || is_nan (SettlementRecord.USDGrossAmount rec)
  || is_nan (SettlementRecord.USDNetAmount rec).

(** The loop of [InsertRecords] inside its transaction: INSERT OR IGNORE
    skips a row that has a NULL in a NOT NULL column or whose id is taken
    (0 rows affected) and fails on a report id that no report has. *)
Fixpoint insert_records_loop (reports : list SettlementReport.t)
    (records : list SettlementRecord.t) (table : list settlement_row)
    (inserted : int) : result (list settlement_row * int) :=
  match records with
  | [] => Ok (table, inserted)
  | rec :: rest =>
      if record_has_null rec
         || existsb (fun r => String.eqb (SettlementRecord.ID (row_fields r))
                                         (SettlementRecord.ID rec)) table
      then insert_records_loop reports rest table (int_add inserted 0)
      else if existsb (fun r => String.eqb (SettlementReport.ID r)
                                           (SettlementRecord.ReportID rec)) reports
      then insert_records_loop reports rest (table ++ [row_of_record rec])
                               (int_add inserted 1)
      else Err (Wrap "insert record" ErrConstraint)
  end.

Definition InsertRecords (records : list SettlementRecord.t) : M (result int) :=
  let* failed := db_call in
  if failed then ret (Err ErrStore) else
  let* d := get_db in
  match insert_records_loop (settlement_reports d) records (settlement_records d) 0 with
  | Err e => ret (Err e)
  | Ok (table, inserted) =>
      let* _ := put_db (set_settlement_records table d) in
      ret (Ok inserted)
  end.

Definition GetUnmatchedRecords : M (result (list SettlementRecord.t)) :=
  let* failed := db_call in
  if failed then ret (Err ErrStore) else
  let* d := get_db in
  ret (Ok (List.map scanSettlementRecord
             (List.filter (fun r => match wakala_transaction_id r with
                                    | None => true | Some _ => false end)
                          (settlement_records d)))).

Definition GetMatchedRecords : M (result (list SettlementRecord.t)) :=
  let* failed := db_call in
  if failed then ret (Err ErrStore) else
  let* d := get_db in
  ret (Ok (List.map scanSettlementRecord
             (List.filter (fun r => match wakala_transaction_id r with
                                    | None => false | Some _ => true end)
                          (settlement_records d)))).

Definition UpdateWakalaTransactionID (recordID txnID : string) : M (option error) :=
  let* failed := db_call in
  if failed then ret (Some ErrStore) else
  let* d := get_db in
  let* _ := put_db (set_settlement_records
              (List.map (fun r => if String.eqb (SettlementRecord.ID (row_fields r)) recordID
                                  then {| row_fields := row_fields r;
                                          wakala_transaction_id := Some txnID |}
                                  else r)
                        (settlement_records d)) d) in
  ret None.

(** *** TransactionRepo *)

(** [QueryRow] and [Scan]: the first row, or [sql.ErrNoRows]. *)
Definition GetByID (id : string) : M (result Transaction.t) :=
  let* failed := db_call in
  if failed then ret (Err ErrStore) else
  let* d := get_db in
  match List.find (fun t => String.eqb (Transaction.ID t) id) (transactions d) with
  | Some t => ret (Ok t)
  | None => ret (Err ErrNoRows)
  end.

Definition GetByProcessorRef (processor ref : string) : M (result Transaction.t) :=
  let* failed := db_call in
  if failed then ret (Err ErrStore) else
  let* d := get_db in
  match List.find (fun t => String.eqb (Transaction.Processor t) processor
                            && String.eqb (Transaction.ProcessorReference t) ref)
                  (transactions d) with
  | Some t => ret (Ok t)
  | None => ret (Err ErrNoRows)
  end.

Definition set_settled (settledAt : Time) (t : Transaction.t) : Transaction.t :=
  Transaction.mk
    (Transaction.ID t) (Transaction.ProcessorReference t) (Transaction.Processor t)
    (Transaction.MerchantID t) (Transaction.CustomerCountry t)
    (Transaction.MerchantCountry t) (Transaction.Amount t) (Transaction.Currency t)
    (Transaction.USDAmount t) StatusSettled (Transaction.CreatedAt t)
    (Transaction.CapturedAt t) (Some settledAt).

Definition UpdateStatusToSettled (id : string) (settledAt : Time) : M (option error) :=
  let* failed := db_call in
  if failed then ret (Some ErrStore) else
  let* d := get_db in
  let* _ := put_db (set_transactions
              (List.map (fun t => if String.eqb (Transaction.ID t) id
                                  then set_settled settledAt t else t)
                        (transactions d)) d) in
  ret None.

(** ORDER BY created_at: by the text of the column; rows with the same
    text stay in the order of the table. *)
Fixpoint insert_by_created {stdlib : StdLib} (t : Transaction.t)
    (l : list Transaction.t) : list Transaction.t :=
  match l with
  | [] => [t]
  | u :: rest =>
      if String.leb (column_text (Transaction.CreatedAt t))
                    (column_text (Transaction.CreatedAt u))
      then t :: u :: rest
      else u :: insert_by_created t rest
  end.

Definition order_by_created {stdlib : StdLib} (l : list Transaction.t)
    : list Transaction.t :=
  List.fold_right insert_by_created [] l.

(** Captured transactions whose [captured_at] is, as text, before
    [cutoff.Format(time.RFC3339)] and that no settlement record links to
    (the LEFT JOIN with [sr.id IS NULL]); a NULL [captured_at] passes no
    comparison. *)
Definition GetCapturedWithoutSettlement {stdlib : StdLib} (cutoff : Time)
    : M (result (list Transaction.t)) :=
  let* failed := db_call in
  if failed then ret (Err (Wrap "query" ErrStore)) else
  let* d := get_db in
  ret (Ok (order_by_created
             (List.filter
                (fun t =>
                   String.eqb (Transaction.Status t) "captured"
                   && match Transaction.CapturedAt t with
                      | Some c =>
                          String.ltb (column_text c) (time_Format_RFC3339 cutoff)
                      | None => false
                      end
                   && negb (existsb
                              (fun r => match wakala_transaction_id r with
                                        | Some id => String.eqb id (Transaction.ID t)
                                        | None => false
                                        end)
                              (settlement_records d)))
                (transactions d)))).

(** *** DiscrepancyRepo *)

Definition ClearAll : M (option error) :=
  let* failed := db_call in
  if failed then ret (Some ErrStore) else
  let* d := get_db in
  let* _ := put_db (set_discrepancies [] d) in
  ret None.

(** A NaN is bound as NULL: the discrepancy has one in a REAL NOT NULL
    column. *)
Definition discrepancy_has_null (d : Discrepancy.t) : bool :=
  is_nan (Discrepancy.ExpectedUSD d)
  || is_nan (Discrepancy.ActualUSD d)
  || is_nan (Discrepancy.DifferenceUSD d).

(** The loop of [BulkInsert]: INSERT OR IGNORE skips a row that has a NULL
    in a NOT NULL column or whose id is taken (0 rows affected). *)
Fixpoint bulk_insert_loop (discs : list Discrepancy.t) (table : list Discrepancy.t)
    (inserted : int) : list Discrepancy.t * int :=
  match discs with
  | [] => (table, inserted)
  | d :: rest =>
      if discrepancy_has_null d
         || existsb (fun r => String.eqb (Discrepancy.ID r) (Discrepancy.ID d)) table
      then bulk_insert_loop rest table (int_add inserted 0)
      else bulk_insert_loop rest (table ++ [d]) (int_add inserted 1)
  end.

Definition BulkInsert (discs : list Discrepancy.t) : M (result int) :=
  let* failed := db_call in
  if failed then ret (Err ErrStore) else
  let* d := get_db in
  let (table, inserted) := bulk_insert_loop discs (discrepancies d) 0 in
  let* _ := put_db (set_discrepancies table d) in
  ret (Ok inserted).

End repository.

(** ** Package reconciliation *)

Module reconciliation.

Import repository.

Record ReconciliationResult := {
  MatchedCount : int;
  MissingSettlements : int;
  AmountMismatches : int;
  OrphanedSettlements : int;
  TotalDiscrepancies : int
}.

(** *** helpers *)

Definition severityByAmount (usdAmount : float64) : Severity :=
  if gtb usdAmount (of_Z 500) then SeverityHigh
  else if gtb usdAmount (of_Z 100) then SeverityMedium
  else SeverityLow.

Definition mismatchSeverity (pctDiff absDiff : float64) : Severity :=
  if gtb absDiff (of_Z 500) then SeverityCritical
  else if gtb pctDiff (dec 2 2) then SeverityHigh
  else SeverityMedium.

(** [calculateConfidence]: only logged by [MatchSettlements]. *)
Definition calculateConfidence (txn : Transaction.t) (rec : SettlementRecord.t)
    : float64 :=
  if eqb (Transaction.USDAmount txn) zero then dec 5 1
  else
    let pctDiff :=
      div (Abs (sub (Transaction.USDAmount txn) (SettlementRecord.USDGrossAmount rec)))
          (Transaction.USDAmount txn) in
    if leb pctDiff (dec 1 3) then dec 10 1
    else if leb pctDiff (dec 1 2) then dec 95 2
    else if leb pctDiff (dec 2 2) then dec 90 2
    else if leb pctDiff (dec 5 2) then dec 80 2
    else dec 60 2.

Section Service.

Context {stdlib : StdLib}.

(** *** MatchSettlements *)

(** The loop over the unmatched records.  [GetByProcessorRef] never
    gives a nil transaction without an error, so the [txn == nil] test
    has no case of its own. *)
Fixpoint match_loop (unmatched : list SettlementRecord.t) (matched : int) : M int :=
  match unmatched with
  | [] => ret matched
  | rec :: rest =>
      let* r := GetByProcessorRef (SettlementRecord.Processor rec)
                                  (SettlementRecord.ProcessorTransactionID rec) in
      match r with
      | Err _ => match_loop rest matched
      | Ok txn =>
          let* e := UpdateWakalaTransactionID (SettlementRecord.ID rec)
                                              (Transaction.ID txn) in
          match e with
          | Some _ => match_loop rest matched
          | None =>
              let* _ := UpdateStatusToSettled (Transaction.ID txn)
                                              (SettlementRecord.SettlementDate rec) in
              match_loop rest (int_add matched 1)
          end
      end
  end.

Definition MatchSettlements : M (result int) :=
  let* r := GetUnmatchedRecords in
  match r with
  | Err e => ret (Err (Wrap "get unmatched" e))
  | Ok unmatched =>
      let* matched := match_loop unmatched 0 in
      ret (Ok matched)
  end.

(** *** DetectMissingSettlements *)

Definition settlementWindowHours : M Duration :=
  let* v := Getenv_SETTLEMENT_WINDOW_HOURS in
  if negb (String.eqb v "") then
    match Atoi v with
    | Ok h => if 0 <? h then ret (wrap (h * Hour)) else ret (48 * Hour)
    | Err _ => ret (48 * Hour)
    end
  else ret (48 * Hour).

Fixpoint missing_loop (txns : list Transaction.t) (discs : list Discrepancy.t)
    : M (list Discrepancy.t) :=
  match txns with
  | [] => ret discs
  | txn :: rest =>
      let sev := severityByAmount (Transaction.USDAmount txn) in
      let* now := time_Now in
      let d :=
        Discrepancy.mk
          ("DISC-MS-" +:+ Transaction.ID txn)
          DiscrepancyMissingSettlement
          (Transaction.ID txn)
          ""
          (Transaction.Processor txn)
          (Transaction.USDAmount txn)
          zero
          (Transaction.USDAmount txn)
          (Transaction.Currency txn)
          sev
          ("Transaction " +:+ Transaction.ID txn +:+ " ("
             +:+ fmt_f 2 (Transaction.USDAmount txn)
             +:+ " USD) captured but no settlement found from "
             +:+ Transaction.Processor txn)
          now in
      missing_loop rest (discs ++ [d])
  end.

Definition DetectMissingSettlements : M (result int) :=
  let* now := time_Now in
  let* window := settlementWindowHours in
  let cutoff := now - window in
  let* r := GetCapturedWithoutSettlement cutoff in
  match r with
  | Err e => ret (Err (Wrap "query" e))
  | Ok txns =>
      let* discs := missing_loop txns [] in
      if 0 <? len discs then
        let* r := BulkInsert discs in
        match r with
        | Err e => ret (Err (Wrap "insert discrepancies" e))
        | Ok n => ret (Ok n)
        end
      else ret (Ok 0)
  end.

(** *** DetectAmountMismatches *)

Fixpoint mismatch_loop (matched : list SettlementRecord.t)
    (discs : list Discrepancy.t) : M (list Discrepancy.t) :=
  match matched with
  | [] => ret discs
  | rec :: rest =>
      let* r := GetByID (SettlementRecord.WakalaTransactionID rec) in
      match r with
      | Err _ => mismatch_loop rest discs
      | Ok txn =>
          let diff := sub (SettlementRecord.USDGrossAmount rec)
                          (Transaction.USDAmount txn) in
          let absDiff := Abs diff in
          if gtb (Transaction.USDAmount txn) zero
             && leb (div absDiff (Transaction.USDAmount txn)) (dec 5 3)
          then mismatch_loop rest discs
          else if ltb absDiff (dec 10 2)
          then mismatch_loop rest discs
          else
            let pctDiff := div absDiff (Transaction.USDAmount txn) in
            let sev := mismatchSeverity pctDiff absDiff in
            let* now := time_Now in
            let d :=
              Discrepancy.mk
                ("DISC-AM-" +:+ SettlementRecord.ID rec)
                DiscrepancyAmountMismatch
                (Transaction.ID txn)
                (SettlementRecord.ID rec)
                (SettlementRecord.Processor rec)
                (Transaction.USDAmount txn)
                (SettlementRecord.USDGrossAmount rec)
                diff
                (SettlementRecord.Currency rec)
                sev
                ("Gross amount mismatch for " +:+ Transaction.ID txn
                   +:+ ": expected " +:+ fmt_f 2 (Transaction.USDAmount txn)
                   +:+ " USD, reported gross "
                   +:+ fmt_f 2 (SettlementRecord.USDGrossAmount rec)
                   +:+ " USD (" +:+ fmt_f 1 (mul pctDiff (of_Z 100))
                   +:+ "% diff)")
                now in
            mismatch_loop rest (discs ++ [d])
      end
  end.

Definition DetectAmountMismatches : M (result int) :=
  let* r := GetMatchedRecords in
  match r with
  | Err e => ret (Err (Wrap "get matched" e))
  | Ok matched =>
      let* discs := mismatch_loop matched [] in
      if 0 <? len discs then
        let* r := BulkInsert discs in
        match r with
        | Err e => ret (Err (Wrap "insert discrepancies" e))
        | Ok n => ret (Ok n)
        end
      else ret (Ok 0)
  end.

(** *** DetectOrphanedSettlements *)

Fixpoint orphaned_loop (unmatched : list SettlementRecord.t)
    (discs : list Discrepancy.t) : M (list Discrepancy.t) :=
  match unmatched with
  | [] => ret discs
  | rec :: rest =>
      let* now := time_Now in
      let d :=
        Discrepancy.mk
          ("DISC-OS-" +:+ SettlementRecord.ID rec)
          DiscrepancyOrphaned
          ""
          (SettlementRecord.ID rec)
          (SettlementRecord.Processor rec)
          zero
          (SettlementRecord.USDNetAmount rec)
          (SettlementRecord.USDNetAmount rec)
          (SettlementRecord.Currency rec)
          SeverityHigh
          ("Orphaned settlement " +:+ SettlementRecord.ID rec +:+ " from "
             +:+ SettlementRecord.Processor rec +:+ ": "
             +:+ fmt_f 2 (SettlementRecord.USDNetAmount rec)
             +:+ " USD with no matching transaction (proc_ref="
             +:+ SettlementRecord.ProcessorTransactionID rec +:+ ")")
          now in
      orphaned_loop rest (discs ++ [d])
  end.

Definition DetectOrphanedSettlements : M (result int) :=
  let* r := GetUnmatchedRecords in
  match r with
  | Err e => ret (Err (Wrap "get unmatched" e))
  | Ok unmatched =>
      let* discs := orphaned_loop unmatched [] in
      if 0 <? len discs then
        let* r := BulkInsert discs in
        match r with
        | Err e => ret (Err (Wrap "insert discrepancies" e))
        | Ok n => ret (Ok n)
        end
      else ret (Ok 0)
  end.

(** *** RunFullReconciliation *)

Definition RunFullReconciliation : M (result ReconciliationResult) :=
  let* e := ClearAll in
  match e with
  | Some e => ret (Err (Wrap "clear discrepancies" e))
  | None =>
  let* r := MatchSettlements in
  match r with
  | Err e => ret (Err (Wrap "match settlements" e))
  | Ok matched =>
  let* r := DetectMissingSettlements in
  match r with
  | Err e => ret (Err (Wrap "detect missing" e))
  | Ok missing =>
  let* r := DetectAmountMismatches in
  match r with
  | Err e => ret (Err (Wrap "detect mismatches" e))
  | Ok mismatches =>
  let* r := DetectOrphanedSettlements in
  match r with
  | Err e => ret (Err (Wrap "detect orphaned" e))
  | Ok orphaned =>
      ret (Ok {| MatchedCount := matched;
                 MissingSettlements := missing;
                 AmountMismatches := mismatches;
                 OrphanedSettlements := orphaned;
                 TotalDiscrepancies :=
                   int_add (int_add missing mismatches) orphaned |})
  end end end end end.

End Service.

End reconciliation.

(** ** Package encoding/csv: the reader as the parsers use it

    [csv.NewReader] leaves [FieldsPerRecord] at 0, and neither parser sets
    it.  [Read] then fixes it to the number of fields of the first record
    and answers [ErrFieldCount] for every later record of another length. *)

Module csv.

(** The check at the end of [readRecord] for a record the scanner
    delivered: the outcome of [Read] and the new [FieldsPerRecord]. *)
Definition readRecord (FieldsPerRecord : int) (raw : result (list string))
    : result (list string) * int :=
  match raw with
  | Err e => (Err e, FieldsPerRecord)
  | Ok dst =>
      if 0 <? FieldsPerRecord then
        if negb (len dst =? FieldsPerRecord)
        then (Err ErrFieldCount, FieldsPerRecord)
        else (Ok dst, FieldsPerRecord)
      else if FieldsPerRecord =? 0 then (Ok dst, len dst)
      else (Ok dst, FieldsPerRecord)
  end.

End csv.

(** ** Package ingestion *)

Module ingestion.

Import repository.

Record IngestResult := {
  ReportID : string;
  RecordsIngested : int;
  DuplicatesSkipped : int;
  DiscrepanciesDetected : int
}.

(** [row[i]] of a row that has at least 7 fields *)
Definition field (row : list string) (i : nat) : string := nth i row "".

Section Service.

Context {stdlib : StdLib}.

(** *** ParseCapePayCSV *)

(** The [for] loop: [pending] are the records the reader has not
    delivered yet, [fpr] its [FieldsPerRecord]; an empty [pending] is
    [io.EOF]. *)
Fixpoint capepay_loop (pending : list (result (list string))) (fpr : int)
    (reportID : string) (lineNum : int) (records : list SettlementRecord.t)
    (batchID : string) : result (list SettlementRecord.t * string) :=
  let lineNum := int_add lineNum 1 in
  match pending with
  | [] => Ok (records, batchID)
  | raw :: pending =>
      match csv.readRecord fpr raw with
      | (Err e, _) => Err (Wrap ("line " +:+ itoa lineNum) e)
      | (Ok row, fpr) =>
          if len row <? 7 then
            capepay_loop pending fpr reportID lineNum records batchID
          else
            let txRef := TrimSpace (field row 0) in
            let settleDateStr := TrimSpace (field row 2) in
            let amountStr := TrimSpace (field row 3) in
            let deductionsStr := TrimSpace (field row 4) in
            let netStr := TrimSpace (field row 5) in
            let batchID := TrimSpace (field row 6) in
            match ParseFloat amountStr with
            | Err e => Err (Wrap ("line " +:+ itoa lineNum +:+ " amount") e)
            | Ok amount =>
            match ParseFloat deductionsStr with
            | Err e => Err (Wrap ("line " +:+ itoa lineNum +:+ " deductions") e)
            | Ok deductions =>
            match ParseFloat netStr with
            | Err e => Err (Wrap ("line " +:+ itoa lineNum +:+ " net") e)
            | Ok net =>
            match
              match time_Parse layout_date settleDateStr with
              | Ok t => Ok t
              | Err _ => time_Parse RFC3339 settleDateStr
              end
            with
            | Err e => Err (Wrap ("line " +:+ itoa lineNum +:+ " date") e)
            | Ok settleDate =>
            match currency.ToUSD amount "ZAR" with
            | Err e => Err (Wrap ("line " +:+ itoa lineNum +:+ " currency gross") e)
            | Ok usdGross =>
            match currency.ToUSD net "ZAR" with
            | Err e => Err (Wrap ("line " +:+ itoa lineNum +:+ " currency net") e)
            | Ok usdNet =>
                let rec :=
                  SettlementRecord.mk
                    ("SR-CP-" +:+ txRef +:+ "-" +:+ itoa lineNum)
                    reportID ProcessorCapePay txRef ""
                    amount deductions net "ZAR" usdGross usdNet settleDate batchID in
                capepay_loop pending fpr reportID lineNum (records ++ [rec]) batchID
            end end end end end end
      end
  end.

Definition ParseCapePayCSV (data : list byte) (reportID : string)
    : result (list SettlementRecord.t * string) :=
  match csv_records "|"%char true (string_of_list_byte data) with
  | [] => Err (Wrap "read header" EOF)
  | raw :: pending =>
      match csv.readRecord 0 raw with
      | (Err e, _) => Err (Wrap "read header" e)
      | (Ok header, fpr) =>
          if len header <? 7 then Err (ExpectedColumns (len header))
          else capepay_loop pending fpr reportID 1 [] ""
      end
  end.

(** *** ParseAfriPayCSV *)

Fixpoint afripay_loop (pending : list (result (list string))) (fpr : int)
    (reportID : string) (lineNum : int) (records : list SettlementRecord.t)
    (batchID : string) : result (list SettlementRecord.t * string) :=
  let lineNum := int_add lineNum 1 in
  match pending with
  | [] => Ok (records, batchID)
  | raw :: pending =>
      match csv.readRecord fpr raw with
      | (Err e, _) => Err (Wrap ("line " +:+ itoa lineNum) e)
      | (Ok row, fpr) =>
          if len row <? 7 then
            afripay_loop pending fpr reportID lineNum records batchID
          else
            let txnID := TrimSpace (field row 0) in
            let settleDateStr := TrimSpace (field row 2) in
            let grossStr := TrimSpace (field row 3) in
            let feeStr := TrimSpace (field row 4) in
            let netStr := TrimSpace (field row 5) in
            let batchID := TrimSpace (field row 6) in
            match ParseFloat grossStr with
            | Err e => Err (Wrap ("line " +:+ itoa lineNum +:+ " gross") e)
            | Ok gross =>
            match ParseFloat feeStr with
            | Err e => Err (Wrap ("line " +:+ itoa lineNum +:+ " fee") e)
            | Ok fee =>
            match ParseFloat netStr with
            | Err e => Err (Wrap ("line " +:+ itoa lineNum +:+ " net") e)
            | Ok net =>
            match
              match time_Parse layout_date settleDateStr with
              | Ok t => Ok t
              | Err _ => time_Parse RFC3339 settleDateStr
              end
            with
            | Err e => Err (Wrap ("line " +:+ itoa lineNum +:+ " date") e)
            | Ok settleDate =>
            match currency.ToUSD gross "KES" with
            | Err e => Err (Wrap ("line " +:+ itoa lineNum +:+ " currency gross") e)
            | Ok usdGross =>
            match currency.ToUSD net "KES" with
            | Err e => Err (Wrap ("line " +:+ itoa lineNum +:+ " currency net") e)
            | Ok usdNet =>
                let rec :=
                  SettlementRecord.mk
                    ("SR-AP-" +:+ txnID +:+ "-" +:+ itoa lineNum)
                    reportID ProcessorAfriPay txnID ""
                    gross fee net "KES" usdGross usdNet settleDate batchID in
                afripay_loop pending fpr reportID lineNum (records ++ [rec]) batchID
            end end end end end end
      end
  end.

Definition ParseAfriPayCSV (data : list byte) (reportID : string)
    : result (list SettlementRecord.t * string) :=
  match csv_records ","%char true (string_of_list_byte data) with
  | [] => Err (Wrap "read header" EOF)
  | raw :: pending =>
      match csv.readRecord 0 raw with
      | (Err e, _) => Err (Wrap "read header" e)
      | (Ok header, fpr) =>
          if len header <? 7 then Err (ExpectedColumns (len header))
          else afripay_loop pending fpr reportID 1 [] ""
      end
  end.

(** *** ParseNairaGatewayJSON *)

Fixpoint naira_loop (entries : list nairaGatewayEntry.t) (i : int)
    (reportID batchID : string) (records : list SettlementRecord.t)
    : result (list SettlementRecord.t) :=
  match entries with
  | [] => Ok records
  | entry :: rest =>
      match
        match time_Parse RFC3339 (nairaGatewayEntry.SettledAt entry) with
        | Ok t => Ok t
        | Err _ => time_Parse layout_offset (nairaGatewayEntry.SettledAt entry)
        end
      with
      | Err e => Err (Wrap ("record " +:+ itoa i +:+ " date") e)
      | Ok settledAt =>
      match currency.ToUSD (nairaGatewayEntry.AmountNGN entry) "NGN" with
      | Err e => Err (Wrap ("record " +:+ itoa i +:+ " currency gross") e)
      | Ok usdGross =>
      match currency.ToUSD (nairaGatewayEntry.PayoutNGN entry) "NGN" with
      | Err e => Err (Wrap ("record " +:+ itoa i +:+ " currency net") e)
      | Ok usdNet =>
          let rec :=
            SettlementRecord.mk
              ("SR-NG-" +:+ nairaGatewayEntry.Ref entry +:+ "-" +:+ itoa i)
              reportID ProcessorNairaGateway (nairaGatewayEntry.Ref entry) ""
              (nairaGatewayEntry.AmountNGN entry)
              (nairaGatewayEntry.ProcessingFee entry)
              (nairaGatewayEntry.PayoutNGN entry)
              "NGN" usdGross usdNet settledAt batchID in
          naira_loop rest (int_add i 1) reportID batchID (records ++ [rec])
      end end end
  end.

Definition ParseNairaGatewayJSON (data : list byte) (reportID : string)
    : result (list SettlementRecord.t * string) :=
  match json_Unmarshal data with
  | Err e => Err (Wrap "unmarshal" e)
  | Ok file =>
      match naira_loop (nairaGatewayFile.Records file) 0 reportID
                       (nairaGatewayFile.BatchID file) [] with
      | Err e => Err e
      | Ok records => Ok (records, nairaGatewayFile.BatchID file)
      end
  end.

(** *** IngestReport *)

(** The [switch format]; [None] is its [default] case. *)
Definition parse_by_format (format : string) (data : list byte) (reportID : string)
    : option (result (list SettlementRecord.t * string)) :=
  if String.eqb format "csv_a" then Some (ParseAfriPayCSV data reportID)
  else if String.eqb format "json_b" then Some (ParseNairaGatewayJSON data reportID)
  else if String.eqb format "csv_c" then Some (ParseCapePayCSV data reportID)
  else None.

(** The lines from [if batchID == ""] to the [SettlementReport]
    literal: the fallback batch id and the two time stamps. *)
Definition new_report (reportID : string) (proc : Processor) (batchID hash : string)
    (records : list SettlementRecord.t) : M SettlementReport.t :=
  let* batchID :=
    if String.eqb batchID "" then
      let* now := time_Now in ret ("BATCH-" +:+ itoa now)
    else ret batchID in
  let* reportDate := time_Now in
  let* ingestedAt := time_Now in
  ret (SettlementReport.mk reportID proc reportDate batchID hash (len records)
                           ingestedAt).

Definition IngestReport (data : list byte) (processor format : string)
    : M (result IngestResult) :=
  let hash := sha256_hex data in
  let* r := ReportExistsByHash hash in
  match r with
  | Err e => ret (Err (Wrap "check hash" e))
  | Ok exists_ =>
  if exists_ then
    ret (Ok {| ReportID := "already-ingested"; RecordsIngested := 0;
               DuplicatesSkipped := 0; DiscrepanciesDetected := 0 |})
  else
  let* now := time_Now in
  let reportID := "RPT-" +:+ processor +:+ "-" +:+ itoa now in
  let proc : Processor := processor in
  match parse_by_format format data reportID with
  | None => ret (Err (UnsupportedFormat format))
  | Some (Err e) => ret (Err (Wrap ("parse " +:+ format) e))
  | Some (Ok (records, batchID)) =>
  let* report := new_report reportID proc batchID hash records in
  let* e := InsertReport report in
  match e with
  | Some e => ret (Err (Wrap "insert report" e))
  | None =>
  let* r := InsertRecords records in
  match r with
  | Err e => ret (Err (Wrap "insert records" e))
  | Ok inserted =>
  let* reconResult := reconciliation.RunFullReconciliation in
  let discrepanciesDetected :=
    match reconResult with
    | Ok res => reconciliation.TotalDiscrepancies res
    | Err _ => 0
    end in
  ret (Ok {| ReportID := reportID;
             RecordsIngested := inserted;
             DuplicatesSkipped := int_sub (len records) inserted;
             DiscrepanciesDetected := discrepanciesDetected |})
  end end end end.

End Service.

End ingestion.

(** ** Vocabulary of the properties *)

Module Spec.

Import repository.

(** The codes of the rate table. *)
Definition supported (code : string) : Prop :=
  code = "USD" \/ code = "KES" \/ code = "NGN" \/ code = "ZAR".

(** The rate table as the documentation words it: units per 1 USD. *)
Definition fixed_rate (code : string) : float64 :=
  if String.eqb code "KES" then dec 1295 1
  else if String.eqb code "NGN" then dec 15800 1
  else if String.eqb code "ZAR" then dec 186 1
  else dec 10 1.

(** |Y - X| as the detector computes it. *)
Definition abs_diff (X Y : float64) : float64 := Abs (sub Y X).

(** "|Y - X| >= $0.10 and |Y - X| / X > 0.005", in float64. *)
Definition beyond_tolerance (X Y : float64) : bool :=
  geb (abs_diff X Y) (dec 10 2) && gtb (div (abs_diff X Y) X) (dec 5 3).

(** A USD amount: a float64 that is a number. *)
Definition is_number (x : float64) : Prop := is_nan x = false.

(** The next repository call does not fail. *)
Definition next_call_succeeds (w : World) : Prop := hd false (faults w) = false.

(** No repository call fails from here on. *)
Definition no_faults (w : World) : Prop := faults w = [].

(** The primary key of [settlement_records]. *)
Definition unique_record_ids (d : DB) : Prop :=
  List.NoDup (List.map (fun r => SettlementRecord.ID (row_fields r))
                       (settlement_records d)).

(** The transaction a matched record links to, as [GetByID] finds it. *)
Definition linked_transaction (d : DB) (rec : SettlementRecord.t)
    : option Transaction.t :=
  List.find (fun t => String.eqb (Transaction.ID t)
                                 (SettlementRecord.WakalaTransactionID rec))
            (transactions d).

(** A report with this content digest is stored. *)
Definition report_stored (d : DB) (hash : string) : Prop :=
  exists r, In r (settlement_reports d) /\ SettlementReport.FileHash r = hash.

(** The result [IngestReport] gives for content it has seen. *)
Definition already_ingested : ingestion.IngestResult :=
  {| ingestion.ReportID := "already-ingested";
     ingestion.RecordsIngested := 0;
     ingestion.DuplicatesSkipped := 0;
     ingestion.DiscrepanciesDetected := 0 |}.

(** The rows a query for unmatched (matched) records selects, scanned. *)
Definition unmatched_records (d : DB) : list SettlementRecord.t :=
  List.map scanSettlementRecord
    (List.filter (fun r => match wakala_transaction_id r with
                           | None => true | Some _ => false end)
                 (settlement_records d)).

Definition matched_records (d : DB) : list SettlementRecord.t :=
  List.map scanSettlementRecord
    (List.filter (fun r => match wakala_transaction_id r with
                           | None => false | Some _ => true end)
                 (settlement_records d)).

(** [d] is the ORPHANED_SETTLEMENT discrepancy of the record [rec]. *)
Definition orphan_of (rec : SettlementRecord.t) (d : Discrepancy.t) : Prop :=
  Discrepancy.ID d = "DISC-OS-" +:+ SettlementRecord.ID rec
  /\ Discrepancy.Type_ d = DiscrepancyOrphaned
  /\ Discrepancy.SettlementID d = SettlementRecord.ID rec
  /\ Discrepancy.TransactionID d = ""
  /\ Discrepancy.Severity d = SeverityHigh
  /\ Discrepancy.ExpectedUSD d = zero
  /\ Discrepancy.ActualUSD d = SettlementRecord.USDNetAmount rec.

(** [d] is the MISSING_SETTLEMENT discrepancy of the transaction [txn]. *)
Definition missing_of (txn : Transaction.t) (d : Discrepancy.t) : Prop :=
  Discrepancy.ID d = "DISC-MS-" +:+ Transaction.ID txn
  /\ Discrepancy.Type_ d = DiscrepancyMissingSettlement
  /\ Discrepancy.TransactionID d = Transaction.ID txn
  /\ Discrepancy.ExpectedUSD d = Transaction.USDAmount txn
  /\ Discrepancy.ActualUSD d = zero
  /\ Discrepancy.Severity d
     = reconciliation.severityByAmount (Transaction.USDAmount txn).

(** [d] is the AMOUNT_MISMATCH discrepancy of the pair of a transaction
    and a record matched to it. *)
Definition mismatch_of (pair : Transaction.t * SettlementRecord.t)
    (d : Discrepancy.t) : Prop :=
  let X := Transaction.USDAmount (fst pair) in
  let Y := SettlementRecord.USDGrossAmount (snd pair) in
  Discrepancy.ID d = "DISC-AM-" +:+ SettlementRecord.ID (snd pair)
  /\ Discrepancy.Type_ d = DiscrepancyAmountMismatch
  /\ Discrepancy.SettlementID d = SettlementRecord.ID (snd pair)
  /\ Discrepancy.TransactionID d = Transaction.ID (fst pair)
  /\ Discrepancy.ExpectedUSD d = X
  /\ Discrepancy.ActualUSD d = Y
  /\ Discrepancy.DifferenceUSD d = sub Y X
  /\ Discrepancy.Severity d
     = reconciliation.mismatchSeverity (div (abs_diff X Y) X) (abs_diff X Y).

(** The two tolerance gates of [DetectAmountMismatches] as the code tests
    them: [true] when the pair is skipped. *)
Definition tolerated (X Y : float64) : bool :=
  (gtb X zero && leb (div (abs_diff X Y) X) (dec 5 3))
  || ltb (abs_diff X Y) (dec 10 2).

(** The pairs among [recs] that the detector does not skip. *)
Definition flagged (d : DB) (recs : list SettlementRecord.t)
    : list (Transaction.t * SettlementRecord.t) :=
  List.flat_map
    (fun rec =>
       match linked_transaction d rec with
       | Some txn =>
           if tolerated (Transaction.USDAmount txn)
                        (SettlementRecord.USDGrossAmount rec)
           then [] else [(txn, rec)]
       | None => []
       end)
    recs.

(** The discrepancies of a list that point to the settlement record [id]. *)
Definition for_record (id : string) (discs : list Discrepancy.t)
    : list Discrepancy.t :=
  List.filter (fun d => String.eqb (Discrepancy.SettlementID d) id) discs.

(** A view of the database that a computation leaves as it found it. *)
Definition keeps {X A : Type} (view : DB -> X) (c : M A) : Prop :=
  forall w, view (db (snd (c w))) = view (db w).

(** A view that does not see the discrepancy table, nor an update in place
    of the rows of the records or of the transactions. *)
Record stable_view {X : Type} (view : DB -> X) : Prop := {
  view_discrepancies :
    forall l d, view (set_discrepancies l d) = view d;
  view_records_update :
    forall g d,
      view (set_settlement_records (List.map g (settlement_records d)) d) = view d;
  view_transactions_update :
    forall g d, view (set_transactions (List.map g (transactions d)) d) = view d
}.

Section Emitted.

Context {stdlib : StdLib}.

(** A CSV row with a number (gross, fee or net: fields 3, 4, 5) that
    [ParseFloat] refuses, or a date (field 2) that [time.Parse] refuses in
    the layout [2006-01-02] and in RFC 3339. *)
Definition unparseable_row (row : list string) : Prop :=
  (exists e, ParseFloat (TrimSpace (ingestion.field row 3)) = Err e)
  \/ (exists e, ParseFloat (TrimSpace (ingestion.field row 4)) = Err e)
  \/ (exists e, ParseFloat (TrimSpace (ingestion.field row 5)) = Err e)
  \/ ((exists e, time_Parse layout_date (TrimSpace (ingestion.field row 2)) = Err e)
      /\ (exists e, time_Parse RFC3339 (TrimSpace (ingestion.field row 2)) = Err e)).

(** The data rows of a CSV input: the records after the header. *)
Definition data_rows (comma : ascii) (data : list byte)
    : list (result (list string)) :=
  tl (csv_records comma true (string_of_list_byte data)).

(** The discrepancies each detector builds and hands to [BulkInsert]. *)
Definition emitted_missing (w : World) : list Discrepancy.t :=
  let (now, w1) := time_Now w in
  let (window, w2) := reconciliation.settlementWindowHours w1 in
  match GetCapturedWithoutSettlement (now - window) w2 with
  | (Ok txns, w3) => fst (reconciliation.missing_loop txns [] w3)
  | (Err _, _) => []
  end.

Definition emitted_mismatches (w : World) : list Discrepancy.t :=
  match GetMatchedRecords w with
  | (Ok matched, w1) => fst (reconciliation.mismatch_loop matched [] w1)
  | (Err _, _) => []
  end.

Definition emitted_orphans (w : World) : list Discrepancy.t :=
  match GetUnmatchedRecords w with
  | (Ok unmatched, w1) => fst (reconciliation.orphaned_loop unmatched [] w1)
  | (Err _, _) => []
  end.

End Emitted.

End Spec.

Import Spec.

(** ** A small standard library for running the model

    An instance of [StdLib] that covers the inputs of the examples below:
    records separated by line feeds and fields by the separator with no
    quoting, plain decimal numbers, dates in the layout [2006-01-02], times
    written in UTC.  The
    digest is the text itself, which like SHA-256 tells any two of the
    example inputs apart.  Theorems never depend on it: they hold for every
    instance. *)

Module Example.

Definition LF : ascii := "010"%char.

Fixpoint split_on (c : ascii) (s : string) : list string :=
  match s with
  | EmptyString => [EmptyString]
  | String a rest =>
      let r := split_on c rest in
      if Ascii.eqb a c then EmptyString :: r
      else match r with
           | [] => [String a EmptyString]
           | h :: t => String a h :: t
           end
  end.

Definition is_space (a : ascii) : bool :=
  Ascii.eqb a " "%char || Ascii.eqb a "009"%char
  || Ascii.eqb a LF || Ascii.eqb a "013"%char.

Fixpoint trim_left (s : string) : string :=
  match s with
  | String a rest => if is_space a then trim_left rest else s
  | EmptyString => EmptyString
  end.

Fixpoint rev_string (s acc : string) : string :=
  match s with
  | EmptyString => acc
  | String a rest => rev_string rest (String a acc)
  end.

Definition trim_space (s : string) : string :=
  rev_string (trim_left (rev_string (trim_left s) "")) "".

Definition records (comma : ascii) (trimLeadingSpace : bool) (s : string)
    : list (result (list string)) :=
  List.map
    (fun line =>
       Ok (List.map (fun f => if trimLeadingSpace then trim_left f else f)
                    (split_on comma line)))
    (List.filter (fun line => negb (String.eqb line "")) (split_on LF s)).

Definition digit (a : ascii) : option Z :=
  let n := Z.of_nat (nat_of_ascii a) in
  if (48 <=? n) && (n <=? 57) then Some (n - 48) else None.

(** The digits of [s] read as a number on top of [acc]. *)
Fixpoint digits (s : string) (acc : Z) : option Z :=
  match s with
  | EmptyString => Some acc
  | String a rest =>
      match digit a with
      | Some d => digits rest (10 * acc + d)
      | None => None
      end
  end.

Definition unsigned_decimal (s : string) : result float64 :=
  match split_on "."%char s with
  | [whole] =>
      match digits whole 0 with
      | Some n => if String.eqb whole "" then Err (ErrSyntax s) else Ok (of_Z n)
      | None => Err (ErrSyntax s)
      end
  | [whole; frac] =>
      match digits (whole +:+ frac) 0 with
      | Some n =>
          if String.eqb (whole +:+ frac) "" then Err (ErrSyntax s)
          else Ok (dec n (Z.of_nat (String.length frac)))
      | None => Err (ErrSyntax s)
      end
  | _ => Err (ErrSyntax s)
  end.

Definition parse_float (s : string) : result float64 :=
  match s with
  | String "-"%char rest =>
      match unsigned_decimal rest with
      | Ok x => Ok (SFopp x)
      | Err e => Err e
      end
  | _ => unsigned_decimal s
  end.

Definition atoi (s : string) : result int :=
  match s with
  | EmptyString => Err (ErrSyntax s)
  | String "-"%char rest =>
      match digits rest 0 with
      | Some n => if String.eqb rest "" then Err (ErrSyntax s) else Ok (- n)
      | None => Err (ErrSyntax s)
      end
  | _ =>
      match digits s 0 with
      | Some n => Ok n
      | None => Err (ErrSyntax s)
      end
  end.

(** Days from 1970-01-01 to the civil date. *)
Definition days_from_civil (y m d : Z) : Z :=
  let y := if m <=? 2 then y - 1 else y in
  let era := y / 400 in
  let yoe := y - era * 400 in
  let doy := (153 * (m + (if 2 <? m then -3 else 9)) + 2) / 5 + d - 1 in
  let doe := yoe * 365 + yoe / 4 - yoe / 100 + doy in
  era * 146097 + doe - 719468.

Definition parse_time (layout value : string) : result Time :=
  if String.eqb layout layout_date then
    match split_on "-"%char value with
    | [ys; ms; ds] =>
        match digits ys 0, digits ms 0, digits ds 0 with
        | Some y, Some m, Some d =>
            if (String.length ys =? 4)%nat && (String.length ms =? 2)%nat
               && (String.length ds =? 2)%nat
               && (1 <=? m) && (m <=? 12) && (1 <=? d) && (d <=? 31)
            then Ok (days_from_civil y m d * 24 * Hour)
            else Err (ErrSyntax value)
        | _, _, _ => Err (ErrSyntax value)
        end
    | _ => Err (ErrSyntax value)
    end
  else Err (ErrSyntax value).

(** The civil date of a count of days from 1970-01-01. *)
Definition civil_from_days (z : Z) : Z * Z * Z :=
  let z := z + 719468 in
  let era := z / 146097 in
  let doe := z - era * 146097 in
  let yoe := (doe - doe / 1460 + doe / 36524 - doe / 146096) / 365 in
  let doy := doe - (365 * yoe + yoe / 4 - yoe / 100) in
  let mp := (5 * doy + 2) / 153 in
  let d := doy - (153 * mp + 2) / 5 + 1 in
  let m := if mp <? 10 then mp + 3 else mp - 9 in
  (yoe + era * 400 + (if m <=? 2 then 1 else 0), m, d).

Fixpoint zeros (n : nat) : string :=
  match n with
  | O => EmptyString
  | S n => String "0"%char (zeros n)
  end.

Definition pad (width : nat) (n : Z) : string :=
  zeros (width - String.length (itoa n)) +:+ itoa n.

(** A time in the layout RFC 3339, cut to the second, in UTC. *)
Definition format_rfc3339_utc (t : Time) : string :=
  let secs := t / 1000000000 in
  let days := secs / 86400 in
  let rest := secs - days * 86400 in
  let '(y, m, d) := civil_from_days days in
  pad 4 y +:+ "-" +:+ pad 2 m +:+ "-" +:+ pad 2 d +:+ "T"
    +:+ pad 2 (rest / 3600) +:+ ":" +:+ pad 2 (rest mod 3600 / 60) +:+ ":"
    +:+ pad 2 (rest mod 60) +:+ "Z".

Definition lib : StdLib := {|
  sha256_hex := string_of_list_byte;
  ParseFloat := parse_float;
  Atoi := atoi;
  time_Parse := parse_time;
  time_Format_RFC3339 := format_rfc3339_utc;
  column_text := format_rfc3339_utc;
  TrimSpace := trim_space;
  csv_records := records;
  json_Unmarshal := fun _ => Err (ErrSyntax "json");
  fmt_f := fun _ _ => "<float>"
|}.

(** AfriPay files: a header and one row. *)
Definition afripay_header : string :=
  "transaction_id,merchant_ref,settlement_date,gross_amount_kes,fee_kes,net_kes,batch_id".

Definition afripay_good : list byte :=
  list_byte_of_string
    (afripay_header +:+ String LF
       ("AP-TXN-001,M001,2024-01-09,47671.03,715.07,46955.96,KE-BATCH-001"
          +:+ String LF "")).

(** A row of three fields. *)
Definition afripay_short_row : list byte :=
  list_byte_of_string
    (afripay_header +:+ String LF ("AP-TXN-001,M001,2024-01-09" +:+ String LF "")).

(** A gross amount that is no number. *)
Definition afripay_bad_gross : list byte :=
  list_byte_of_string
    (afripay_header +:+ String LF
       ("AP-TXN-001,M001,2024-01-09,abc,715.07,46955.96,KE-BATCH-001"
          +:+ String LF "")).

Definition capepay_header : string :=
  "TXREF|MERCHANT|SETTLE_DATE|AMOUNT_ZAR|DEDUCTIONS_ZAR|NET_ZAR|BATCH".

Definition capepay_short_row : list byte :=
  list_byte_of_string
    (capepay_header +:+ String LF ("CP-TXN-001|M001|2024-01-09" +:+ String LF "")).

Definition capepay_bad_date : list byte :=
  list_byte_of_string
    (capepay_header +:+ String LF
       ("CP-TXN-001|M001|yesterday|1860.00|37.20|1822.80|ZA-BATCH-001"
          +:+ String LF "")).

(** A seeded transaction of 353.72 USD, captured long before the clock. *)
Definition txn1 : Transaction.t :=
  Transaction.mk "WKL-AFRIPAY-001" "AP-TXN-001" ProcessorAfriPay "M001" "KE" "KE"
    (dec 4580674 2) "KES" (dec 35372 2) StatusCaptured
    1704700000000000000 (Some 1704703600000000000) None.

Definition db0 : DB :=
  {| transactions := [txn1]; settlement_reports := [];
     settlement_records := []; discrepancies := [] |}.

Definition world0 : World :=
  {| db := db0; clock := 1710000000000000000; faults := [];
     env_SETTLEMENT_WINDOW_HOURS := "" |}.

(** The world and the result after the one-row AfriPay file was ingested
    into [world0] as format csv_a. *)
Definition world1 : World :=
  Eval vm_compute in
    snd (ingestion.IngestReport (stdlib := lib) afripay_good "afripay" "csv_a" world0).

Definition result1 : ingestion.IngestResult :=
  Eval vm_compute in
    match fst (ingestion.IngestReport (stdlib := lib) afripay_good "afripay" "csv_a"
                                      world0) with
    | Ok r => r
    | Err _ => {| ingestion.ReportID := ""; ingestion.RecordsIngested := 0;
                  ingestion.DuplicatesSkipped := 0;
                  ingestion.DiscrepanciesDetected := 0 |}
    end.

(** A database with one discrepancy of each kind in waiting: [txn1] and a
    record of 368.12 USD gross under its reference, a captured transaction
    [txn2] of 99.99 USD that nothing settles, and a record under a
    reference that no transaction has. *)
Definition txn2 : Transaction.t :=
  Transaction.mk "WKL-AFRIPAY-002" "AP-TXN-002" ProcessorAfriPay "M002" "KE" "KE"
    (dec 1294871 2) "KES" (dec 9999 2) StatusCaptured
    1704700000000000001 (Some 1704703600000000000) None.

Definition rec1 : SettlementRecord.t :=
  SettlementRecord.mk "SR-AP-AP-TXN-001-2" "RPT-1" ProcessorAfriPay "AP-TXN-001" ""
    (dec 4767103 2) (dec 71507 2) (dec 4695596 2) "KES"
    (div (dec 4767103 2) (dec 1295 1)) (div (dec 4695596 2) (dec 1295 1))
    1704758400000000000 "KE-BATCH-001".

Definition rec2 : SettlementRecord.t :=
  SettlementRecord.mk "SR-AP-FAKE-AP-001-3" "RPT-1" ProcessorAfriPay "FAKE-AP-001" ""
    (dec 1295000 2) (dec 19425 2) (dec 1275575 2) "KES"
    (div (dec 1295000 2) (dec 1295 1)) (div (dec 1275575 2) (dec 1295 1))
    1704758400000000000 "KE-BATCH-001".

Definition report1 : SettlementReport.t :=
  SettlementReport.mk "RPT-1" ProcessorAfriPay 1705000000000000000 "KE-BATCH-001"
    "digest-1" 2 1705000000000000000.

Definition db_mixed : DB :=
  {| transactions := [txn1; txn2];
     settlement_reports := [report1];
     settlement_records :=
       [repository.row_of_record rec1; repository.row_of_record rec2];
     discrepancies := [] |}.

Definition world_mixed : World :=
  {| db := db_mixed; clock := 1710000000000000000; faults := [];
     env_SETTLEMENT_WINDOW_HOURS := "" |}.

(** [world_mixed] after the match step. *)
Definition world_matched : World :=
  Eval vm_compute in snd (reconciliation.MatchSettlements world_mixed).

(** A database whose only transaction is a captured one of exactly
    100.00 USD that no settlement record links to. *)
Definition txn3 : Transaction.t :=
  Transaction.mk "WKL-AFRIPAY-003" "AP-TXN-003" ProcessorAfriPay "M003" "KE" "KE"
    (dec 1295000 2) "KES" (dec 10000 2) StatusCaptured
    1704700000000000002 (Some 1704703600000000000) None.

Definition world_hundred : World :=
  {| db := {| transactions := [txn3]; settlement_reports := [];
              settlement_records := []; discrepancies := [] |};
     clock := 1710000000000000000; faults := [];
     env_SETTLEMENT_WINDOW_HOURS := "" |}.

(** [world_mixed] after a full reconciliation run, and the result. *)
Definition world_reconciled : World :=
  Eval vm_compute in
    snd (reconciliation.RunFullReconciliation (stdlib := lib) world_mixed).

Definition result_mixed : reconciliation.ReconciliationResult :=
  Eval vm_compute in
    match fst (reconciliation.RunFullReconciliation (stdlib := lib) world_mixed) with
    | Ok r => r
    | Err _ =>
        {| reconciliation.MatchedCount := 0; reconciliation.MissingSettlements := 0;
           reconciliation.AmountMismatches := 0;
           reconciliation.OrphanedSettlements := 0;
           reconciliation.TotalDiscrepancies := 0 |}
    end.

(** [txn1] as the match step leaves it. *)
Definition txn1_settled : Transaction.t :=
  repository.set_settled 1704758400000000000 txn1.

(** The rows of [world_matched]: [rec1] linked to [txn1], [rec2] unlinked. *)
Definition row1_matched : settlement_row :=
  {| row_fields := rec1; wakala_transaction_id := Some "WKL-AFRIPAY-001" |}.

Definition row2_unmatched : settlement_row :=
  {| row_fields := rec2; wakala_transaction_id := None |}.

(** The same world when the fourth repository call fails: the lookup and
    the two inserts of an ingestion go through, [ClearAll] does not. *)
Definition world_clear_fails : World :=
  {| db := db0; clock := 1710000000000000000; faults := [false; false; false; true];
     env_SETTLEMENT_WINDOW_HOURS := "" |}.

Definition world_clear_failed : World :=
  Eval vm_compute in
    snd (ingestion.IngestReport (stdlib := lib) afripay_good "afripay" "csv_a"
                                world_clear_fails).

Definition afripay_good_records : list SettlementRecord.t :=
  Eval vm_compute in
    match ingestion.ParseAfriPayCSV (stdlib := lib) afripay_good
                                    "RPT-afripay-1710000000000000000" with
    | Ok (records, _) => records
    | Err _ => []
    end.

End Example.

(** ** Vocabulary of the further properties *)

Module Laws.

Import repository.

(** A relation between the database before and the database after that a
    computation respects, whatever it returns. *)
Definition frames {A : Type} (R : DB -> DB -> Prop) (c : M A) : Prop :=
  forall w, R (db w) (db (snd (c w))).

(** The rows after [UpdateWakalaTransactionID] and the transactions after
    [UpdateStatusToSettled]. *)
Definition link_rows (recordID txnID : string) (rows : list settlement_row)
    : list settlement_row :=
  List.map (fun r => if String.eqb (SettlementRecord.ID (row_fields r)) recordID
                     then {| row_fields := row_fields r;
                             wakala_transaction_id := Some txnID |}
                     else r)
           rows.

Definition settle_rows (id : string) (settledAt : Time) (txns : list Transaction.t)
    : list Transaction.t :=
  List.map (fun t => if String.eqb (Transaction.ID t) id
                     then set_settled settledAt t else t)
           txns.

(** Two databases that differ in the discrepancy table at most. *)
Definition only_discrepancies (d d' : DB) : Prop :=
  transactions d' = transactions d
  /\ settlement_reports d' = settlement_reports d
  /\ settlement_records d' = settlement_records d.

(** A transaction without its status and its settlement time. *)
Definition unsettled (t : Transaction.t) : Transaction.t :=
  Transaction.mk
    (Transaction.ID t) (Transaction.ProcessorReference t) (Transaction.Processor t)
    (Transaction.MerchantID t) (Transaction.CustomerCountry t)
    (Transaction.MerchantCountry t) (Transaction.Amount t) (Transaction.Currency t)
    (Transaction.USDAmount t) "" (Transaction.CreatedAt t)
    (Transaction.CapturedAt t) None.

(** Two databases with the same reports, the same settlement records up to
    their links, in the same order, and the same transactions up to status
    and settlement time, in the same order. *)
Definition same_holdings (d d' : DB) : Prop :=
  settlement_reports d' = settlement_reports d
  /\ List.map row_fields (settlement_records d')
     = List.map row_fields (settlement_records d)
  /\ List.map unsettled (transactions d') = List.map unsettled (transactions d).

(** The primary key of [transactions]. *)
Definition unique_transaction_ids (d : DB) : Prop :=
  List.NoDup (List.map Transaction.ID (transactions d)).

(** Two databases with the same table of settlement records. *)
Definition same_records (d d' : DB) : Prop :=
  settlement_records d' = settlement_records d.

(** The linked rows that a computation keeps as long as the record ids are
    unique. *)
Definition keeps_linked (d d' : DB) : Prop :=
  unique_record_ids d ->
  unique_record_ids d'
  /\ forall r, In r (settlement_records d) -> wakala_transaction_id r <> None ->
               In r (settlement_records d').

(** The ids of the rows of [settlement_records]. *)
Definition record_ids (rows : list settlement_row) : list string :=
  List.map (fun r => SettlementRecord.ID (row_fields r)) rows.

(** The parser for [format] never yields 2^63 records or more from [data]
    (a Go slice cannot be that long). *)
Definition parsed_count_fits {stdlib : StdLib} (format : string) (data : list byte)
    : Prop :=
  forall reportID records batchID,
    ingestion.parse_by_format format data reportID = Some (Ok (records, batchID)) ->
    len records < 2 ^ 63.

(** The transaction that [GetByProcessorRef] finds. *)
Definition referenced_transaction (txns : list Transaction.t)
    (processor ref : string) : option Transaction.t :=
  List.find (fun t => String.eqb (Transaction.Processor t) processor
                      && String.eqb (Transaction.ProcessorReference t) ref)
            txns.

(** One turn of the loop of [MatchSettlements] on the database when every
    repository call answers. *)
Definition match_step (d : DB) (rec : SettlementRecord.t) : DB :=
  match referenced_transaction (transactions d) (SettlementRecord.Processor rec)
                               (SettlementRecord.ProcessorTransactionID rec) with
  | None => d
  | Some txn =>
      let d1 :=
        set_settlement_records
          (link_rows (SettlementRecord.ID rec) (Transaction.ID txn)
                     (settlement_records d)) d in
      set_transactions
        (settle_rows (Transaction.ID txn) (SettlementRecord.SettlementDate rec)
                     (transactions d1)) d1
  end.

(** The link of a row, if it has one, is the id of a settled transaction
    with the processor and the reference of the row. *)
Definition linked_right (txns : list Transaction.t) (r : settlement_row) : Prop :=
  match wakala_transaction_id r with
  | None => True
  | Some id =>
      exists txn,
        In txn txns
        /\ Transaction.ID txn = id
        /\ Transaction.Processor txn = SettlementRecord.Processor (row_fields r)
        /\ Transaction.ProcessorReference txn
           = SettlementRecord.ProcessorTransactionID (row_fields r)
        /\ Transaction.Status txn = StatusSettled
  end.

(** The records still to visit agree, on processor and reference, with
    the rows that carry their ids. *)
Definition visits_agree (unmatched : list SettlementRecord.t)
    (rows : list settlement_row) : Prop :=
  forall rec r,
    In rec unmatched -> In r rows ->
    SettlementRecord.ID (row_fields r) = SettlementRecord.ID rec ->
    SettlementRecord.Processor (row_fields r) = SettlementRecord.Processor rec
    /\ SettlementRecord.ProcessorTransactionID (row_fields r)
       = SettlementRecord.ProcessorTransactionID rec.

(** The processor and the currency of an input format of [IngestReport]. *)
Definition format_processor (format : string) : Processor :=
  if String.eqb format "csv_a" then ProcessorAfriPay
  else if String.eqb format "json_b" then ProcessorNairaGateway
  else ProcessorCapePay.

Definition format_currency (format : string) : string :=
  if String.eqb format "csv_a" then "KES"
  else if String.eqb format "json_b" then "NGN"
  else "ZAR".

(** A record as the parsers hand it over: of the report being read, of
    the processor and the currency [cur] of the format, not linked to a
    transaction, with USD amounts that are the local amounts divided by
    [rate]. *)
Definition normalised (reportID : string) (proc : Processor) (cur : string)
    (rate : float64) (rec : SettlementRecord.t) : Prop :=
  SettlementRecord.ReportID rec = reportID
  /\ SettlementRecord.Processor rec = proc
  /\ SettlementRecord.Currency rec = cur
  /\ SettlementRecord.WakalaTransactionID rec = ""
  /\ SettlementRecord.USDGrossAmount rec = div (SettlementRecord.GrossAmount rec) rate
  /\ SettlementRecord.USDNetAmount rec = div (SettlementRecord.NetAmount rec) rate.

(** The batch id of the last record, empty when there is none. *)
Definition last_batch (records : list SettlementRecord.t) : string :=
  List.last (List.map SettlementRecord.BatchID records) "".

(** The cutoff of [DetectMissingSettlements]: the time of the call less
    the settlement window. *)
Definition settlement_cutoff {stdlib : StdLib} (w : World) : Time :=
  clock w - fst (reconciliation.settlementWindowHours w).

(** A captured transaction that no settlement row links to and whose
    [captured_at], as the text of its column, comes before the RFC 3339
    text of the cutoff. *)
Definition overdue_unsettled {stdlib : StdLib} (d : DB) (cutoff : Time)
    (txn : Transaction.t) : Prop :=
  Transaction.Status txn = StatusCaptured
  /\ (exists c, Transaction.CapturedAt txn = Some c
                /\ String.ltb (column_text c) (time_Format_RFC3339 cutoff) = true)
  /\ forall r, In r (settlement_records d) ->
               wakala_transaction_id r <> Some (Transaction.ID txn).

(** [d] is the row that [DetectMissingSettlements] builds for [txn]. *)
Definition missing_row (txn : Transaction.t) (d : Discrepancy.t) : Prop :=
  missing_of txn d /\ Discrepancy.DifferenceUSD d = Transaction.USDAmount txn.

(** [d] is the row that [DetectOrphanedSettlements] builds for [rec]. *)
Definition orphan_row (rec : SettlementRecord.t) (d : Discrepancy.t) : Prop :=
  orphan_of rec d /\ Discrepancy.DifferenceUSD d = SettlementRecord.USDNetAmount rec.

(** No row of the table has an id that starts with [prefix]. *)
Definition no_id_with (prefix : string) (table : list Discrepancy.t) : Prop :=
  forall d suffix, In d table -> Discrepancy.ID d <> prefix +:+ suffix.





(** The primary-key test of the INSERT OR IGNORE of [InsertRecords]: the
    table has a row with the id of the record. *)
Definition stored_id (rows : list settlement_row) (rec : SettlementRecord.t) : bool :=
  existsb (fun r => String.eqb (SettlementRecord.ID (row_fields r))
                               (SettlementRecord.ID rec)) rows.

(** The INSERT OR IGNORE of [InsertRecords] leaves the record out of a
    table of these rows: one of its amounts is NaN, which is NULL in a
    REAL NOT NULL column, or the table has its id. *)
Definition ignored_record (rows : list settlement_row) (rec : SettlementRecord.t)
    : bool :=
  repository.record_has_null rec || stored_id rows rec.


(** The time stamp of a JSON entry parses in one of the two layouts
    [ParseNairaGatewayJSON] tries. *)
Definition settled_at_parses {stdlib : StdLib} (entry : nairaGatewayEntry.t) : Prop :=
  (exists t, time_Parse RFC3339 (nairaGatewayEntry.SettledAt entry) = Ok t)
  \/ (exists t, time_Parse layout_offset (nairaGatewayEntry.SettledAt entry) = Ok t).

(** The record is that of the JSON entry: its reference and amounts. *)
Definition record_of_entry (entry : nairaGatewayEntry.t) (rec : SettlementRecord.t)
    : Prop :=
  SettlementRecord.ProcessorTransactionID rec = nairaGatewayEntry.Ref entry
  /\ SettlementRecord.GrossAmount rec = nairaGatewayEntry.AmountNGN entry
  /\ SettlementRecord.FeeAmount rec = nairaGatewayEntry.ProcessingFee entry
  /\ SettlementRecord.NetAmount rec = nairaGatewayEntry.PayoutNGN entry.

(** The record is that of the CSV row read as line [line]: its id, its
    reference, its three amounts, its date in one of the two layouts and
    its batch id. *)
Definition row_record {stdlib : StdLib} (prefix : string) (line : Z)
    (row : list string) (rec : SettlementRecord.t) : Prop :=
  SettlementRecord.ID rec
  = prefix +:+ TrimSpace (ingestion.field row 0) +:+ "-" +:+ itoa line
  /\ SettlementRecord.ProcessorTransactionID rec = TrimSpace (ingestion.field row 0)
  /\ ParseFloat (TrimSpace (ingestion.field row 3))
     = Ok (SettlementRecord.GrossAmount rec)
  /\ ParseFloat (TrimSpace (ingestion.field row 4))
     = Ok (SettlementRecord.FeeAmount rec)
  /\ ParseFloat (TrimSpace (ingestion.field row 5))
     = Ok (SettlementRecord.NetAmount rec)
  /\ (time_Parse layout_date (TrimSpace (ingestion.field row 2))
      = Ok (SettlementRecord.SettlementDate rec)
      \/ time_Parse RFC3339 (TrimSpace (ingestion.field row 2))
         = Ok (SettlementRecord.SettlementDate rec))
  /\ SettlementRecord.BatchID rec = TrimSpace (ingestion.field row 6).

(** One record per row, in order, the first row read as line [line]. *)
Fixpoint rows_records {stdlib : StdLib} (prefix : string) (line : Z)
    (rows : list (list string)) (records : list SettlementRecord.t) : Prop :=
  match rows, records with
  | [], [] => True
  | row :: rows, rec :: records =>
      row_record prefix line row rec
      /\ rows_records prefix (line + 1) rows records
  | _, _ => False
  end.

(** A data row with as many fields as the header whose amounts and date
    parse. *)
Definition well_formed_row {stdlib : StdLib} (header row : list string) : Prop :=
  len row = len header /\ ~ unparseable_row row.

End Laws.

Import Laws.

(** ** Further runs of the examples *)

Module Cases.

(** The mixed example database before its two records came in. *)
Definition world_reports : World :=
  {| db := {| transactions := [Example.txn1; Example.txn2];
              settlement_reports := [Example.report1];
              settlement_records := []; discrepancies := [] |};
     clock := 1710000000000000000; faults := [];
     env_SETTLEMENT_WINDOW_HOURS := "" |}.

Definition world_inserted : World :=
  Eval vm_compute in
    snd (repository.InsertRecords [Example.rec1; Example.rec2] world_reports).

(** The first example world when the third repository call fails: the
    lookup and the insert of the report go through, the insert of the
    records does not. *)
Definition world_records_fail : World :=
  {| db := Example.db0; clock := 1710000000000000000;
     faults := [false; false; true];
     env_SETTLEMENT_WINDOW_HOURS := "" |}.

Definition world_records_failed : World :=
  Eval vm_compute in
    snd (ingestion.IngestReport (stdlib := Example.lib) Example.afripay_good
                                "afripay" "csv_a" world_records_fail).


(** The first discrepancy of the reconciled mixed world. *)
Definition first_discrepancy : Discrepancy.t :=
  Eval vm_compute in
    match discrepancies (db Example.world_reconciled) with
    | d :: _ => d
    | [] =>
        Discrepancy.mk "" DiscrepancyOrphaned "" "" "" zero zero zero ""
                       SeverityLow "" 0
    end.

(** A NairaGateway document of two entries, the second with a time stamp
    that is no time, and a standard library that decodes every input to
    it and knows the one time stamp. *)
Definition naira_entry1 : nairaGatewayEntry.t :=
  nairaGatewayEntry.mk "NG-TXN-001" "M001" (dec 15800000 2) (dec 158000 2)
                       (dec 15642000 2) "2024-01-15T23:59:59+01:00".

Definition naira_entry2 : nairaGatewayEntry.t :=
  nairaGatewayEntry.mk "NG-TXN-002" "M002" (dec 31600000 2) (dec 316000 2)
                       (dec 31284000 2) "yesterday".

Definition naira_file : nairaGatewayFile.t :=
  nairaGatewayFile.mk "NG-BATCH-001" "2024-01-15T23:59:59+01:00"
                      [naira_entry1; naira_entry2].

Definition json_lib : StdLib := {|
  sha256_hex := string_of_list_byte;
  ParseFloat := Example.parse_float;
  Atoi := Example.atoi;
  time_Parse := fun layout value =>
    if String.eqb layout RFC3339
       && String.eqb value "2024-01-15T23:59:59+01:00"
    then Ok 1705359599000000000
    else Err (ErrSyntax value);
  time_Format_RFC3339 := Example.format_rfc3339_utc;
  column_text := Example.format_rfc3339_utc;
  TrimSpace := Example.trim_space;
  csv_records := Example.records;
  json_Unmarshal := fun _ => Ok naira_file;
  fmt_f := fun _ _ => "<float>"
|}.

(** The header and the data rows of the one-row AfriPay file. *)
Definition afripay_header_fields : list string :=
  Eval vm_compute in
    match Example.records ","%char true
            (string_of_list_byte Example.afripay_good) with
    | Ok header :: _ => header
    | _ => []
    end.

Definition afripay_rows : list (list string) :=
  Eval vm_compute in
    List.flat_map (fun raw => match raw with Ok row => [row] | Err _ => [] end)
      (tl (Example.records ","%char true
             (string_of_list_byte Example.afripay_good))).

(** The world of the 100.00 USD transaction when the clock reads 48
    hours and half a second after its capture: the cutoff falls in the
    second of the capture. *)
Definition world_same_second : World :=
  {| db := db Example.world_hundred;
     clock := 1704703600500000000 + 48 * Hour; faults := [];
     env_SETTLEMENT_WINDOW_HOURS := "" |}.

(** The first record of the mixed example under another id, its gross
    amount not a number. *)
Definition rec_nan : SettlementRecord.t :=
  SettlementRecord.mk "SR-AP-AP-TXN-009-4" "RPT-1" ProcessorAfriPay "AP-TXN-009" ""
    SpecFloat.S754_nan (dec 71507 2) (dec 4695596 2) "KES"
    SpecFloat.S754_nan (div (dec 4695596 2) (dec 1295 1))
    1704758400000000000 "KE-BATCH-001".

End Cases.

(** * Properties *)

(** ** float64 comparisons *)

Section Float64Facts.

Lemma SFcompare_swap (x y : float64) :
  SFcompare y x = option_map CompOpp (SFcompare x y).
Proof.
  destruct x as [sx|sx| |sx mx ex], y as [sy|sy| |sy my ey]; simpl;
    try reflexivity;
    try (destruct sx; reflexivity);
    try (destruct sy; reflexivity);
    try (destruct sx, sy; reflexivity).
  destruct sx, sy; simpl; try reflexivity;
    rewrite (Z.compare_antisym ex ey);
    destruct (ex ?= ey) eqn:E; simpl; try reflexivity;
    rewrite !Pos.compare_cont_spec; simpl;
    rewrite (Pos.compare_antisym mx my);
    destruct (mx ?= my)%positive; reflexivity.
Qed.

Lemma SFcompare_number (x y : float64) :
  is_nan x = false -> is_nan y = false -> exists c, SFcompare x y = Some c.
Proof.
  destruct x, y; simpl; intros; try discriminate; eauto.
Qed.

(** Among numbers, [not (a <= b)] is [b < a]. *)
Lemma leb_false_gtb (a b : float64) :
  is_nan a = false -> is_nan b = false -> negb (leb a b) = gtb a b.
Proof.
  intros Ha Hb. unfold leb, gtb, SFleb, SFltb.
  rewrite (SFcompare_swap a b).
  destruct (SFcompare_number a b Ha Hb) as [c ->].
  destruct c; reflexivity.
Qed.

(** Among numbers, [not (a < b)] is [a >= b]. *)
Lemma ltb_false_geb (a b : float64) :
  is_nan a = false -> is_nan b = false -> negb (ltb a b) = geb a b.
Proof.
  intros Ha Hb. unfold ltb, geb, SFleb, SFltb.
  rewrite (SFcompare_swap a b).
  destruct (SFcompare_number a b Ha Hb) as [c ->].
  destruct c; reflexivity.
Qed.

Lemma shr_1_nonneg (mrs : shr_record) : 0 <= shr_m mrs -> 0 <= shr_m (shr_1 mrs).
Proof.
  destruct mrs as [m r s]; simpl.
  destruct m as [|p|p]; simpl; try lia; destruct p; simpl; lia.
Qed.

Lemma iter_shr_1_nonneg (p : positive) :
  forall mrs, 0 <= shr_m mrs -> 0 <= shr_m (SpecFloat.iter_pos shr_1 p mrs).
Proof.
  induction p as [p IH|p IH|]; intros mrs H; simpl.
  - apply IH, IH, shr_1_nonneg, H.
  - apply IH, IH, H.
  - apply shr_1_nonneg, H.
Qed.

Lemma shr_fexp_nonneg (m e : Z) (l : location) :
  0 <= m -> 0 <= shr_m (fst (shr_fexp prec emax m e l)).
Proof.
  intros H. unfold shr_fexp, shr.
  assert (Hm : 0 <= shr_m (shr_record_of_loc m l))
    by (destruct l as [|[]]; simpl; exact H).
  destruct (fexp prec emax (Zdigits2 m + e) - e); simpl; try exact Hm.
  apply iter_shr_1_nonneg, Hm.
Qed.

Lemma round_nearest_even_nonneg (m : Z) (l : location) :
  0 <= m -> 0 <= round_nearest_even m l.
Proof.
  intros H. destruct l as [|[]]; simpl; try lia.
  destruct (Z.even m); lia.
Qed.

(** Rounding a non-negative mantissa never gives NaN. *)
Lemma binary_round_aux_number (sx : bool) (mx ex : Z) (lx : location) :
  0 <= mx -> is_nan (binary_round_aux prec emax sx mx ex lx) = false.
Proof.
  intros H. unfold binary_round_aux.
  pose proof (shr_fexp_nonneg mx ex lx H) as H1.
  destruct (shr_fexp prec emax mx ex lx) as [mrs' e']; simpl in H1.
  pose proof (shr_fexp_nonneg _ e' loc_Exact
                (round_nearest_even_nonneg _ (loc_of_shr_record mrs') H1)) as H2.
  destruct (shr_fexp prec emax _ e' loc_Exact) as [mrs'' e'']; simpl in H2.
  destruct (shr_m mrs'') as [|m|m]; try reflexivity.
  - destruct (e'' <=? emax - prec); reflexivity.
  - lia.
Qed.

Lemma binary_normalize_number (m e : Z) (szero : bool) :
  is_nan (binary_normalize prec emax m e szero) = false.
Proof.
  destruct m as [|p|p]; simpl; try reflexivity;
    unfold binary_round;
    destruct (shl_align _ _ _) as [mz ez];
    apply binary_round_aux_number; lia.
Qed.

(** A number minus a finite number is a number. *)
Lemma sub_number (y x : float64) :
  is_nan y = false -> is_finite x = true -> is_nan (sub y x) = false.
Proof.
  unfold sub.
  destruct y as [sy|sy| |sy my ey], x as [sx|sx| |sx mx ex]; simpl;
    intros; try discriminate; try reflexivity.
  - destruct sy, sx; reflexivity.
  - apply binary_normalize_number.
Qed.

Lemma Abs_number (x : float64) : is_nan x = false -> is_nan (Abs x) = false.
Proof. destruct x; simpl; intros; try discriminate; reflexivity. Qed.

(** A number divided by a finite positive number is a number. *)
Lemma div_number (a x : float64) :
  is_nan a = false -> is_finite x = true -> gtb x zero = true ->
  is_nan (div a x) = false.
Proof.
  unfold div, gtb.
  destruct a as [sa|sa| |sa ma ea], x as [sx|sx| |sx mx ex]; simpl;
    intros; try discriminate; try reflexivity.
  unfold SFdiv_core_binary.
  set (m' := match _ with Z0 => Z.pos ma | Zpos _ => _ | Zneg _ => 0 end).
  assert (Hm' : 0 <= m').
  { subst m'. destruct (_ - _) as [|p|p]; try lia.
    rewrite Z.shiftl_mul_pow2 by lia. apply Z.mul_nonneg_nonneg; lia. }
  pose proof (Z.div_pos m' (Z.pos mx) Hm' ltac:(lia)) as Hq.
  unfold Z.div in Hq.
  destruct (Z.div_eucl m' (Z.pos mx)) as [q r]; simpl in Hq.
  apply binary_round_aux_number, Hq.
Qed.

End Float64Facts.


(** ** Currency normaliser *)

Lemma ratesPerUSD_lookup (code : string) :
  currency.ratesPerUSD !! code =
    if decide (code = "USD") then Some (dec 10 1)
    else if decide (code = "KES") then Some (dec 1295 1)
    else if decide (code = "NGN") then Some (dec 15800 1)
    else if decide (code = "ZAR") then Some (dec 186 1)
    else None.
Proof.
  unfold currency.ratesPerUSD.
  rewrite !lookup_insert, lookup_empty.
  repeat case_decide; subst; congruence.
Qed.

Lemma ratesPerUSD_supported (code : string) :
  supported code -> currency.ratesPerUSD !! code = Some (fixed_rate code).
Proof.
  rewrite ratesPerUSD_lookup.
  intros [-> | [-> | [-> | ->]]]; reflexivity.
Qed.

Lemma ratesPerUSD_unsupported (code : string) :
  ~ supported code -> currency.ratesPerUSD !! code = None.
Proof.
  rewrite ratesPerUSD_lookup. unfold supported. intros H.
  repeat case_decide; subst; tauto.
Qed.

Lemma supported_dec (code : string) : supported code \/ ~ supported code.
Proof.
  unfold supported.
  destruct (decide (code = "USD")), (decide (code = "KES")),
           (decide (code = "NGN")), (decide (code = "ZAR")); tauto.
Qed.

(** C9: [ToUSD] and [FromUSD] fail with "unsupported currency" exactly when
    the code is none of USD, KES, NGN, ZAR; for these four [ToUSD] divides
    and [FromUSD] multiplies by the fixed rate, KES = 129.5, NGN = 1580.0,
    ZAR = 18.6 and USD = 1.0 per USD. *)
Theorem currency_conversion (amount : float64) (code : string) :
  (supported code ->
     currency.ToUSD amount code = Ok (div amount (fixed_rate code))
     /\ currency.FromUSD amount code = Ok (mul amount (fixed_rate code)))
  /\ (~ supported code ->
        currency.ToUSD amount code = Err (UnsupportedCurrency code)
        /\ currency.FromUSD amount code = Err (UnsupportedCurrency code))
  /\ ((exists e, currency.ToUSD amount code = Err e) <-> ~ supported code)
  /\ ((exists e, currency.FromUSD amount code = Err e) <-> ~ supported code)
  /\ fixed_rate "KES" = dec 1295 1 /\ fixed_rate "NGN" = dec 15800 1
  /\ fixed_rate "ZAR" = dec 186 1 /\ fixed_rate "USD" = dec 10 1.
Proof.
  unfold currency.ToUSD, currency.FromUSD.
  repeat split; try reflexivity.
  - rewrite (ratesPerUSD_supported code) by assumption. reflexivity.
  - rewrite (ratesPerUSD_supported code) by assumption. reflexivity.
  - rewrite (ratesPerUSD_unsupported code) by assumption. reflexivity.
  - rewrite (ratesPerUSD_unsupported code) by assumption. reflexivity.
  - intros [e He] Hs. rewrite (ratesPerUSD_supported code Hs) in He. discriminate.
  - intros Hn. rewrite (ratesPerUSD_unsupported code Hn). eauto.
  - intros [e He] Hs. rewrite (ratesPerUSD_supported code Hs) in He. discriminate.
  - intros Hn. rewrite (ratesPerUSD_unsupported code Hn). eauto.
Qed.

(** 47671.03 KES is 47671.03 / 129.5 USD; "EUR" is refused. *)
Lemma currency_conversion_witness :
  (supported "KES"
   /\ currency.ToUSD (dec 4767103 2) "KES" = Ok (div (dec 4767103 2) (dec 1295 1)))
  /\ (~ supported "EUR"
      /\ currency.ToUSD (dec 4767103 2) "EUR" = Err (UnsupportedCurrency "EUR")).
Proof.
  assert (Hs : supported "KES") by (right; left; reflexivity).
  assert (Hn : ~ supported "EUR")
    by (intros [H | [H | [H | H]]]; discriminate H).
  split; split; try assumption.
  - exact (proj1 (proj1 (currency_conversion (dec 4767103 2) "KES") Hs)).
  - exact (proj1 (proj1 (proj2 (currency_conversion (dec 4767103 2) "EUR")) Hn)).
Defined.

(** ** Severity *)

(** C2 as stated fails at the boundary: an absolute difference of exactly
    $500.00 (here with a relative difference of 2.1%) is not CRITICAL. *)
Lemma mismatch_severity_500_not_critical :
  reconciliation.mismatchSeverity (dec 21 3) (dec 50000 2) <> SeverityCritical.
Proof. vm_compute. discriminate. Qed.

(** C2, amended: CRITICAL needs an absolute difference above $500, so
    $500.01 is CRITICAL while exactly $500.00 is HIGH or MEDIUM by the
    relative difference; $499.99 with 2.1% is HIGH; 1.9% with an absolute
    difference of at most $500 is MEDIUM. *)
Theorem mismatch_severity_boundaries :
  (forall pctDiff absDiff,
     gtb absDiff (dec 50000 2) = true ->
     reconciliation.mismatchSeverity pctDiff absDiff = SeverityCritical)
  /\ (forall pctDiff, reconciliation.mismatchSeverity pctDiff (dec 50001 2) = SeverityCritical)
  /\ (forall pctDiff,
        reconciliation.mismatchSeverity pctDiff (dec 50000 2) =
          if gtb pctDiff (dec 2 2) then SeverityHigh else SeverityMedium)
  /\ reconciliation.mismatchSeverity (dec 21 3) (dec 49999 2) = SeverityHigh
  /\ (forall absDiff,
        leb absDiff (dec 50000 2) = true ->
        reconciliation.mismatchSeverity (dec 19 3) absDiff = SeverityMedium).
Proof.
  unfold reconciliation.mismatchSeverity.
  change (of_Z 500) with (dec 50000 2).
  split; [|split; [|split; [|split]]].
  - intros pctDiff absDiff ->. reflexivity.
  - intros pctDiff. reflexivity.
  - intros pctDiff. reflexivity.
  - reflexivity.
  - intros absDiff H.
    assert (Hn : is_nan absDiff = false) by (destruct absDiff; [reflexivity..|discriminate|reflexivity]).
    rewrite <- (leb_false_gtb absDiff (dec 50000 2) Hn eq_refl).
    unfold leb in *. rewrite H. reflexivity.
Qed.

(** $750.00 is above $500; $120.00 is not. *)
Lemma mismatch_severity_boundaries_witness :
  (gtb (dec 75000 2) (dec 50000 2) = true
   /\ reconciliation.mismatchSeverity (dec 1 2) (dec 75000 2) = SeverityCritical)
  /\ (leb (dec 12000 2) (dec 50000 2) = true
      /\ reconciliation.mismatchSeverity (dec 19 3) (dec 12000 2) = SeverityMedium).
Proof.
  split; split.
  - reflexivity.
  - apply (proj1 mismatch_severity_boundaries). reflexivity.
  - reflexivity.
  - apply (proj2 (proj2 (proj2 (proj2 mismatch_severity_boundaries)))). reflexivity.
Defined.

(** ** The world under the repository calls *)

(** Runs a repository call on both outcomes of the fault schedule. *)
Ltac run_call :=
  intros;
  unfold bind, ret, db_call, get_db, put_db, set_db, time_Now,
         Getenv_SETTLEMENT_WINDOW_HOURS;
  simpl;
  repeat match goal with
         | |- context [faults ?w] => destruct (faults w) as [|[|] ?]; simpl
         end.

Create HintDb keeps.

Section Keeps.

Context {stdlib : StdLib} {X : Type} (view : DB -> X).
Hypothesis view_stable : stable_view view.

Lemma keeps_ret {A : Type} (a : A) : keeps view (ret a).
Proof. intros w. reflexivity. Qed.

Lemma keeps_bind {A B : Type} (c : M A) (k : A -> M B) :
  keeps view c -> (forall a, keeps view (k a)) -> keeps view (bind c k).
Proof.
  intros Hc Hk w. unfold bind.
  specialize (Hc w). destruct (c w) as [a w1]; simpl in Hc.
  rewrite Hk. exact Hc.
Qed.

Ltac keeps_call :=
  let w := fresh "w" in
  intros w; run_call;
  first [ reflexivity
        | apply (view_discrepancies view view_stable)
        | apply (view_records_update view view_stable)
        | apply (view_transactions_update view view_stable) ].

Lemma keeps_time_Now : keeps view time_Now.
Proof. keeps_call. Qed.

Lemma keeps_GetUnmatchedRecords : keeps view repository.GetUnmatchedRecords.
Proof. unfold repository.GetUnmatchedRecords. keeps_call. Qed.

Lemma keeps_GetMatchedRecords : keeps view repository.GetMatchedRecords.
Proof. unfold repository.GetMatchedRecords. keeps_call. Qed.

Lemma keeps_UpdateWakalaTransactionID (recordID txnID : string) :
  keeps view (repository.UpdateWakalaTransactionID recordID txnID).
Proof. unfold repository.UpdateWakalaTransactionID. keeps_call. Qed.

Lemma keeps_GetByID (id : string) : keeps view (repository.GetByID id).
Proof.
  unfold repository.GetByID. intros w. run_call; try reflexivity;
    destruct (List.find _ _); reflexivity.
Qed.

Lemma keeps_GetByProcessorRef (processor ref : string) :
  keeps view (repository.GetByProcessorRef processor ref).
Proof.
  unfold repository.GetByProcessorRef. intros w. run_call; try reflexivity;
    destruct (List.find _ _); reflexivity.
Qed.

Lemma keeps_UpdateStatusToSettled (id : string) (settledAt : Time) :
  keeps view (repository.UpdateStatusToSettled id settledAt).
Proof. unfold repository.UpdateStatusToSettled. keeps_call. Qed.

Lemma keeps_GetCapturedWithoutSettlement (cutoff : Time) :
  keeps view (repository.GetCapturedWithoutSettlement cutoff).
Proof. unfold repository.GetCapturedWithoutSettlement. keeps_call. Qed.

Lemma keeps_ClearAll : keeps view repository.ClearAll.
Proof. unfold repository.ClearAll. keeps_call. Qed.

Lemma keeps_BulkInsert (discs : list Discrepancy.t) :
  keeps view (repository.BulkInsert discs).
Proof.
  unfold repository.BulkInsert. intros w. run_call; try reflexivity;
    destruct (repository.bulk_insert_loop _ _ _); simpl;
    apply (view_discrepancies view view_stable).
Qed.

#[local] Hint Resolve keeps_ret keeps_time_Now
  keeps_GetUnmatchedRecords keeps_GetMatchedRecords
  keeps_UpdateWakalaTransactionID keeps_GetByID
  keeps_GetByProcessorRef keeps_UpdateStatusToSettled
  keeps_GetCapturedWithoutSettlement keeps_ClearAll
  keeps_BulkInsert : keeps.

(** Walks through a computation built from [bind], [match] and [if]. *)
Ltac keeps_walk :=
  repeat first
    [ apply keeps_bind; [solve [eauto with keeps] | intros]
    | solve [eauto with keeps]
    | match goal with
      | |- keeps _ (match ?x with _ => _ end) => destruct x
      | |- keeps _ (if ?b then _ else _) => destruct b
      end ].

Lemma keeps_match_loop (unmatched : list SettlementRecord.t) :
  forall matched, keeps view (reconciliation.match_loop unmatched matched).
Proof.
  induction unmatched as [|rec rest IH]; intros matched; simpl.
  - apply keeps_ret.
  - keeps_walk; apply IH.
Qed.

Lemma keeps_missing_loop (txns : list Transaction.t) :
  forall discs, keeps view (reconciliation.missing_loop txns discs).
Proof.
  induction txns as [|txn rest IH]; intros discs; simpl.
  - apply keeps_ret.
  - keeps_walk; apply IH.
Qed.

Lemma keeps_mismatch_loop (matched : list SettlementRecord.t) :
  forall discs, keeps view (reconciliation.mismatch_loop matched discs).
Proof.
  induction matched as [|rec rest IH]; intros discs; simpl.
  - apply keeps_ret.
  - keeps_walk; apply IH.
Qed.

Lemma keeps_orphaned_loop (unmatched : list SettlementRecord.t) :
  forall discs, keeps view (reconciliation.orphaned_loop unmatched discs).
Proof.
  induction unmatched as [|rec rest IH]; intros discs; simpl.
  - apply keeps_ret.
  - keeps_walk; apply IH.
Qed.

Lemma keeps_settlementWindowHours :
  keeps view reconciliation.settlementWindowHours.
Proof.
  unfold reconciliation.settlementWindowHours.
  apply keeps_bind; [intros w; reflexivity | intros v].
  keeps_walk.
Qed.

#[local] Hint Resolve keeps_match_loop keeps_missing_loop
  keeps_mismatch_loop keeps_orphaned_loop
  keeps_settlementWindowHours : keeps.

Lemma keeps_MatchSettlements : keeps view reconciliation.MatchSettlements.
Proof. unfold reconciliation.MatchSettlements. keeps_walk. Qed.

Lemma keeps_DetectMissingSettlements :
  keeps view reconciliation.DetectMissingSettlements.
Proof. unfold reconciliation.DetectMissingSettlements. keeps_walk. Qed.

Lemma keeps_DetectAmountMismatches :
  keeps view reconciliation.DetectAmountMismatches.
Proof. unfold reconciliation.DetectAmountMismatches. keeps_walk. Qed.

Lemma keeps_DetectOrphanedSettlements :
  keeps view reconciliation.DetectOrphanedSettlements.
Proof. unfold reconciliation.DetectOrphanedSettlements. keeps_walk. Qed.

#[local] Hint Resolve keeps_MatchSettlements
  keeps_DetectMissingSettlements keeps_DetectAmountMismatches
  keeps_DetectOrphanedSettlements : keeps.

(** A reconciliation run keeps every stable view. *)
Lemma keeps_RunFullReconciliation :
  keeps view reconciliation.RunFullReconciliation.
Proof. unfold reconciliation.RunFullReconciliation. keeps_walk. Qed.

End Keeps.

(** The table of reports, the number of transactions and the number of
    settlement records are stable views. *)
Lemma reports_stable : stable_view settlement_reports.
Proof. split; reflexivity. Qed.

Lemma transaction_count_stable : stable_view (fun d => len (transactions d)).
Proof.
  split; try reflexivity.
  intros g d. unfold len. simpl. rewrite length_map. reflexivity.
Qed.

Lemma record_count_stable : stable_view (fun d => len (settlement_records d)).
Proof.
  split; try reflexivity.
  intros g d. unfold len. simpl. rewrite length_map. reflexivity.
Qed.

Lemma keeps_reports_InsertRecords (records : list SettlementRecord.t) :
  keeps settlement_reports (repository.InsertRecords records).
Proof.
  unfold repository.InsertRecords. intros w. run_call; try reflexivity;
    destruct (repository.insert_records_loop _ _ _ _) as [[? ?]|]; reflexivity.
Qed.

Lemma keeps_reports_RunFullReconciliation {stdlib : StdLib} :
  keeps settlement_reports reconciliation.RunFullReconciliation.
Proof. apply keeps_RunFullReconciliation, reports_stable. Qed.


(** ** Ingestion orchestrator *)

Section IngestionFacts.

Context {stdlib : StdLib}.

Lemma db_call_succeeds (w : World) :
  next_call_succeeds w -> fst (db_call w) = false.
Proof.
  unfold next_call_succeeds, db_call.
  destruct (faults w) as [|b rest]; simpl; intros H; [reflexivity | exact H].
Qed.

Lemma db_call_world (w : World) :
  db (snd (db_call w)) = db w
  /\ clock (snd (db_call w)) = clock w
  /\ faults (snd (db_call w)) = tl (faults w).
Proof.
  unfold db_call. destruct (faults w) as [|b rest] eqn:E; simpl;
    rewrite ?E; auto.
Qed.

Lemma report_stored_count (d : DB) (hash : string) :
  (0 <? len (List.filter (fun r => String.eqb (SettlementReport.FileHash r) hash)
                         (settlement_reports d))) = true
  <-> report_stored d hash.
Proof.
  unfold report_stored, len.
  induction (settlement_reports d) as [|r rest IH]; simpl.
  - split; [discriminate | intros [r [[] _]]].
  - destruct (String.eqb (SettlementReport.FileHash r) hash) eqn:E; simpl.
    + split; [intros _| intros _; apply Z.ltb_lt; lia].
      exists r. split; [left; reflexivity | apply String.eqb_eq, E].
    + rewrite IH. split.
      * intros [r' [Hin Hh]]. exists r'. split; [right; exact Hin | exact Hh].
      * intros [r' [[-> | Hin] Hh]].
        -- apply String.eqb_neq in E. contradiction.
        -- exists r'. split; assumption.
Qed.

(** The hash lookup when the database answers. *)
Lemma ReportExistsByHash_stored (hash : string) (w : World) :
  next_call_succeeds w -> report_stored (db w) hash ->
  repository.ReportExistsByHash hash w = (Ok true, snd (db_call w)).
Proof.
  intros Hcall Hstored.
  unfold repository.ReportExistsByHash, bind.
  pose proof (db_call_succeeds w Hcall) as Hf.
  pose proof (db_call_world w) as [Hdb _].
  destruct (db_call w) as [failed w1]; simpl in *. subst failed.
  unfold get_db, ret. rewrite Hdb.
  apply report_stored_count in Hstored. rewrite Hstored. reflexivity.
Qed.

Lemma ReportExistsByHash_inv (hash : string) (w w1 : World) (found : bool) :
  repository.ReportExistsByHash hash w = (Ok found, w1) ->
  db w1 = db w /\ (found = true <-> report_stored (db w) hash).
Proof.
  unfold repository.ReportExistsByHash, bind.
  pose proof (db_call_world w) as [Hdb _].
  destruct (db_call w) as [failed wa]; simpl in *.
  destruct failed; unfold ret, get_db; intros H; inversion H; subst.
  split; [exact Hdb|]. rewrite Hdb. apply report_stored_count.
Qed.

(** Content whose digest is stored gets the sentinel whatever the format
    tag and the bytes are; the only repository call made is the lookup. *)
Lemma IngestReport_seen (data : list byte) (processor format : string) (w : World) :
  next_call_succeeds w -> report_stored (db w) (sha256_hex data) ->
  ingestion.IngestReport data processor format w
  = (Ok already_ingested, snd (db_call w)).
Proof.
  intros Hcall Hstored.
  unfold ingestion.IngestReport, bind.
  rewrite (ReportExistsByHash_stored _ w Hcall Hstored).
  reflexivity.
Qed.

Lemma new_report_hash (reportID : string) (proc : Processor) (batchID hash : string)
    (records : list SettlementRecord.t) (w : World) :
  SettlementReport.FileHash
    (fst (ingestion.new_report reportID proc batchID hash records w)) = hash
  /\ settlement_reports
       (db (snd (ingestion.new_report reportID proc batchID hash records w)))
     = settlement_reports (db w).
Proof.
  unfold ingestion.new_report, bind, ret, time_Now.
  destruct (String.eqb batchID ""); simpl; auto.
Qed.

Lemma InsertReport_stores (rpt : SettlementReport.t) (w w1 : World) :
  repository.InsertReport rpt w = (None, w1) ->
  report_stored (db w1) (SettlementReport.FileHash rpt).
Proof.
  unfold repository.InsertReport, bind.
  pose proof (db_call_world w) as [Hdb _].
  destruct (db_call w) as [failed wa]; simpl in *.
  destruct failed; unfold ret, get_db, put_db; [discriminate|].
  destruct (existsb _ _); [discriminate|].
  intros H. inversion H; subst. simpl.
  exists rpt. split; [apply in_or_app; right; left; reflexivity | reflexivity].
Qed.

Lemma report_stored_kept (d d' : DB) (hash : string) :
  settlement_reports d' = settlement_reports d ->
  report_stored d hash -> report_stored d' hash.
Proof. unfold report_stored. intros ->. exact id. Qed.

(** After a successful ingestion the digest of the content is stored. *)
Lemma IngestReport_stores (data : list byte) (processor format : string)
    (w w1 : World) (res : ingestion.IngestResult) :
  ingestion.IngestReport data processor format w = (Ok res, w1) ->
  report_stored (db w1) (sha256_hex data).
Proof.
  unfold ingestion.IngestReport. unfold bind at 1.
  destruct (repository.ReportExistsByHash _ w) as [[found|e] wa] eqn:E1;
    [|discriminate].
  apply ReportExistsByHash_inv in E1 as [Hdb Hfound].
  destruct found.
  - unfold ret. intros H. inversion H; subst.
    rewrite Hdb. apply Hfound. reflexivity.
  - unfold bind at 1. unfold time_Now at 1.
    destruct (ingestion.parse_by_format _ _ _) as [[[records batchID]|e]|];
      [|discriminate..].
    unfold bind at 1.
    match goal with
    | |- context [ingestion.new_report ?a ?b ?c ?d ?e ?w] =>
        pose proof (new_report_hash a b c d e w) as [Hh _];
        destruct (ingestion.new_report a b c d e w) as [report wb]
    end.
    simpl in Hh. unfold bind at 1.
    destruct (repository.InsertReport report wb) as [[e|] wc] eqn:E2;
      [discriminate|].
    apply InsertReport_stores in E2. rewrite Hh in E2.
    unfold bind at 1.
    pose proof (keeps_reports_InsertRecords records wc) as K1.
    destruct (repository.InsertRecords records wc) as [[inserted|e] wd];
      [|discriminate].
    simpl in K1. unfold bind at 1.
    pose proof (keeps_reports_RunFullReconciliation wd) as K2.
    destruct (reconciliation.RunFullReconciliation wd) as [rr we].
    simpl in K2. unfold ret. intros H. inversion H; subst.
    eapply report_stored_kept; [exact K2|].
    eapply report_stored_kept; [exact K1|]. exact E2.
Qed.

End IngestionFacts.

(** C4: after an ingestion of the bytes B has succeeded, a second
    [IngestReport] of B (under any processor and format tag) succeeds with
    the report id "already-ingested" and [records_ingested = 0]; it leaves
    every table and the clock as they were and makes one repository call,
    the digest lookup: no report, no record, no reconciliation run. *)
Theorem IngestReport_idempotent {stdlib : StdLib} (data : list byte)
    (processor format processor' format' : string)
    (w w1 : World) (res : ingestion.IngestResult) :
  ingestion.IngestReport data processor format w = (Ok res, w1) ->
  next_call_succeeds w1 ->
  exists w2,
    ingestion.IngestReport data processor' format' w1 = (Ok already_ingested, w2)
    /\ ingestion.ReportID already_ingested = "already-ingested"
    /\ ingestion.RecordsIngested already_ingested = 0
    /\ db w2 = db w1
    /\ clock w2 = clock w1
    /\ faults w2 = tl (faults w1).
Proof.
  intros Hfirst Hcall.
  exists (snd (db_call w1)).
  pose proof (db_call_world w1) as (Hdb & Hclock & Hfaults).
  repeat split; try assumption.
  apply IngestReport_seen; [exact Hcall|].
  eapply IngestReport_stores, Hfirst.
Qed.

(** C10: the digest lookup comes before the format switch and the parser:
    stored content gets the sentinel under an unknown format tag and with
    unparseable bytes alike, and "unsupported format" is only returned for
    content whose digest is not stored. *)
Theorem IngestReport_lookup_first {stdlib : StdLib} (data : list byte)
    (processor format : string) (w : World) :
  (next_call_succeeds w -> report_stored (db w) (sha256_hex data) ->
   ingestion.IngestReport data processor format w
   = (Ok already_ingested, snd (db_call w)))
  /\ (forall w1,
        ingestion.IngestReport data processor format w
        = (Err (UnsupportedFormat format), w1) ->
        ~ report_stored (db w) (sha256_hex data)).
Proof.
  split.
  - apply IngestReport_seen.
  - intros w1. unfold ingestion.IngestReport. unfold bind at 1.
    destruct (repository.ReportExistsByHash _ w) as [[found|e] wa] eqn:E1;
      [|discriminate].
    apply ReportExistsByHash_inv in E1 as [_ Hfound].
    destruct found; [discriminate|].
    intros _ Hstored. apply Hfound in Hstored. discriminate.
Qed.

(** An ingestion of the one-row AfriPay file, then the same bytes again. *)
Lemma IngestReport_idempotent_witness :
  ingestion.IngestReport (stdlib := Example.lib) Example.afripay_good "afripay" "csv_a"
                         Example.world0
  = (Ok Example.result1, Example.world1)
  /\ next_call_succeeds Example.world1
  /\ exists w2,
       ingestion.IngestReport (stdlib := Example.lib) Example.afripay_good
                              "afripay" "csv_a" Example.world1
       = (Ok already_ingested, w2)
       /\ ingestion.ReportID already_ingested = "already-ingested"
       /\ ingestion.RecordsIngested already_ingested = 0
       /\ db w2 = db Example.world1
       /\ clock w2 = clock Example.world1
       /\ faults w2 = tl (faults Example.world1).
Proof.
  assert (H1 : ingestion.IngestReport (stdlib := Example.lib) Example.afripay_good
                 "afripay" "csv_a" Example.world0
               = (Ok Example.result1, Example.world1))
    by (vm_compute; reflexivity).
  split; [exact H1|].
  split; [reflexivity|].
  exact (IngestReport_idempotent (stdlib := Example.lib) Example.afripay_good
           "afripay" "csv_a" "afripay" "csv_a" Example.world0 Example.world1
           Example.result1 H1 eq_refl).
Defined.

(** The stored file again, now under a format tag that does not exist. *)
Lemma IngestReport_lookup_first_witness :
  next_call_succeeds Example.world1
  /\ report_stored (db Example.world1)
                   (sha256_hex (StdLib := Example.lib) Example.afripay_good)
  /\ ingestion.IngestReport (stdlib := Example.lib) Example.afripay_good "afripay"
                            "xml" Example.world1
     = (Ok already_ingested, snd (db_call Example.world1)).
Proof.
  assert (Hs : report_stored (db Example.world1)
                 (sha256_hex (StdLib := Example.lib) Example.afripay_good)).
  { eexists. split; [left; reflexivity | vm_compute; reflexivity]. }
  split; [reflexivity|]. split; [exact Hs|].
  exact (proj1 (IngestReport_lookup_first (stdlib := Example.lib)
                  Example.afripay_good "afripay" "xml" Example.world1)
               eq_refl Hs).
Defined.

(** ** Counting in Go's int *)

Lemma wrap_small (z : Z) : - 2 ^ 63 <= z < 2 ^ 63 -> wrap z = z.
Proof.
  intros H. unfold wrap. rewrite Z.mod_small; lia.
Qed.

Lemma int_add_small (a b : int) : - 2 ^ 63 <= a + b < 2 ^ 63 -> int_add a b = a + b.
Proof. apply wrap_small. Qed.

Lemma int_sub_small (a b : int) : - 2 ^ 63 <= a - b < 2 ^ 63 -> int_sub a b = a - b.
Proof. apply wrap_small. Qed.

Lemma len_app {A : Type} (l1 l2 : list A) : len (l1 ++ l2) = len l1 + len l2.
Proof. unfold len. rewrite length_app. lia. Qed.

Lemma len_nonneg {A : Type} (l : list A) : 0 <= len l.
Proof. unfold len. lia. Qed.

(** The count [InsertRecords] keeps is the number of rows it added. *)
Lemma insert_records_loop_count (reports : list SettlementReport.t)
    (records : list SettlementRecord.t) :
  forall table inserted table' inserted',
    repository.insert_records_loop reports records table inserted
    = Ok (table', inserted') ->
    0 <= inserted -> inserted + len records < 2 ^ 63 ->
    inserted' - inserted = len table' - len table
    /\ inserted <= inserted' <= inserted + len records.
Proof.
  induction records as [|rec rest IH]; intros table inserted table' inserted' H H0 Hb.
  - simpl in H. inversion H; subst. unfold len in *. simpl. lia.
  - simpl in H. change (len (rec :: rest)) with (Z.of_nat (S (length rest))) in Hb.
    assert (Hb' : inserted + 1 + len rest < 2 ^ 63) by (unfold len; lia).
    pose proof (len_nonneg rest) as Hr.
    destruct (repository.record_has_null rec || existsb _ table).
    + rewrite int_add_small in H by lia. rewrite Z.add_0_r in H.
      apply IH in H; [|lia|lia]. unfold len in *. simpl. lia.
    + destruct (existsb _ reports); [|discriminate].
      rewrite int_add_small in H by lia.
      apply IH in H; [|lia|lia]. rewrite len_app in H.
      change (len [repository.row_of_record rec]) with 1 in H.
      unfold len in *. simpl. lia.
Qed.

Lemma InsertRecords_count (records : list SettlementRecord.t) (w w' : World)
    (inserted : int) :
  repository.InsertRecords records w = (Ok inserted, w') ->
  len records < 2 ^ 63 ->
  inserted = len (settlement_records (db w')) - len (settlement_records (db w))
  /\ 0 <= inserted <= len records.
Proof.
  unfold repository.InsertRecords, bind.
  pose proof (db_call_world w) as [Hdb _].
  destruct (db_call w) as [failed wa]; simpl in *.
  destruct failed; unfold ret, get_db, put_db; [discriminate|].
  rewrite Hdb.
  destruct (repository.insert_records_loop _ _ _ _) as [[table n]|e] eqn:E;
    [|discriminate].
  intros H Hb. inversion H; subst. simpl.
  apply insert_records_loop_count in E; [|lia|lia]. lia.
Qed.

(** C7: when the digest is new, the parser and both inserts succeed, and
    the reconciliation run that follows fails, [IngestReport] still
    succeeds: [discrepancies_detected] is 0, [records_ingested] is the
    number of rows [InsertRecords] added, and [duplicates_skipped] is the
    number of parsed records minus that. *)
Theorem IngestReport_reconciliation_failure {stdlib : StdLib} (data : list byte)
    (processor format : string) (w w1 w2 w3 w4 w5 : World)
    (records : list SettlementRecord.t) (batchID : string)
    (report : SettlementReport.t) (inserted : int) (e : error) :
  let hash := sha256_hex data in
  let reportID := "RPT-" +:+ processor +:+ "-" +:+ itoa (clock w1) in
  repository.ReportExistsByHash hash w = (Ok false, w1) ->
  ingestion.parse_by_format format data reportID = Some (Ok (records, batchID)) ->
  ingestion.new_report reportID processor batchID hash records (snd (time_Now w1))
  = (report, w2) ->
  repository.InsertReport report w2 = (None, w3) ->
  repository.InsertRecords records w3 = (Ok inserted, w4) ->
  reconciliation.RunFullReconciliation w4 = (Err e, w5) ->
  len records < 2 ^ 63 ->
  exists res,
    ingestion.IngestReport data processor format w = (Ok res, w5)
    /\ ingestion.ReportID res = reportID
    /\ ingestion.DiscrepanciesDetected res = 0
    /\ ingestion.RecordsIngested res = inserted
    /\ ingestion.RecordsIngested res
       = len (settlement_records (db w4)) - len (settlement_records (db w3))
    /\ ingestion.DuplicatesSkipped res = len records - ingestion.RecordsIngested res.
Proof.
  intros hash reportID Hlookup Hparse Hreport Hins Hrecs Hrun Hlen.
  pose proof (InsertRecords_count records w3 w4 inserted Hrecs Hlen) as [Hcount Hrange].
  eexists. split.
  - unfold ingestion.IngestReport. unfold bind at 1.
    fold hash. rewrite Hlookup.
    cbv beta iota delta [time_Now snd] in Hreport.
    unfold bind at 1. unfold time_Now at 1.
    fold reportID. rewrite Hparse.
    unfold bind at 1. rewrite Hreport.
    unfold bind at 1. rewrite Hins.
    unfold bind at 1. rewrite Hrecs.
    unfold bind at 1. rewrite Hrun.
    unfold ret. reflexivity.
  - simpl. repeat split; try assumption.
    apply int_sub_small. pose proof (len_nonneg records). lia.
Qed.

(** The one-row AfriPay file ingested while [ClearAll] fails: one record
    stored, none skipped, no discrepancy reported. *)
Lemma IngestReport_reconciliation_failure_witness :
  exists res,
    ingestion.IngestReport (stdlib := Example.lib) Example.afripay_good "afripay"
                           "csv_a" Example.world_clear_fails
    = (Ok res, Example.world_clear_failed)
    /\ ingestion.DiscrepanciesDetected res = 0
    /\ ingestion.RecordsIngested res = 1
    /\ ingestion.DuplicatesSkipped res = 0.
Proof.
  edestruct (IngestReport_reconciliation_failure (stdlib := Example.lib)
               Example.afripay_good "afripay" "csv_a" Example.world_clear_fails)
    as (res & Hrun & _ & Hdisc & Hing & _ & Hdup).
  - vm_compute. reflexivity.
  - vm_compute. reflexivity.
  - vm_compute. reflexivity.
  - vm_compute. reflexivity.
  - vm_compute. reflexivity.
  - vm_compute. reflexivity.
  - vm_compute. reflexivity.
  - exists res. split; [exact Hrun|]. split; [exact Hdisc|].
    split; [exact Hing|]. rewrite Hdup, Hing. reflexivity.
Defined.

(** ** Lists keyed by a unique id *)

Section KeyedLists.

Context {A : Type} (key : A -> string).

Lemma NoDup_map_filter (p : A -> bool) (l : list A) :
  List.NoDup (List.map key l) -> List.NoDup (List.map key (List.filter p l)).
Proof.
  induction l as [|a l IH]; simpl; intros H; [constructor|].
  inversion H as [|? ? Hnotin Hrest]; subst.
  destruct (p a); simpl; [|apply IH, Hrest].
  constructor; [|apply IH, Hrest].
  intros Hin. apply Hnotin.
  apply in_map_iff in Hin as [b [Hb Hin]].
  apply filter_In in Hin as [Hin _].
  apply in_map_iff. exists b. split; assumption.
Qed.

Lemma NoDup_map_inj (l : list A) (a b : A) :
  List.NoDup (List.map key l) -> In a l -> In b l -> key a = key b -> a = b.
Proof.
  induction l as [|c l IH]; simpl; intros H Ha Hb Hk; [contradiction|].
  inversion H as [|? ? Hnotin Hrest]; subst.
  destruct Ha as [-> | Ha], Hb as [-> | Hb].
  - reflexivity.
  - exfalso. apply Hnotin. rewrite Hk. apply in_map, Hb.
  - exfalso. apply Hnotin. rewrite <- Hk. apply in_map, Ha.
  - apply IH; assumption.
Qed.

(** [discs] was built one discrepancy per element of [l], in order, each
    pointing to its element's key. *)
Variable R : A -> Discrepancy.t -> Prop.
Hypothesis R_key : forall a d, R a d -> Discrepancy.SettlementID d = key a.

Lemma for_record_none (l : list A) (discs : list Discrepancy.t) (id : string) :
  Forall2 R l discs -> ~ In id (List.map key l) -> for_record id discs = [].
Proof.
  induction 1 as [|a d l discs Had Hrest IH]; simpl; intros Hnotin; [reflexivity|].
  rewrite (R_key a d Had).
  destruct (String.eqb (key a) id) eqn:E.
  - apply String.eqb_eq in E. exfalso. apply Hnotin. left. exact E.
  - apply IH. intros Hin. apply Hnotin. right. exact Hin.
Qed.

Lemma for_record_one (l : list A) (discs : list Discrepancy.t) (a : A) :
  Forall2 R l discs -> List.NoDup (List.map key l) -> In a l ->
  exists d, for_record (key a) discs = [d] /\ R a d.
Proof.
  induction 1 as [|b d l discs Hbd Hrest IH]; simpl; intros Hnd Hin; [contradiction|].
  inversion Hnd as [|? ? Hnotin Hnd']; subst.
  rewrite (R_key b d Hbd).
  destruct Hin as [-> | Hin].
  - rewrite String.eqb_refl. exists d. split; [|exact Hbd].
    f_equal. eapply for_record_none; eassumption.
  - destruct (String.eqb (key b) (key a)) eqn:E.
    + apply String.eqb_eq in E. exfalso. apply Hnotin.
      rewrite E. apply in_map, Hin.
    + apply IH; assumption.
Qed.

End KeyedLists.

(** ** The detectors *)

Section DetectorFacts.

Context {stdlib : StdLib}.

Lemma GetUnmatchedRecords_run (w : World) :
  next_call_succeeds w ->
  repository.GetUnmatchedRecords w = (Ok (unmatched_records (db w)), snd (db_call w)).
Proof.
  intros Hcall. unfold repository.GetUnmatchedRecords, bind.
  pose proof (db_call_succeeds w Hcall) as Hf.
  pose proof (db_call_world w) as [Hdb _].
  destruct (db_call w) as [failed w1]; simpl in *. subst failed.
  unfold get_db, ret, unmatched_records. rewrite Hdb. reflexivity.
Qed.

Lemma GetUnmatchedRecords_db (w : World) :
  db (snd (repository.GetUnmatchedRecords w)) = db w.
Proof. unfold repository.GetUnmatchedRecords. run_call; reflexivity. Qed.

Lemma orphaned_loop_rows (unmatched : list SettlementRecord.t) :
  forall discs w,
    exists built,
      fst (reconciliation.orphaned_loop unmatched discs w) = discs ++ built
      /\ Forall2 orphan_row unmatched built.
Proof.
  induction unmatched as [|rec rest IH]; intros discs w; simpl.
  - exists []. split; [symmetry; apply app_nil_r | constructor].
  - unfold bind at 1, time_Now at 1.
    match goal with
    | |- context [reconciliation.orphaned_loop rest (discs ++ [?d]) ?w'] =>
        destruct (IH (discs ++ [d]) w') as [built [Hb HF]];
        exists (d :: built)
    end.
    split.
    + rewrite Hb, <- app_assoc. reflexivity.
    + constructor; [|exact HF]. repeat split.
Qed.

Lemma emitted_orphans_rows (w : World) :
  next_call_succeeds w ->
  Forall2 orphan_row (unmatched_records (db w)) (emitted_orphans w).
Proof.
  intros Hcall. unfold emitted_orphans.
  rewrite (GetUnmatchedRecords_run w Hcall).
  destruct (orphaned_loop_rows (unmatched_records (db w)) [] (snd (db_call w)))
    as [built [Hb HF]].
  rewrite Hb. exact HF.
Qed.

Lemma BulkInsert_inv (discs : list Discrepancy.t) (w w' : World) (n : int) :
  repository.BulkInsert discs w = (Ok n, w') ->
  repository.bulk_insert_loop discs (discrepancies (db w)) 0
  = (discrepancies (db w'), n).
Proof.
  unfold repository.BulkInsert, bind.
  pose proof (db_call_world w) as [Hdb _].
  destruct (db_call w) as [failed wa]; simpl in *.
  destruct failed; unfold ret, get_db, put_db; [discriminate|].
  rewrite Hdb.
  destruct (repository.bulk_insert_loop _ _ _) as [table k].
  intros H. inversion H; subst. reflexivity.
Qed.

(** What a successful [DetectOrphanedSettlements] writes: the emitted
    discrepancies, inserted or ignored by id, and their count. *)
Lemma DetectOrphanedSettlements_inserts (w w' : World) (n : int) :
  reconciliation.DetectOrphanedSettlements w = (Ok n, w') ->
  repository.bulk_insert_loop (emitted_orphans w) (discrepancies (db w)) 0
  = (discrepancies (db w'), n).
Proof.
  unfold reconciliation.DetectOrphanedSettlements, emitted_orphans.
  unfold bind at 1.
  pose proof (GetUnmatchedRecords_db w) as Hd1.
  destruct (repository.GetUnmatchedRecords w) as [[unmatched|e] w1] eqn:E1;
    [|discriminate].
  simpl in Hd1.
  unfold bind at 1.
  assert (Hd2 : forall l acc v,
             discrepancies (db (snd (reconciliation.orphaned_loop l acc v)))
             = discrepancies (db v)).
  { induction l as [|rec rest IH]; intros acc v; simpl; [reflexivity|].
    unfold bind at 1, time_Now at 1. rewrite IH. reflexivity. }
  specialize (Hd2 unmatched [] w1).
  destruct (reconciliation.orphaned_loop unmatched [] w1) as [discs w2].
  simpl in *.
  destruct (0 <? len discs) eqn:El.
  - unfold bind at 1.
    destruct (repository.BulkInsert discs w2) as [[k|e] w3] eqn:E3;
      [|discriminate].
    unfold ret. intros H. inversion H; subst.
    apply BulkInsert_inv in E3. rewrite <- Hd1, <- Hd2. exact E3.
  - unfold ret. intros H. inversion H; subst.
    destruct discs; [|discriminate El].
    simpl. rewrite <- Hd1, <- Hd2. reflexivity.
Qed.

End DetectorFacts.

Lemma example_unique_record_ids : unique_record_ids (db Example.world_matched).
Proof.
  unfold unique_record_ids. simpl.
  constructor; [|constructor; [|constructor]]; simpl; intuition discriminate.
Defined.

(** ** Missing settlements *)

Lemma Forall2_In_r {A B : Type} (R : A -> B -> Prop) (l : list A) (l' : list B)
    (b : B) :
  Forall2 R l l' -> In b l' -> exists a, In a l /\ R a b.
Proof.
  induction 1 as [|a0 b0 l l' Hab Hrest IH]; simpl; intros Hin; [contradiction|].
  destruct Hin as [-> | Hin].
  - exists a0. split; [left; reflexivity | exact Hab].
  - destruct (IH Hin) as [a [Ha HR]]. exists a. split; [right; exact Ha | exact HR].
Qed.

Lemma insert_by_created_In {stdlib : StdLib} (t u : Transaction.t)
    (l : list Transaction.t) :
  In u (repository.insert_by_created t l) -> u = t \/ In u l.
Proof.
  induction l as [|v l IH]; simpl.
  - intros [<- | []]. left. reflexivity.
  - destruct (String.leb _ _); simpl.
    + intros [<- | [<- | H]]; auto.
    + intros [<- | H]; auto. destruct (IH H); auto.
Qed.

Lemma order_by_created_In {stdlib : StdLib} (u : Transaction.t)
    (l : list Transaction.t) :
  In u (repository.order_by_created l) -> In u l.
Proof.
  unfold repository.order_by_created.
  induction l as [|t l IH]; simpl; [exact id|].
  intros H. apply insert_by_created_In in H as [-> | H]; auto.
Qed.

Section MissingFacts.

Context {stdlib : StdLib}.

Lemma missing_loop_built (txns : list Transaction.t) :
  forall discs w,
    (exists built,
       fst (reconciliation.missing_loop txns discs w) = discs ++ built
       /\ Forall2 missing_of txns built)
    /\ db (snd (reconciliation.missing_loop txns discs w)) = db w.
Proof.
  induction txns as [|txn rest IH]; intros discs w; simpl.
  - split; [|reflexivity].
    exists []. split; [symmetry; apply app_nil_r | constructor].
  - unfold bind at 1 2, time_Now at 1 2.
    match goal with
    | |- context [reconciliation.missing_loop rest (discs ++ [?d]) ?w'] =>
        destruct (IH (discs ++ [d]) w') as [[built [Hb HF]] Hdb];
        split; [exists (d :: built) | exact Hdb]
    end.
    split.
    + rewrite Hb, <- app_assoc. reflexivity.
    + constructor; [|exact HF]. repeat split.
Qed.

Lemma settlementWindowHours_world (w : World) :
  snd (reconciliation.settlementWindowHours w) = w.
Proof.
  unfold reconciliation.settlementWindowHours, bind, Getenv_SETTLEMENT_WINDOW_HOURS.
  destruct (negb _); [|reflexivity].
  destruct (Atoi _) as [h|e]; [|reflexivity].
  destruct (0 <? h); reflexivity.
Qed.

Lemma GetCapturedWithoutSettlement_inv (cutoff : Time) (w w' : World)
    (txns : list Transaction.t) :
  repository.GetCapturedWithoutSettlement cutoff w = (Ok txns, w') ->
  db w' = db w
  /\ forall t, In t txns ->
       In t (transactions (db w)) /\ Transaction.Status t = StatusCaptured.
Proof.
  unfold repository.GetCapturedWithoutSettlement, bind.
  pose proof (db_call_world w) as [Hdb _].
  destruct (db_call w) as [failed wa]; simpl in *.
  destruct failed; unfold ret, get_db; [discriminate|].
  intros H. inversion H; subst. split; [exact Hdb|].
  intros t Ht. apply order_by_created_In, filter_In in Ht as [Hin Hp].
  rewrite Hdb in Hin. split; [exact Hin|].
  apply andb_prop in Hp as [Hp _]. apply andb_prop in Hp as [Hp _].
  apply String.eqb_eq, Hp.
Qed.

(** Every discrepancy [DetectMissingSettlements] builds belongs to a
    captured transaction of the database. *)
Lemma emitted_missing_built (w : World) (d : Discrepancy.t) :
  In d (emitted_missing w) ->
  exists txn,
    In txn (transactions (db w))
    /\ Transaction.Status txn = StatusCaptured
    /\ missing_of txn d.
Proof.
  unfold emitted_missing, time_Now.
  pose proof (settlementWindowHours_world
                {| db := db w; clock := clock w + 1; faults := faults w;
                   env_SETTLEMENT_WINDOW_HOURS := env_SETTLEMENT_WINDOW_HOURS w |})
    as Hw.
  destruct (reconciliation.settlementWindowHours _) as [window w2].
  simpl in Hw. subst w2.
  destruct (repository.GetCapturedWithoutSettlement _ _) as [[txns|e] w3] eqn:E;
    [|intros []].
  apply GetCapturedWithoutSettlement_inv in E as [Hdb Htx]. simpl in Htx.
  destruct (missing_loop_built txns [] w3) as [[built [Hb HF]] _].
  rewrite Hb. simpl. intros Hin.
  destruct (Forall2_In_r _ _ _ _ HF Hin) as [txn [Hin' Hm]].
  exists txn. destruct (Htx txn Hin') as [H1 H2]. auto.
Qed.

Lemma DetectMissingSettlements_inserts (w w' : World) (n : int) :
  reconciliation.DetectMissingSettlements w = (Ok n, w') ->
  repository.bulk_insert_loop (emitted_missing w) (discrepancies (db w)) 0
  = (discrepancies (db w'), n).
Proof.
  unfold reconciliation.DetectMissingSettlements, emitted_missing.
  unfold bind at 1. unfold time_Now.
  unfold bind at 1.
  pose proof (settlementWindowHours_world
                {| db := db w; clock := clock w + 1; faults := faults w;
                   env_SETTLEMENT_WINDOW_HOURS := env_SETTLEMENT_WINDOW_HOURS w |})
    as Hw.
  destruct (reconciliation.settlementWindowHours _) as [window w2].
  simpl in Hw. subst w2.
  unfold bind at 1.
  destruct (repository.GetCapturedWithoutSettlement _ _) as [[txns|e] w3] eqn:E;
    [|discriminate].
  apply GetCapturedWithoutSettlement_inv in E as [Hdb _]. simpl in Hdb.
  unfold bind at 1.
  destruct (missing_loop_built txns [] w3) as [_ Hdb2].
  destruct (reconciliation.missing_loop txns [] w3) as [discs w4].
  simpl in *.
  destruct (0 <? len discs) eqn:El.
  - unfold bind at 1.
    destruct (repository.BulkInsert discs w4) as [[k|e] w5] eqn:E3; [|discriminate].
    unfold ret. intros H. inversion H; subst.
    apply BulkInsert_inv in E3. rewrite <- Hdb, <- Hdb2. exact E3.
  - unfold ret. intros H. inversion H; subst.
    destruct discs; [|discriminate El].
    simpl. rewrite <- Hdb, <- Hdb2. reflexivity.
Qed.

End MissingFacts.

(** A MISSING_SETTLEMENT discrepancy belongs to a transaction of the
    database and gets the severity [severityByAmount] gives its USD amount;
    the discrepancies emitted are what a successful
    [DetectMissingSettlements] hands to the insert-or-ignore of the
    discrepancy table. *)
Lemma missing_settlement_built {stdlib : StdLib} (w : World) :
  (forall d,
     In d (emitted_missing w) ->
     Discrepancy.Type_ d = DiscrepancyMissingSettlement
     /\ Discrepancy.ActualUSD d = zero
     /\ exists txn,
          In txn (transactions (db w))
          /\ Discrepancy.TransactionID d = Transaction.ID txn
          /\ Discrepancy.ExpectedUSD d = Transaction.USDAmount txn
          /\ Discrepancy.Severity d
             = reconciliation.severityByAmount (Transaction.USDAmount txn))
  /\ (forall n w',
        reconciliation.DetectMissingSettlements w = (Ok n, w') ->
        repository.bulk_insert_loop (emitted_missing w) (discrepancies (db w)) 0
        = (discrepancies (db w'), n)).
Proof.
  split.
  - intros d Hin.
    destruct (emitted_missing_built w d Hin)
      as [txn (Hin' & _ & _ & Ht & Hid & He & Ha & Hs)].
    split; [exact Ht|]. split; [exact Ha|].
    exists txn. auto.
  - intros n w'. apply DetectMissingSettlements_inserts.
Qed.

(** C3: the severity of a missing settlement by USD amount.  The code
    gives HIGH for 500.01, MEDIUM for 500.00 and LOW for 99.99 as claimed,
    but LOW, not MEDIUM, for exactly 100.00: [severityByAmount] tests
    [usdAmount > 100].  In the example database the captured transaction
    of 100.00 USD that nothing settles gets a LOW discrepancy. *)
Theorem severityByAmount_boundaries :
  reconciliation.severityByAmount (dec 50001 2) = SeverityHigh
  /\ reconciliation.severityByAmount (dec 50000 2) = SeverityMedium
  /\ reconciliation.severityByAmount (dec 10000 2) = SeverityLow
  /\ reconciliation.severityByAmount (dec 9999 2) = SeverityLow
  /\ List.map (fun d => (Discrepancy.TransactionID d, Discrepancy.ExpectedUSD d,
                         Discrepancy.Severity d))
              (emitted_missing (stdlib := Example.lib) Example.world_hundred)
     = [("WKL-AFRIPAY-003", dec 10000 2, SeverityLow)].
Proof.
  repeat split; vm_compute; reflexivity.
Qed.

(** ** Amount mismatches *)

(** For a finite positive X and a number Y the two gates of the code are
    the negation of "|Y - X| >= 0.10 and |Y - X| / X > 0.005". *)
Lemma tolerated_beyond_tolerance (X Y : float64) :
  is_finite X = true -> gtb X zero = true -> is_number Y ->
  tolerated X Y = negb (beyond_tolerance X Y).
Proof.
  intros Hfin Hpos Hnum. unfold tolerated, beyond_tolerance.
  assert (Ha : is_nan (abs_diff X Y) = false)
    by (apply Abs_number, sub_number; assumption).
  assert (Hr : is_nan (div (abs_diff X Y) X) = false)
    by (apply div_number; assumption).
  rewrite Hpos. simpl andb at 1.
  rewrite <- (leb_false_gtb _ (dec 5 3) Hr eq_refl).
  rewrite <- (ltb_false_geb _ (dec 10 2) Ha eq_refl).
  destruct (leb _ _), (ltb _ _); reflexivity.
Qed.

Lemma flagged_In (d : DB) (recs : list SettlementRecord.t)
    (txn : Transaction.t) (rec : SettlementRecord.t) :
  In (txn, rec) (flagged d recs) <->
  In rec recs
  /\ linked_transaction d rec = Some txn
  /\ tolerated (Transaction.USDAmount txn) (SettlementRecord.USDGrossAmount rec)
     = false.
Proof.
  unfold flagged. rewrite in_flat_map. split.
  - intros [rec' [Hin Hp]].
    destruct (linked_transaction d rec') as [txn'|] eqn:El; [|destruct Hp].
    destruct (tolerated _ _) eqn:Et; [destruct Hp|].
    destruct Hp as [Hp | []]. inversion Hp; subst. auto.
  - intros (Hin & Hl & Ht). exists rec. split; [exact Hin|].
    rewrite Hl, Ht. left. reflexivity.
Qed.

Lemma flagged_NoDup (d : DB) (recs : list SettlementRecord.t) :
  List.NoDup (List.map SettlementRecord.ID recs) ->
  List.NoDup (List.map (fun p => SettlementRecord.ID (snd p)) (flagged d recs)).
Proof.
  induction recs as [|rec rest IH]; simpl; intros H; [constructor|].
  inversion H as [|? ? Hnotin Hrest]; subst.
  specialize (IH Hrest).
  destruct (linked_transaction d rec) as [txn|]; [|exact IH].
  destruct (tolerated _ _); [exact IH|].
  simpl. constructor; [|exact IH].
  intros Hin. apply Hnotin.
  apply in_map_iff in Hin as [[txn' rec'] [Hid Hin]]. simpl in Hid.
  apply flagged_In in Hin as [Hin _].
  apply in_map_iff. exists rec'. split; assumption.
Qed.

Section MismatchFacts.

Context {stdlib : StdLib}.

Lemma db_call_no_faults (w : World) : no_faults w -> db_call w = (false, w).
Proof.
  unfold no_faults, db_call. destruct w as [d c f e]; simpl.
  intros ->. reflexivity.
Qed.

Lemma GetByID_no_faults (id : string) (w : World) :
  no_faults w ->
  repository.GetByID id w
  = (match List.find (fun t => String.eqb (Transaction.ID t) id)
                     (transactions (db w)) with
     | Some t => Ok t
     | None => Err ErrNoRows
     end, w).
Proof.
  intros Hnf. unfold repository.GetByID, bind.
  rewrite (db_call_no_faults w Hnf). unfold get_db, ret.
  destruct (List.find _ _); reflexivity.
Qed.

Lemma GetMatchedRecords_no_faults (w : World) :
  no_faults w ->
  repository.GetMatchedRecords w = (Ok (matched_records (db w)), w).
Proof.
  intros Hnf. unfold repository.GetMatchedRecords, bind.
  rewrite (db_call_no_faults w Hnf). reflexivity.
Qed.

(** While no repository call fails, the loop of [DetectAmountMismatches]
    builds one discrepancy per pair it does not skip, in order. *)
Lemma mismatch_loop_built (matched : list SettlementRecord.t) :
  forall discs w,
    no_faults w ->
    exists built,
      fst (reconciliation.mismatch_loop matched discs w) = discs ++ built
      /\ Forall2 mismatch_of (flagged (db w) matched) built.
Proof.
  induction matched as [|rec rest IH]; intros discs w Hnf; simpl.
  - exists []. split; [symmetry; apply app_nil_r | constructor].
  - unfold bind at 1. rewrite (GetByID_no_faults _ w Hnf).
    unfold linked_transaction.
    destruct (List.find _ _) as [txn|]; [|apply IH, Hnf].
    unfold tolerated, abs_diff.
    destruct (gtb (Transaction.USDAmount txn) zero && _); simpl orb;
      [apply IH, Hnf|].
    destruct (ltb _ (dec 10 2)); [apply IH, Hnf|].
    unfold bind at 1, time_Now at 1.
    match goal with
    | |- context [reconciliation.mismatch_loop rest (discs ++ [?d]) ?w'] =>
        destruct (IH (discs ++ [d]) w' Hnf) as [built [Hb HF]];
        exists (d :: built)
    end.
    split.
    + rewrite Hb, <- app_assoc. reflexivity.
    + simpl. constructor; [|exact HF]. repeat split.
Qed.

Lemma emitted_mismatches_built (w : World) :
  no_faults w ->
  Forall2 mismatch_of (flagged (db w) (matched_records (db w)))
          (emitted_mismatches w).
Proof.
  intros Hnf. unfold emitted_mismatches.
  rewrite (GetMatchedRecords_no_faults w Hnf).
  destruct (mismatch_loop_built (matched_records (db w)) [] w Hnf)
    as [built [Hb HF]].
  rewrite Hb. exact HF.
Qed.

Lemma mismatch_loop_db (matched : list SettlementRecord.t) :
  forall discs w,
    db (snd (reconciliation.mismatch_loop matched discs w)) = db w.
Proof.
  induction matched as [|rec rest IH]; intros discs w; simpl; [reflexivity|].
  unfold bind at 1.
  assert (Hg : db (snd (repository.GetByID
                          (SettlementRecord.WakalaTransactionID rec) w)) = db w).
  { unfold repository.GetByID. run_call; try reflexivity;
      destruct (List.find _ _); reflexivity. }
  destruct (repository.GetByID _ w) as [[txn|e] w1]; simpl in Hg;
    [|rewrite IH; exact Hg].
  destruct (_ && _); [rewrite IH; exact Hg|].
  destruct (ltb _ _); [rewrite IH; exact Hg|].
  unfold bind at 1, time_Now at 1. rewrite IH. exact Hg.
Qed.

Lemma DetectAmountMismatches_inserts (w w' : World) (n : int) :
  reconciliation.DetectAmountMismatches w = (Ok n, w') ->
  repository.bulk_insert_loop (emitted_mismatches w) (discrepancies (db w)) 0
  = (discrepancies (db w'), n).
Proof.
  unfold reconciliation.DetectAmountMismatches, emitted_mismatches.
  unfold bind at 1.
  assert (Hd1 : db (snd (repository.GetMatchedRecords w)) = db w).
  { unfold repository.GetMatchedRecords. run_call; reflexivity. }
  destruct (repository.GetMatchedRecords w) as [[matched|e] w1]; [|discriminate].
  simpl in Hd1. unfold bind at 1.
  pose proof (mismatch_loop_db matched [] w1) as Hd2.
  destruct (reconciliation.mismatch_loop matched [] w1) as [discs w2].
  simpl in *.
  destruct (0 <? len discs) eqn:El.
  - unfold bind at 1.
    destruct (repository.BulkInsert discs w2) as [[k|e] w3] eqn:E3; [|discriminate].
    unfold ret. intros H. inversion H; subst.
    apply BulkInsert_inv in E3. rewrite <- Hd1, <- Hd2. exact E3.
  - unfold ret. intros H. inversion H; subst.
    destruct discs; [|discriminate El].
    simpl. rewrite <- Hd1, <- Hd2. reflexivity.
Qed.

End MismatchFacts.

(** ** What a detector run adds to the table *)

Lemma append_inj_l (prefix a b : string) : prefix +:+ a = prefix +:+ b -> a = b.
Proof.
  induction prefix as [|c prefix IH]; simpl; intros H; [exact H|].
  inversion H. auto.
Qed.

Lemma for_record_app (id : string) (l1 l2 : list Discrepancy.t) :
  for_record id (l1 ++ l2) = for_record id l1 ++ for_record id l2.
Proof. unfold for_record. apply List.filter_app. Qed.

Lemma filter_swap {A : Type} (p q : A -> bool) (l : list A) :
  List.filter p (List.filter q l) = List.filter q (List.filter p l).
Proof.
  induction l as [|a l IH]; simpl; [reflexivity|].
  destruct (p a) eqn:Ep, (q a) eqn:Eq; simpl; rewrite ?Ep, ?Eq, IH; reflexivity.
Qed.

(** With ids that are distinct and new to the table, the insert-or-ignore
    of [BulkInsert] appends every row that has no NULL, in order. *)
Lemma bulk_insert_loop_fresh (discs : list Discrepancy.t) :
  forall table inserted,
    List.NoDup (List.map Discrepancy.ID discs) ->
    (forall d t, In d discs -> In t table -> Discrepancy.ID t <> Discrepancy.ID d) ->
    fst (repository.bulk_insert_loop discs table inserted)
    = table ++ List.filter (fun d => negb (repository.discrepancy_has_null d)) discs.
Proof.
  induction discs as [|d rest IH]; intros table inserted Hnd Hnew; simpl.
  - symmetry. apply app_nil_r.
  - inversion Hnd as [|? ? Hnotin Hrest]; subst.
    destruct (repository.discrepancy_has_null d) eqn:En; simpl.
    + apply IH; [exact Hrest|].
      intros d0 t Hd0 Ht. apply Hnew; [right; exact Hd0 | exact Ht].
    + assert (Ex : existsb (fun r => String.eqb (Discrepancy.ID r) (Discrepancy.ID d))
                           table = false).
      { destruct (existsb _ table) eqn:E; [|reflexivity].
        apply existsb_exists in E as [t [Ht He]]. apply String.eqb_eq in He.
        exfalso. exact (Hnew d t (or_introl eq_refl) Ht He). }
      rewrite Ex, IH; [rewrite <- app_assoc; reflexivity | exact Hrest|].
      intros d0 t Hd0 Ht He. apply in_app_or in Ht as [Ht | [<- | []]].
      * exact (Hnew d0 t (or_intror Hd0) Ht He).
      * apply Hnotin. rewrite He. apply in_map, Hd0.
Qed.

(** The ids of rows built one per element, each a prefix and the key of
    its element, are distinct when the keys are. *)
Lemma built_ids_NoDup {A : Type} (key : A -> string) (prefix : string)
    (R : A -> Discrepancy.t -> Prop) (l : list A) (built : list Discrepancy.t) :
  (forall a d, R a d -> Discrepancy.ID d = prefix +:+ key a) ->
  Forall2 R l built ->
  List.NoDup (List.map key l) ->
  List.NoDup (List.map Discrepancy.ID built)
  /\ forall d, In d built -> exists suffix, Discrepancy.ID d = prefix +:+ suffix.
Proof.
  intros Hid HF. induction HF as [|a d l built Had Hrest IH]; simpl; intros Hnd.
  - split; [constructor | intros d []].
  - inversion Hnd as [|? ? Hnotin Hnd']; subst.
    destruct (IH Hnd') as [Hnd2 Hpre]. split.
    + constructor; [|exact Hnd2].
      intros Hin. apply in_map_iff in Hin as [d' [He Hd']].
      destruct (Forall2_In_r _ _ _ d' Hrest Hd') as [a' [Ha' Hr']].
      rewrite (Hid a d Had), (Hid a' d' Hr') in He.
      apply append_inj_l in He. apply Hnotin. rewrite <- He. apply in_map, Ha'.
    + intros d0 [<- | Hin]; [exists (key a); apply Hid, Had | apply Hpre, Hin].
Qed.

Section RunFacts.

Context {stdlib : StdLib}.

Lemma BulkInsert_no_faults (discs : list Discrepancy.t) (w : World) :
  no_faults w -> exists n w', repository.BulkInsert discs w = (Ok n, w').
Proof.
  intros Hnf. unfold repository.BulkInsert, bind.
  rewrite (db_call_no_faults w Hnf). unfold get_db.
  destruct (repository.bulk_insert_loop _ _ _) as [table k]. eauto.
Qed.

Lemma orphaned_loop_faults (unmatched : list SettlementRecord.t) :
  forall discs w,
    faults (snd (reconciliation.orphaned_loop unmatched discs w)) = faults w.
Proof.
  induction unmatched as [|rec rest IH]; intros discs w; simpl; [reflexivity|].
  unfold bind at 1, time_Now at 1. rewrite IH. reflexivity.
Qed.

Lemma mismatch_loop_faults (matched : list SettlementRecord.t) :
  forall discs w,
    no_faults w -> no_faults (snd (reconciliation.mismatch_loop matched discs w)).
Proof.
  induction matched as [|rec rest IH]; intros discs w Hnf; simpl; [exact Hnf|].
  unfold bind at 1. rewrite (GetByID_no_faults _ w Hnf).
  destruct (List.find _ _) as [txn|]; [|apply IH, Hnf].
  destruct (_ && _); [apply IH, Hnf|].
  destruct (ltb _ _); [apply IH, Hnf|].
  unfold bind at 1, time_Now at 1. apply IH. exact Hnf.
Qed.

Lemma DetectOrphanedSettlements_answers (w : World) :
  no_faults w ->
  exists n w', reconciliation.DetectOrphanedSettlements w = (Ok n, w').
Proof.
  intros Hnf. unfold reconciliation.DetectOrphanedSettlements.
  unfold bind at 1.
  rewrite (GetUnmatchedRecords_run w) by (unfold next_call_succeeds; rewrite Hnf; reflexivity).
  rewrite (db_call_no_faults w Hnf). simpl snd.
  unfold bind at 1.
  pose proof (orphaned_loop_faults (unmatched_records (db w)) [] w) as Hf.
  destruct (reconciliation.orphaned_loop _ [] w) as [discs w2]. simpl in Hf.
  destruct (0 <? len discs); [|unfold ret; eauto].
  unfold bind at 1.
  destruct (BulkInsert_no_faults discs w2) as (n & w3 & Hb);
    [unfold no_faults; rewrite Hf; exact Hnf|].
  rewrite Hb. unfold ret. eauto.
Qed.

Lemma DetectAmountMismatches_answers (w : World) :
  no_faults w ->
  exists n w', reconciliation.DetectAmountMismatches w = (Ok n, w').
Proof.
  intros Hnf. unfold reconciliation.DetectAmountMismatches.
  unfold bind at 1. rewrite (GetMatchedRecords_no_faults w Hnf).
  unfold bind at 1.
  pose proof (mismatch_loop_faults (matched_records (db w)) [] w Hnf) as Hf.
  destruct (reconciliation.mismatch_loop _ [] w) as [discs w2]. simpl in Hf.
  destruct (0 <? len discs); [|unfold ret; eauto].
  unfold bind at 1.
  destruct (BulkInsert_no_faults discs w2 Hf) as (n & w3 & Hb).
  rewrite Hb. unfold ret. eauto.
Qed.

Lemma orphan_row_null (rec : SettlementRecord.t) (d : Discrepancy.t) :
  orphan_row rec d ->
  repository.discrepancy_has_null d = is_nan (SettlementRecord.USDNetAmount rec).
Proof.
  intros [(_ & _ & _ & _ & _ & He & Ha) Hd].
  unfold repository.discrepancy_has_null. rewrite He, Ha, Hd.
  destruct (is_nan (SettlementRecord.USDNetAmount rec)); reflexivity.
Qed.

(** What the records of one id get from the list the loop of
    [DetectOrphanedSettlements] builds. *)
Lemma emitted_orphans_for_record (w : World) (r : settlement_row) :
  next_call_succeeds w ->
  unique_record_ids (db w) ->
  In r (settlement_records (db w)) ->
  (wakala_transaction_id r = None ->
   exists d,
     for_record (SettlementRecord.ID (row_fields r)) (emitted_orphans w) = [d]
     /\ orphan_row (repository.scanSettlementRecord r) d)
  /\ (wakala_transaction_id r <> None ->
      for_record (SettlementRecord.ID (row_fields r)) (emitted_orphans w) = []).
Proof.
  intros Hcall Hunique Hin.
  pose proof (emitted_orphans_rows w Hcall) as HF.
  assert (Hkey : forall a d, orphan_row a d ->
                             Discrepancy.SettlementID d = SettlementRecord.ID a)
    by (intros a d Ho; apply Ho).
  assert (Hnd : List.NoDup (List.map SettlementRecord.ID (unmatched_records (db w)))).
  { unfold unmatched_records. rewrite List.map_map.
    apply (NoDup_map_filter (fun r => SettlementRecord.ID (row_fields r))).
    exact Hunique. }
  split.
  - intros Hnone.
    assert (Hu : In (repository.scanSettlementRecord r) (unmatched_records (db w))).
    { unfold unmatched_records. apply in_map, filter_In.
      split; [exact Hin | rewrite Hnone; reflexivity]. }
    exact (for_record_one SettlementRecord.ID orphan_row Hkey _ _ _ HF Hnd Hu).
  - intros Hsome.
    apply (for_record_none SettlementRecord.ID orphan_row Hkey _ _ _ HF).
    intros Hid. apply in_map_iff in Hid as [u [Hku Hu]].
    unfold unmatched_records in Hu.
    apply in_map_iff in Hu as [r' [<- Hr']].
    apply filter_In in Hr' as [Hin' Hnull].
    assert (r' = r).
    { apply (NoDup_map_inj (fun r => SettlementRecord.ID (row_fields r))
               (settlement_records (db w))); assumption. }
    subst r'. destruct (wakala_transaction_id r); [discriminate | contradiction].
Qed.

(** The table after a successful [DetectOrphanedSettlements]: the rows
    before, then the rows built that have no NULL. *)
Lemma DetectOrphanedSettlements_table (w w' : World) (n : int) :
  next_call_succeeds w ->
  unique_record_ids (db w) ->
  no_id_with "DISC-OS-" (discrepancies (db w)) ->
  reconciliation.DetectOrphanedSettlements w = (Ok n, w') ->
  discrepancies (db w')
  = discrepancies (db w)
    ++ List.filter (fun d => negb (repository.discrepancy_has_null d))
                   (emitted_orphans w).
Proof.
  intros Hcall Hunique Hfree Hrun.
  apply DetectOrphanedSettlements_inserts in Hrun.
  assert (Hnd : List.NoDup (List.map SettlementRecord.ID (unmatched_records (db w)))).
  { unfold unmatched_records. rewrite List.map_map.
    apply (NoDup_map_filter (fun r => SettlementRecord.ID (row_fields r))).
    exact Hunique. }
  destruct (built_ids_NoDup SettlementRecord.ID "DISC-OS-" orphan_row
              (unmatched_records (db w)) (emitted_orphans w))
    as [Hids Hpre]; [intros a d Ho; apply Ho | apply emitted_orphans_rows, Hcall
                     | exact Hnd|].
  pose proof (bulk_insert_loop_fresh (emitted_orphans w) (discrepancies (db w)) 0
                Hids) as Hfresh.
  rewrite Hrun in Hfresh. simpl in Hfresh. apply Hfresh.
  intros d t Hd Ht He. destruct (Hpre d Hd) as [suffix Hs].
  apply (Hfree t suffix Ht). congruence.
Qed.

(** What the record of one id gets from the list the loop of
    [DetectAmountMismatches] builds. *)
Lemma emitted_mismatches_for_record (w : World) (r : settlement_row)
    (txn : Transaction.t) :
  no_faults w ->
  unique_record_ids (db w) ->
  In r (settlement_records (db w)) ->
  wakala_transaction_id r <> None ->
  linked_transaction (db w) (repository.scanSettlementRecord r) = Some txn ->
  let X := Transaction.USDAmount txn in
  let Y := SettlementRecord.USDGrossAmount (row_fields r) in
  let emitted :=
    for_record (SettlementRecord.ID (row_fields r)) (emitted_mismatches w) in
  is_finite X = true -> gtb X zero = true -> is_number Y ->
  (beyond_tolerance X Y = true ->
   exists d, emitted = [d] /\ mismatch_of (txn, repository.scanSettlementRecord r) d)
  /\ (beyond_tolerance X Y = false -> emitted = []).
Proof.
  intros Hnf Hunique Hin Hlinked Htxn X Y emitted Hfin Hpos Hnum.
  set (rec := repository.scanSettlementRecord r) in *.
  pose proof (emitted_mismatches_built w Hnf) as HF.
  pose proof (tolerated_beyond_tolerance X Y Hfin Hpos Hnum) as Htol.
  assert (Hkey : forall p d, mismatch_of p d ->
                   Discrepancy.SettlementID d = SettlementRecord.ID (snd p))
    by (intros p d Hm; apply Hm).
  assert (Hrec : In rec (matched_records (db w))).
  { unfold matched_records. apply in_map, filter_In. split; [exact Hin|].
    destruct (wakala_transaction_id r); [reflexivity | contradiction]. }
  assert (Hnd : List.NoDup (List.map SettlementRecord.ID (matched_records (db w)))).
  { unfold matched_records. rewrite List.map_map.
    apply (NoDup_map_filter (fun r => SettlementRecord.ID (row_fields r))).
    exact Hunique. }
  split.
  - intros Hb.
    assert (Hfl : In (txn, rec) (flagged (db w) (matched_records (db w)))).
    { apply flagged_In. split; [exact Hrec|]. split; [exact Htxn|].
      change (tolerated X Y = false). rewrite Htol, Hb. reflexivity. }
    exact (for_record_one (fun p => SettlementRecord.ID (snd p)) mismatch_of Hkey
             _ _ (txn, rec) HF (flagged_NoDup _ _ Hnd) Hfl).
  - intros Hb.
    apply (for_record_none (fun p => SettlementRecord.ID (snd p)) mismatch_of Hkey
             _ _ _ HF).
    intros Hid. apply in_map_iff in Hid as [[txn' rec'] [Hid Hfl]]. simpl in Hid.
    apply flagged_In in Hfl as (Hin' & Hl' & Ht').
    assert (rec' = rec).
    { apply (NoDup_map_inj SettlementRecord.ID (matched_records (db w)));
        assumption. }
    subst rec'. rewrite Htxn in Hl'. inversion Hl'; subst txn'.
    change (tolerated X Y = false) in Ht'. rewrite Htol, Hb in Ht'.
    discriminate.
Qed.

(** The table after a successful [DetectAmountMismatches] when no call
    fails: the rows before, then the rows built that have no NULL. *)
Lemma DetectAmountMismatches_table (w w' : World) (n : int) :
  no_faults w ->
  unique_record_ids (db w) ->
  no_id_with "DISC-AM-" (discrepancies (db w)) ->
  reconciliation.DetectAmountMismatches w = (Ok n, w') ->
  discrepancies (db w')
  = discrepancies (db w)
    ++ List.filter (fun d => negb (repository.discrepancy_has_null d))
                   (emitted_mismatches w).
Proof.
  intros Hnf Hunique Hfree Hrun.
  apply DetectAmountMismatches_inserts in Hrun.
  assert (Hnd : List.NoDup (List.map SettlementRecord.ID (matched_records (db w)))).
  { unfold matched_records. rewrite List.map_map.
    apply (NoDup_map_filter (fun r => SettlementRecord.ID (row_fields r))).
    exact Hunique. }
  destruct (built_ids_NoDup (fun p => SettlementRecord.ID (snd p)) "DISC-AM-"
              mismatch_of (flagged (db w) (matched_records (db w)))
              (emitted_mismatches w))
    as [Hids Hpre]; [intros a d Hm; apply Hm | apply emitted_mismatches_built, Hnf
                     | apply flagged_NoDup, Hnd|].
  pose proof (bulk_insert_loop_fresh (emitted_mismatches w) (discrepancies (db w)) 0
                Hids) as Hfresh.
  rewrite Hrun in Hfresh. simpl in Hfresh. apply Hfresh.
  intros d t Hd Ht He. destruct (Hpre d Hd) as [suffix Hs].
  apply (Hfree t suffix Ht). congruence.
Qed.

End RunFacts.

Lemma for_record_stored (id : string) (table emitted : list Discrepancy.t) :
  for_record id
    (table ++ List.filter (fun d => negb (repository.discrepancy_has_null d)) emitted)
  = for_record id table
    ++ List.filter (fun d => negb (repository.discrepancy_has_null d))
                   (for_record id emitted).
Proof.
  rewrite for_record_app. unfold for_record. rewrite filter_swap. reflexivity.
Qed.

(** C1: for a matched settlement record whose linked transaction has the
    USD amount X > 0 and whose gross USD amount is Y (X finite, Y a
    number, every repository call answering, record ids unique and no id
    "DISC-AM-..." in the table yet), [DetectAmountMismatches] succeeds
    and adds a discrepancy for the record to the table if and only if
    |Y - X| >= 0.10 and |Y - X| / X > 0.005, in float64 arithmetic.  When
    it does it adds exactly one, of type AMOUNT_MISMATCH, with
    [expected_usd = X], [actual_usd = Y] and [difference_usd = Y - X];
    otherwise the discrepancies of the record are what they were. *)
Theorem amount_mismatch_emitted {stdlib : StdLib} (w : World) (r : settlement_row)
    (txn : Transaction.t) :
  no_faults w ->
  unique_record_ids (db w) ->
  no_id_with "DISC-AM-" (discrepancies (db w)) ->
  In r (settlement_records (db w)) ->
  wakala_transaction_id r <> None ->
  linked_transaction (db w) (repository.scanSettlementRecord r) = Some txn ->
  let X := Transaction.USDAmount txn in
  let Y := SettlementRecord.USDGrossAmount (row_fields r) in
  let id := SettlementRecord.ID (row_fields r) in
  is_finite X = true -> gtb X zero = true -> is_number Y ->
  exists n w',
    reconciliation.DetectAmountMismatches w = (Ok n, w')
    /\ (for_record id (discrepancies (db w')) <> for_record id (discrepancies (db w))
        <-> beyond_tolerance X Y = true)
    /\ (beyond_tolerance X Y = true ->
        exists d,
          for_record id (discrepancies (db w'))
          = for_record id (discrepancies (db w)) ++ [d]
          /\ Discrepancy.Type_ d = DiscrepancyAmountMismatch
          /\ Discrepancy.ExpectedUSD d = X
          /\ Discrepancy.ActualUSD d = Y
          /\ Discrepancy.DifferenceUSD d = sub Y X
          /\ Discrepancy.Severity d
             = reconciliation.mismatchSeverity (div (abs_diff X Y) X) (abs_diff X Y))
    /\ (beyond_tolerance X Y = false ->
        for_record id (discrepancies (db w')) = for_record id (discrepancies (db w))).
Proof.
  intros Hnf Hunique Hfree Hin Hlinked Htxn X Y id Hfin Hpos Hnum.
  destruct (DetectAmountMismatches_answers w Hnf) as (n & w' & Hrun).
  exists n, w'. split; [exact Hrun|].
  pose proof (DetectAmountMismatches_table w w' n Hnf Hunique Hfree Hrun) as Htable.
  destruct (emitted_mismatches_for_record w r txn Hnf Hunique Hin Hlinked Htxn
              Hfin Hpos Hnum) as [Hyes Hno].
  fold X Y id in Hyes, Hno.
  assert (Hadds : beyond_tolerance X Y = true ->
            exists d,
              for_record id (discrepancies (db w'))
              = for_record id (discrepancies (db w)) ++ [d]
              /\ mismatch_of (txn, repository.scanSettlementRecord r) d).
  { intros Hb. destruct (Hyes Hb) as [d [Hone Hm]]. exists d. split; [|exact Hm].
    rewrite Htable, for_record_stored. fold id. rewrite Hone. simpl.
    destruct Hm as (_ & _ & _ & _ & He & Ha & Hd & _). simpl in He, Ha, Hd.
    assert (Hnull : repository.discrepancy_has_null d = false).
    { unfold repository.discrepancy_has_null. rewrite He, Ha, Hd.
      fold X Y. rewrite (sub_number Y X Hnum Hfin), Hnum.
      destruct X; try discriminate Hfin; reflexivity. }
    rewrite Hnull. reflexivity. }
  assert (Hkeeps : beyond_tolerance X Y = false ->
            for_record id (discrepancies (db w'))
            = for_record id (discrepancies (db w))).
  { intros Hb. rewrite Htable, for_record_stored. fold id. rewrite (Hno Hb).
    simpl. apply app_nil_r. }
  split; [|split; [|exact Hkeeps]].
  - split.
    + intros Hne. destruct (beyond_tolerance X Y); [reflexivity|].
      exfalso. apply Hne, Hkeeps. reflexivity.
    + intros Hb Heq. destruct (Hadds Hb) as [d [Hone _]].
      rewrite Hone in Heq.
      apply (f_equal (@length _)) in Heq. rewrite length_app in Heq.
      simpl in Heq. lia.
  - intros Hb. destruct (Hadds Hb) as [d [Hone Hm]].
    exists d. split; [exact Hone|].
    destruct Hm as (_ & Ht & _ & _ & He & Ha & Hd & Hs). auto.
Qed.

(** In the matched example world the record of 368.12 USD gross against a
    transaction of 353.72 USD is beyond both gates: the run of
    [DetectAmountMismatches] leaves one AMOUNT_MISMATCH of severity HIGH
    for it in the table. *)
Lemma amount_mismatch_emitted_witness :
  beyond_tolerance (dec 35372 2) (SettlementRecord.USDGrossAmount Example.rec1) = true
  /\ exists n w',
       reconciliation.DetectAmountMismatches (stdlib := Example.lib)
                                             Example.world_matched = (Ok n, w')
       /\ exists d,
            for_record "SR-AP-AP-TXN-001-2" (discrepancies (db w')) = [d]
            /\ Discrepancy.Type_ d = DiscrepancyAmountMismatch
            /\ Discrepancy.ExpectedUSD d = dec 35372 2
            /\ Discrepancy.ActualUSD d = SettlementRecord.USDGrossAmount Example.rec1
            /\ Discrepancy.DifferenceUSD d
               = sub (SettlementRecord.USDGrossAmount Example.rec1) (dec 35372 2)
            /\ Discrepancy.Severity d = SeverityHigh.
Proof.
  assert (Hb : beyond_tolerance (dec 35372 2)
                 (SettlementRecord.USDGrossAmount Example.rec1) = true)
    by (vm_compute; reflexivity).
  assert (Hin : In Example.row1_matched (settlement_records (db Example.world_matched)))
    by (left; vm_compute; reflexivity).
  assert (Hl : linked_transaction (db Example.world_matched)
                 (repository.scanSettlementRecord Example.row1_matched)
               = Some Example.txn1_settled)
    by (vm_compute; reflexivity).
  assert (Hw : wakala_transaction_id Example.row1_matched <> None) by discriminate.
  assert (Hfree : no_id_with "DISC-AM-" (discrepancies (db Example.world_matched)))
    by (intros d suffix []).
  split; [exact Hb|].
  destruct (amount_mismatch_emitted (stdlib := Example.lib)
              Example.world_matched Example.row1_matched
              Example.txn1_settled eq_refl example_unique_record_ids Hfree
              Hin Hw Hl eq_refl eq_refl eq_refl)
    as (n & w' & Hrun & _ & Hyes & _).
  exists n, w'. split; [exact Hrun|].
  destruct (Hyes Hb) as (d & H1 & H2 & H3 & H4 & H5 & H6).
  exists d. split; [exact H1|]. repeat (split; [assumption|]).
  rewrite H6. vm_compute. reflexivity.
Defined.

(** C8: with every repository call answering, record ids unique and no id
    "DISC-OS-..." in the table yet, [DetectOrphanedSettlements] succeeds
    and adds to the table, for every settlement record without a
    [wakala_transaction_id] (its [usd_net_amount] a number, as the column
    requires), exactly one discrepancy, of type ORPHANED_SETTLEMENT,
    severity HIGH, [expected_usd = 0] and [actual_usd] its
    [usd_net_amount]; for a matched record it adds none. *)
Theorem orphaned_settlements_emitted {stdlib : StdLib} (w : World)
    (r : settlement_row) :
  no_faults w ->
  unique_record_ids (db w) ->
  no_id_with "DISC-OS-" (discrepancies (db w)) ->
  In r (settlement_records (db w)) ->
  let id := SettlementRecord.ID (row_fields r) in
  exists n w',
    reconciliation.DetectOrphanedSettlements w = (Ok n, w')
    /\ (wakala_transaction_id r = None ->
        is_number (SettlementRecord.USDNetAmount (row_fields r)) ->
        exists d,
          for_record id (discrepancies (db w'))
          = for_record id (discrepancies (db w)) ++ [d]
          /\ Discrepancy.ID d = "DISC-OS-" +:+ id
          /\ Discrepancy.Type_ d = DiscrepancyOrphaned
          /\ Discrepancy.Severity d = SeverityHigh
          /\ Discrepancy.ExpectedUSD d = zero
          /\ Discrepancy.ActualUSD d = SettlementRecord.USDNetAmount (row_fields r))
    /\ (wakala_transaction_id r <> None ->
        for_record id (discrepancies (db w')) = for_record id (discrepancies (db w))).
Proof.
  intros Hnf Hunique Hfree Hin id.
  assert (Hcall : next_call_succeeds w)
    by (unfold next_call_succeeds; rewrite Hnf; reflexivity).
  destruct (DetectOrphanedSettlements_answers w Hnf) as (n & w' & Hrun).
  exists n, w'. split; [exact Hrun|].
  pose proof (DetectOrphanedSettlements_table w w' n Hcall Hunique Hfree Hrun)
    as Htable.
  destruct (emitted_orphans_for_record w r Hcall Hunique Hin) as [Hyes Hno].
  fold id in Hyes, Hno.
  split.
  - intros Hnone Hnum. destruct (Hyes Hnone) as [d [Hone Ho]].
    exists d. split.
    + rewrite Htable, for_record_stored. fold id. rewrite Hone. simpl.
      rewrite (orphan_row_null _ d Ho). simpl.
      unfold is_number in Hnum. simpl. rewrite Hnum. reflexivity.
    + destruct Ho as [(Hid & Ht & _ & _ & Hs & He & Ha) _]. auto.
  - intros Hsome. rewrite Htable, for_record_stored. fold id.
    rewrite (Hno Hsome). simpl. apply app_nil_r.
Qed.

(** In the matched example world the run of [DetectOrphanedSettlements]
    leaves one HIGH orphan of its net amount for the unlinked record of
    the unknown reference and none for the linked one. *)
Lemma orphaned_settlements_emitted_witness :
  (exists n w',
     reconciliation.DetectOrphanedSettlements (stdlib := Example.lib)
                                                Example.world_matched = (Ok n, w')
     /\ exists d,
          for_record "SR-AP-FAKE-AP-001-3" (discrepancies (db w')) = [d]
          /\ Discrepancy.Type_ d = DiscrepancyOrphaned
          /\ Discrepancy.Severity d = SeverityHigh
          /\ Discrepancy.ExpectedUSD d = zero
          /\ Discrepancy.ActualUSD d = SettlementRecord.USDNetAmount Example.rec2)
  /\ (exists n w',
        reconciliation.DetectOrphanedSettlements (stdlib := Example.lib)
                                                   Example.world_matched = (Ok n, w')
        /\ for_record "SR-AP-AP-TXN-001-2" (discrepancies (db w')) = []).
Proof.
  assert (Hfree : no_id_with "DISC-OS-" (discrepancies (db Example.world_matched)))
    by (intros d suffix []).
  split.
  - destruct (orphaned_settlements_emitted (stdlib := Example.lib)
                Example.world_matched Example.row2_unmatched
                eq_refl example_unique_record_ids Hfree)
      as (n & w' & Hrun & Hyes & _);
      [right; left; vm_compute; reflexivity|].
    exists n, w'. split; [exact Hrun|].
    destruct (Hyes eq_refl eq_refl) as (d & H1 & _ & H2 & H3 & H4 & H5).
    exists d. auto.
  - destruct (orphaned_settlements_emitted (stdlib := Example.lib)
                Example.world_matched Example.row1_matched
                eq_refl example_unique_record_ids Hfree)
      as (n & w' & Hrun & _ & Hno);
      [left; vm_compute; reflexivity|].
    exists n, w'. split; [exact Hrun|].
    apply Hno. discriminate.
Defined.

(** ** Full reconciliation *)

Lemma bulk_insert_loop_count (discs : list Discrepancy.t) :
  forall table inserted table' inserted',
    repository.bulk_insert_loop discs table inserted = (table', inserted') ->
    0 <= inserted -> inserted + len discs < 2 ^ 63 ->
    inserted <= inserted' <= inserted + len discs.
Proof.
  induction discs as [|d rest IH]; intros table inserted table' inserted' H H0 Hb.
  - simpl in H. inversion H; subst. unfold len. simpl. lia.
  - simpl in H. change (len (d :: rest)) with (Z.of_nat (S (length rest))) in *.
    pose proof (len_nonneg rest) as Hr. unfold len in *.
    destruct (repository.discrepancy_has_null d || existsb _ table).
    + rewrite int_add_small in H by lia. rewrite Z.add_0_r in H.
      apply IH in H; unfold len in *; lia.
    + rewrite int_add_small in H by lia.
      apply IH in H; unfold len in *; lia.
Qed.

Lemma Forall2_len {A B : Type} (R : A -> B -> Prop) (l : list A) (l' : list B) :
  Forall2 R l l' -> len l' = len l.
Proof.
  unfold len. induction 1; simpl; [reflexivity | lia].
Qed.

Lemma len_filter {A : Type} (p : A -> bool) (l : list A) :
  len (List.filter p l) <= len l.
Proof.
  unfold len. induction l as [|a l IH]; simpl; [lia|].
  destruct (p a); simpl; lia.
Qed.

Lemma len_map {A B : Type} (f : A -> B) (l : list A) : len (List.map f l) = len l.
Proof. unfold len. rewrite length_map. reflexivity. Qed.

Lemma len_order_by_created {stdlib : StdLib} (l : list Transaction.t) :
  len (repository.order_by_created l) = len l.
Proof.
  assert (Hins : forall t l, len (repository.insert_by_created t l) = len l + 1).
  { intros t l0. unfold len. induction l0 as [|u l0 IH]; simpl; [lia|].
    destruct (String.leb _ _); simpl; lia. }
  unfold repository.order_by_created.
  induction l as [|t l IH]; simpl; [reflexivity|].
  rewrite Hins, IH. unfold len. simpl. lia.
Qed.

Section Counts.

Context {stdlib : StdLib}.

Lemma emitted_missing_len (w : World) :
  len (emitted_missing w) <= len (transactions (db w)).
Proof.
  unfold emitted_missing, time_Now.
  pose proof (settlementWindowHours_world
                {| db := db w; clock := clock w + 1; faults := faults w;
                   env_SETTLEMENT_WINDOW_HOURS := env_SETTLEMENT_WINDOW_HOURS w |})
    as Hw.
  destruct (reconciliation.settlementWindowHours _) as [window w2].
  simpl in Hw. subst w2.
  destruct (repository.GetCapturedWithoutSettlement _ _) as [[txns|e] w3] eqn:E;
    [|apply len_nonneg].
  assert (Hl : len txns <= len (transactions (db w))).
  { revert E. unfold repository.GetCapturedWithoutSettlement, bind.
    pose proof (db_call_world
                  {| db := db w; clock := clock w + 1; faults := faults w;
                     env_SETTLEMENT_WINDOW_HOURS := env_SETTLEMENT_WINDOW_HOURS w |})
      as [Hdb _].
    destruct (db_call _) as [failed wa]; simpl in Hdb.
    destruct failed; unfold ret, get_db; [discriminate|].
    intros E. inversion E; subst.
    rewrite len_order_by_created, Hdb. apply len_filter. }
  destruct (missing_loop_built txns [] w3) as [[built [Hb HF]] _].
  rewrite Hb. simpl. rewrite (Forall2_len _ _ _ HF). exact Hl.
Qed.

Lemma mismatch_loop_len (matched : list SettlementRecord.t) :
  forall discs w,
    len (fst (reconciliation.mismatch_loop matched discs w))
    <= len discs + len matched.
Proof.
  induction matched as [|rec rest IH]; intros discs w; simpl.
  - unfold len. simpl. lia.
  - change (len (rec :: rest)) with (Z.of_nat (S (length rest))).
    assert (Hs : Z.of_nat (S (length rest)) = len rest + 1) by (unfold len; lia).
    rewrite Hs. unfold bind at 1.
    destruct (repository.GetByID _ w) as [[txn|e] w1];
      [|specialize (IH discs w1); lia].
    destruct (_ && _); [specialize (IH discs w1); lia|].
    destruct (ltb _ _); [specialize (IH discs w1); lia|].
    unfold bind at 1, time_Now at 1.
    match goal with
    | |- context [reconciliation.mismatch_loop rest (discs ++ [?d]) ?w'] =>
        specialize (IH (discs ++ [d]) w'); rewrite len_app in IH;
        change (len [d]) with 1 in IH
    end.
    lia.
Qed.

Lemma emitted_mismatches_len (w : World) :
  len (emitted_mismatches w) <= len (settlement_records (db w)).
Proof.
  unfold emitted_mismatches.
  destruct (repository.GetMatchedRecords w) as [[matched|e] w1] eqn:E;
    [|apply len_nonneg].
  assert (Hl : len matched <= len (settlement_records (db w))).
  { revert E. unfold repository.GetMatchedRecords, bind.
    pose proof (db_call_world w) as [Hdb _].
    destruct (db_call w) as [failed wa]; simpl in Hdb.
    destruct failed; unfold ret, get_db; [discriminate|].
    intros E. inversion E; subst.
    rewrite len_map, Hdb. apply len_filter. }
  pose proof (mismatch_loop_len matched [] w1) as H.
  change (len []) with 0 in H. lia.
Qed.

Lemma emitted_orphans_len (w : World) :
  len (emitted_orphans w) <= len (settlement_records (db w)).
Proof.
  unfold emitted_orphans.
  destruct (repository.GetUnmatchedRecords w) as [[unmatched|e] w1] eqn:E;
    [|apply len_nonneg].
  assert (Hl : len unmatched <= len (settlement_records (db w))).
  { revert E. unfold repository.GetUnmatchedRecords, bind.
    pose proof (db_call_world w) as [Hdb _].
    destruct (db_call w) as [failed wa]; simpl in Hdb.
    destruct failed; unfold ret, get_db; [discriminate|].
    intros E. inversion E; subst.
    rewrite len_map, Hdb. apply len_filter. }
  destruct (orphaned_loop_rows unmatched [] w1) as [built [Hb HF]].
  rewrite Hb. simpl. rewrite (Forall2_len _ _ _ HF). exact Hl.
Qed.

(** The count a detector returns is between 0 and the size of the table
    it reads. *)
Lemma detector_count (emitted table : list Discrepancy.t) (bound : Z)
    (table' : list Discrepancy.t) (n : int) :
  repository.bulk_insert_loop emitted table 0 = (table', n) ->
  len emitted <= bound -> bound < 2 ^ 63 ->
  0 <= n <= bound.
Proof.
  intros H Hl Hb. apply bulk_insert_loop_count in H; lia.
Qed.

End Counts.


(** C5: the result of a successful full run has
    [total_discrepancies = missing_settlements + amount_mismatches +
    orphaned_settlements], the sum being Go's [int] addition; when the
    tables of transactions and of settlement records hold fewer than 2^61
    rows, each count lies between 0 and the size of its table and the
    total is the sum of the integers. *)
Theorem RunFullReconciliation_conservation {stdlib : StdLib} (w w' : World)
    (r : reconciliation.ReconciliationResult) :
  reconciliation.RunFullReconciliation w = (Ok r, w') ->
  reconciliation.TotalDiscrepancies r
  = int_add (int_add (reconciliation.MissingSettlements r)
                     (reconciliation.AmountMismatches r))
            (reconciliation.OrphanedSettlements r)
  /\ (len (transactions (db w)) < 2 ^ 61 ->
      len (settlement_records (db w)) < 2 ^ 61 ->
      0 <= reconciliation.MissingSettlements r <= len (transactions (db w))
      /\ 0 <= reconciliation.AmountMismatches r <= len (settlement_records (db w))
      /\ 0 <= reconciliation.OrphanedSettlements r <= len (settlement_records (db w))
      /\ reconciliation.MissingSettlements r + reconciliation.AmountMismatches r
         + reconciliation.OrphanedSettlements r
         = reconciliation.TotalDiscrepancies r).
Proof.
  set (txns := fun d : DB => len (transactions d)).
  set (recs := fun d : DB => len (settlement_records d)).
  change (len (transactions (db w))) with (txns (db w)).
  change (len (settlement_records (db w))) with (recs (db w)).
  unfold reconciliation.RunFullReconciliation.
  unfold bind at 1.
  pose proof (keeps_ClearAll txns transaction_count_stable w) as T1.
  pose proof (keeps_ClearAll recs record_count_stable w) as R1.
  destruct (repository.ClearAll w) as [[e|] w1]; [discriminate|].
  simpl in T1, R1. unfold bind at 1.
  pose proof (keeps_MatchSettlements txns transaction_count_stable w1) as T2.
  pose proof (keeps_MatchSettlements recs record_count_stable w1) as R2.
  destruct (reconciliation.MatchSettlements w1) as [[matched|e] w2]; [|discriminate].
  simpl in T2, R2. unfold bind at 1.
  pose proof (keeps_DetectMissingSettlements recs record_count_stable w2) as R3.
  destruct (reconciliation.DetectMissingSettlements w2) as [[missing|e] w3] eqn:E3;
    [|discriminate].
  simpl in R3. unfold bind at 1.
  pose proof (keeps_DetectAmountMismatches recs record_count_stable w3) as R4.
  destruct (reconciliation.DetectAmountMismatches w3) as [[mismatches|e] w4] eqn:E4;
    [|discriminate].
  simpl in R4. unfold bind at 1.
  destruct (reconciliation.DetectOrphanedSettlements w4) as [[orphaned|e] w5] eqn:E5;
    [|discriminate].
  unfold ret. intros H. inversion H; subst; simpl.
  split; [reflexivity|].
  intros Ht Hr.
  apply DetectMissingSettlements_inserts in E3.
  apply DetectAmountMismatches_inserts in E4.
  apply DetectOrphanedSettlements_inserts in E5.
  pose proof (emitted_missing_len w2) as L3.
  pose proof (emitted_mismatches_len w3) as L4.
  pose proof (emitted_orphans_len w4) as L5.
  fold (txns (db w2)) in L3. fold (recs (db w3)) in L4. fold (recs (db w4)) in L5.
  assert (Hm : 0 <= missing <= txns (db w))
    by (apply (detector_count _ _ _ _ _ E3); lia).
  assert (Ha : 0 <= mismatches <= recs (db w))
    by (apply (detector_count _ _ _ _ _ E4); lia).
  assert (Ho : 0 <= orphaned <= recs (db w))
    by (apply (detector_count _ _ _ _ _ E5); lia).
  repeat split; try lia.
  rewrite (int_add_small missing mismatches) by lia.
  rewrite int_add_small by lia. reflexivity.
Qed.

(** A full run on the mixed example world: one discrepancy of each kind,
    three in total. *)
Lemma RunFullReconciliation_conservation_witness :
  reconciliation.RunFullReconciliation (stdlib := Example.lib) Example.world_mixed
  = (Ok Example.result_mixed, Example.world_reconciled)
  /\ reconciliation.MissingSettlements Example.result_mixed = 1
  /\ reconciliation.AmountMismatches Example.result_mixed = 1
  /\ reconciliation.OrphanedSettlements Example.result_mixed = 1
  /\ reconciliation.MissingSettlements Example.result_mixed
     + reconciliation.AmountMismatches Example.result_mixed
     + reconciliation.OrphanedSettlements Example.result_mixed
     = reconciliation.TotalDiscrepancies Example.result_mixed.
Proof.
  assert (Hrun : reconciliation.RunFullReconciliation (stdlib := Example.lib)
                   Example.world_mixed
                 = (Ok Example.result_mixed, Example.world_reconciled))
    by (vm_compute; reflexivity).
  split; [exact Hrun|].
  repeat (split; [reflexivity|]).
  apply (proj2 (RunFullReconciliation_conservation (stdlib := Example.lib)
                  Example.world_mixed Example.world_reconciled
                  Example.result_mixed Hrun));
    reflexivity.
Defined.

(** ** CSV parsers *)

Section ParserFacts.

Context {stdlib : StdLib}.

(** What [Read] does to a record once the header has fixed
    [FieldsPerRecord] at 7 or more: an error, or a row of that length. *)
Lemma readRecord_fixed (fpr : int) (raw : result (list string)) :
  7 <= fpr ->
  (exists e, csv.readRecord fpr raw = (Err e, fpr))
  \/ (exists row, raw = Ok row /\ csv.readRecord fpr raw = (Ok row, fpr)
                  /\ len row = fpr).
Proof.
  intros Hfpr. unfold csv.readRecord. destruct raw as [row|e]; [|left; eauto].
  assert (H0 : (0 <? fpr) = true) by (apply Z.ltb_lt; lia). rewrite H0.
  destruct (len row =? fpr) eqn:E; simpl.
  - right. exists row. apply Z.eqb_eq in E. auto.
  - left. eauto.
Qed.

(** Opens the nested [match]es of a loop body, closing the error returns. *)
Ltac open_body :=
  repeat match goal with
         | |- exists e, Err _ = Err e => eexists; reflexivity
         | |- exists e, match ?x with _ => _ end = Err e => destruct x eqn:?
         end.

Lemma afripay_loop_short_row (pending : list (result (list string))) :
  forall fpr reportID lineNum records batchID row,
    7 <= fpr -> In (Ok row) pending -> len row < 7 ->
    exists e,
      ingestion.afripay_loop pending fpr reportID lineNum records batchID = Err e.
Proof.
  induction pending as [|raw rest IH];
    intros fpr reportID lineNum records batchID row Hfpr Hin Hshort;
    [destruct Hin|].
  simpl.
  destruct (readRecord_fixed fpr raw Hfpr) as [[e ->] | [row0 [-> [-> Hlen]]]];
    [eexists; reflexivity|].
  assert (Hlong : (len row0 <? 7) = false) by (apply Z.ltb_ge; lia).
  rewrite Hlong.
  assert (Hrest : In (Ok row) rest).
  { destruct Hin as [Heq | Hin]; [|exact Hin]. inversion Heq; subst. lia. }
  open_body. eapply IH; eassumption.
Qed.

Lemma capepay_loop_short_row (pending : list (result (list string))) :
  forall fpr reportID lineNum records batchID row,
    7 <= fpr -> In (Ok row) pending -> len row < 7 ->
    exists e,
      ingestion.capepay_loop pending fpr reportID lineNum records batchID = Err e.
Proof.
  induction pending as [|raw rest IH];
    intros fpr reportID lineNum records batchID row Hfpr Hin Hshort;
    [destruct Hin|].
  simpl.
  destruct (readRecord_fixed fpr raw Hfpr) as [[e ->] | [row0 [-> [-> Hlen]]]];
    [eexists; reflexivity|].
  assert (Hlong : (len row0 <? 7) = false) by (apply Z.ltb_ge; lia).
  rewrite Hlong.
  assert (Hrest : In (Ok row) rest).
  { destruct Hin as [Heq | Hin]; [|exact Hin]. inversion Heq; subst. lia. }
  open_body. eapply IH; eassumption.
Qed.

(** Closes the case in which every field of an unparseable row parsed. *)
Ltac all_parsed_absurd Hbad :=
  exfalso;
  destruct Hbad as [[? He] | [[? He] | [[? He] | [[? He1] [? He2]]]]];
  [ congruence | congruence | congruence
  | rewrite He1 in *; congruence ].

Lemma afripay_loop_bad_field (pending : list (result (list string))) :
  forall fpr reportID lineNum records batchID row,
    7 <= fpr -> In (Ok row) pending -> unparseable_row row ->
    exists e,
      ingestion.afripay_loop pending fpr reportID lineNum records batchID = Err e.
Proof.
  induction pending as [|raw rest IH];
    intros fpr reportID lineNum records batchID row Hfpr Hin Hbad;
    [destruct Hin|].
  simpl.
  destruct (readRecord_fixed fpr raw Hfpr) as [[e ->] | [row0 [-> [-> Hlen]]]];
    [eexists; reflexivity|].
  assert (Hlong : (len row0 <? 7) = false) by (apply Z.ltb_ge; lia).
  rewrite Hlong.
  destruct Hin as [Heq | Hin].
  - inversion Heq; subst row0. open_body. all_parsed_absurd Hbad.
  - open_body. eapply IH; eassumption.
Qed.

Lemma capepay_loop_bad_field (pending : list (result (list string))) :
  forall fpr reportID lineNum records batchID row,
    7 <= fpr -> In (Ok row) pending -> unparseable_row row ->
    exists e,
      ingestion.capepay_loop pending fpr reportID lineNum records batchID = Err e.
Proof.
  induction pending as [|raw rest IH];
    intros fpr reportID lineNum records batchID row Hfpr Hin Hbad;
    [destruct Hin|].
  simpl.
  destruct (readRecord_fixed fpr raw Hfpr) as [[e ->] | [row0 [-> [-> Hlen]]]];
    [eexists; reflexivity|].
  assert (Hlong : (len row0 <? 7) = false) by (apply Z.ltb_ge; lia).
  rewrite Hlong.
  destruct Hin as [Heq | Hin].
  - inversion Heq; subst row0. open_body. all_parsed_absurd Hbad.
  - open_body. eapply IH; eassumption.
Qed.

(** The header step shared by the two parsers: it ends in an error or
    hands the loop the number of fields of the header. *)
Lemma header_fixed (raw : result (list string)) :
  (exists e, csv.readRecord 0 raw = (Err e, 0))
  \/ (exists header, raw = Ok header
                     /\ csv.readRecord 0 raw = (Ok header, len header)).
Proof.
  unfold csv.readRecord. destruct raw as [header|e]; [right | left]; eauto.
Qed.

(** Reduces a claim on a parser to the claim on its loop. *)
Ltac through_header :=
  unfold data_rows;
  let raw := fresh "raw" in
  let pending := fresh "pending" in
  let Hin := fresh "Hin" in
  let header := fresh "header" in
  let Hh := fresh "Hh" in
  let e := fresh "e" in
  match goal with
  | |- context [csv_records ?c ?t ?s] =>
      destruct (csv_records c t s) as [|raw pending]; simpl tl
  end;
  [ intros []
  | intros Hin;
    destruct (header_fixed raw) as [[e ->] | [header [_ ->]]];
    [ eexists; reflexivity
    | destruct (len header <? 7) eqn:Hh;
      [ eexists; reflexivity | apply Z.ltb_ge in Hh ] ] ].

(** A data row with an unparseable number or date aborts the parse: the
    parser returns an error and no record. *)
Lemma ParseAfriPayCSV_bad_field (data : list byte) (reportID : string)
    (row : list string) :
  In (Ok row) (data_rows ","%char data) -> unparseable_row row ->
  exists e, ingestion.ParseAfriPayCSV data reportID = Err e.
Proof.
  unfold ingestion.ParseAfriPayCSV. through_header.
  intros Hbad. eapply afripay_loop_bad_field; eassumption.
Qed.

Lemma ParseCapePayCSV_bad_field (data : list byte) (reportID : string)
    (row : list string) :
  In (Ok row) (data_rows "|"%char data) -> unparseable_row row ->
  exists e, ingestion.ParseCapePayCSV data reportID = Err e.
Proof.
  unfold ingestion.ParseCapePayCSV. through_header.
  intros Hbad. eapply capepay_loop_bad_field; eassumption.
Qed.

(** A data row with fewer than 7 fields aborts the parse just the same:
    the header has fixed the number of fields per record. *)
Lemma ParseAfriPayCSV_short_row (data : list byte) (reportID : string)
    (row : list string) :
  In (Ok row) (data_rows ","%char data) -> len row < 7 ->
  exists e, ingestion.ParseAfriPayCSV data reportID = Err e.
Proof.
  unfold ingestion.ParseAfriPayCSV. through_header.
  intros Hshort. eapply afripay_loop_short_row; eassumption.
Qed.

Lemma ParseCapePayCSV_short_row (data : list byte) (reportID : string)
    (row : list string) :
  In (Ok row) (data_rows "|"%char data) -> len row < 7 ->
  exists e, ingestion.ParseCapePayCSV data reportID = Err e.
Proof.
  unfold ingestion.ParseCapePayCSV. through_header.
  intros Hshort. eapply capepay_loop_short_row; eassumption.
Qed.

End ParserFacts.

(** C6: a data row with fewer than 7 fields is not skipped.  The reader
    keeps the number of fields of the header for every later record, so
    [Read] answers [ErrFieldCount] for the short row and the parser
    returns that error and no record, for every input of either parser;
    on the example files the error is "line 2: wrong number of fields".
    A row with an unparseable number or date aborts the parse as claimed. *)
Theorem csv_short_row_aborts {stdlib : StdLib} (data : list byte)
    (reportID : string) (row : list string) :
  (In (Ok row) (data_rows ","%char data) -> len row < 7 ->
   exists e, ingestion.ParseAfriPayCSV data reportID = Err e)
  /\ (In (Ok row) (data_rows "|"%char data) -> len row < 7 ->
      exists e, ingestion.ParseCapePayCSV data reportID = Err e)
  /\ (In (Ok row) (data_rows ","%char data) -> unparseable_row row ->
      exists e, ingestion.ParseAfriPayCSV data reportID = Err e)
  /\ (In (Ok row) (data_rows "|"%char data) -> unparseable_row row ->
      exists e, ingestion.ParseCapePayCSV data reportID = Err e)
  /\ ingestion.ParseAfriPayCSV (stdlib := Example.lib) Example.afripay_short_row
                               reportID
     = Err (Wrap "line 2" ErrFieldCount)
  /\ ingestion.ParseCapePayCSV (stdlib := Example.lib) Example.capepay_short_row
                               reportID
     = Err (Wrap "line 2" ErrFieldCount).
Proof.
  split; [apply ParseAfriPayCSV_short_row|].
  split; [apply ParseCapePayCSV_short_row|].
  split; [apply ParseAfriPayCSV_bad_field|].
  split; [apply ParseCapePayCSV_bad_field|].
  split; reflexivity.
Qed.

(** The AfriPay file whose only data row has three fields. *)
Lemma csv_short_row_aborts_witness :
  In (Ok ["AP-TXN-001"; "M001"; "2024-01-09"])
     (data_rows (stdlib := Example.lib) ","%char Example.afripay_short_row)
  /\ len ["AP-TXN-001"; "M001"; "2024-01-09"] < 7
  /\ exists e,
       ingestion.ParseAfriPayCSV (stdlib := Example.lib) Example.afripay_short_row
                                 "RPT-1" = Err e.
Proof.
  assert (Hin : In (Ok ["AP-TXN-001"; "M001"; "2024-01-09"])
                   (data_rows (stdlib := Example.lib) ","%char
                              Example.afripay_short_row))
    by (left; vm_compute; reflexivity).
  split; [exact Hin|]. split; [reflexivity|].
  exact (proj1 (csv_short_row_aborts (stdlib := Example.lib)
                  Example.afripay_short_row "RPT-1"
                  ["AP-TXN-001"; "M001"; "2024-01-09"]) Hin eq_refl).
Defined.


(** * Further properties *)

(** ** What a computation leaves of the database *)

Create HintDb frames.

Section Frames.

Context {stdlib : StdLib} (R : DB -> DB -> Prop).
Hypothesis R_refl : forall d, R d d.
Hypothesis R_trans : forall d1 d2 d3, R d1 d2 -> R d2 d3 -> R d1 d3.
Hypothesis R_discrepancies : forall l d, R d (set_discrepancies l d).
Hypothesis R_link :
  forall recordID txnID d,
    R d (set_settlement_records (link_rows recordID txnID (settlement_records d)) d).
Hypothesis R_settle :
  forall id settledAt d,
    R d (set_transactions (settle_rows id settledAt (transactions d)) d).

Lemma frames_ret {A : Type} (a : A) : frames R (ret a).
Proof. intros w. apply R_refl. Qed.

Lemma frames_bind {A B : Type} (c : M A) (k : A -> M B) :
  frames R c -> (forall a, frames R (k a)) -> frames R (bind c k).
Proof.
  intros Hc Hk w. unfold bind.
  specialize (Hc w). destruct (c w) as [a w1]; simpl in Hc.
  eapply R_trans; [exact Hc | apply Hk].
Qed.

Ltac frames_call :=
  let w := fresh "w" in
  intros w; run_call;
  first [ apply R_refl | apply R_discrepancies | apply R_link | apply R_settle ].

Lemma frames_time_Now : frames R time_Now.
Proof. frames_call. Qed.

Lemma frames_GetUnmatchedRecords : frames R repository.GetUnmatchedRecords.
Proof. unfold repository.GetUnmatchedRecords. frames_call. Qed.

Lemma frames_GetMatchedRecords : frames R repository.GetMatchedRecords.
Proof. unfold repository.GetMatchedRecords. frames_call. Qed.

Lemma frames_GetByID (id : string) : frames R (repository.GetByID id).
Proof.
  unfold repository.GetByID. intros w. run_call; try apply R_refl;
    destruct (List.find _ _); apply R_refl.
Qed.

Lemma frames_GetByProcessorRef (processor ref : string) :
  frames R (repository.GetByProcessorRef processor ref).
Proof.
  unfold repository.GetByProcessorRef. intros w. run_call; try apply R_refl;
    destruct (List.find _ _); apply R_refl.
Qed.

Lemma frames_GetCapturedWithoutSettlement (cutoff : Time) :
  frames R (repository.GetCapturedWithoutSettlement cutoff).
Proof. unfold repository.GetCapturedWithoutSettlement. frames_call. Qed.

Lemma frames_ClearAll : frames R repository.ClearAll.
Proof. unfold repository.ClearAll. frames_call. Qed.

Lemma frames_BulkInsert (discs : list Discrepancy.t) :
  frames R (repository.BulkInsert discs).
Proof.
  unfold repository.BulkInsert. intros w. run_call; try apply R_refl;
    destruct (repository.bulk_insert_loop _ _ _); simpl; apply R_discrepancies.
Qed.

Lemma frames_UpdateWakalaTransactionID (recordID txnID : string) :
  frames R (repository.UpdateWakalaTransactionID recordID txnID).
Proof. unfold repository.UpdateWakalaTransactionID. frames_call. Qed.

Lemma frames_UpdateStatusToSettled (id : string) (settledAt : Time) :
  frames R (repository.UpdateStatusToSettled id settledAt).
Proof. unfold repository.UpdateStatusToSettled. frames_call. Qed.

#[local] Hint Resolve frames_ret frames_time_Now frames_GetUnmatchedRecords
  frames_GetMatchedRecords frames_GetByID frames_GetByProcessorRef
  frames_GetCapturedWithoutSettlement frames_ClearAll frames_BulkInsert
  frames_UpdateWakalaTransactionID frames_UpdateStatusToSettled : frames.

Ltac frames_walk :=
  repeat first
    [ apply frames_bind; [solve [eauto with frames] | intros]
    | solve [eauto with frames]
    | match goal with
      | |- frames _ (match ?x with _ => _ end) => destruct x
      | |- frames _ (if ?b then _ else _) => destruct b
      end ].

Lemma frames_missing_loop (txns : list Transaction.t) :
  forall discs, frames R (reconciliation.missing_loop txns discs).
Proof.
  induction txns as [|txn rest IH]; intros discs; simpl.
  - apply frames_ret.
  - frames_walk; apply IH.
Qed.

Lemma frames_mismatch_loop (matched : list SettlementRecord.t) :
  forall discs, frames R (reconciliation.mismatch_loop matched discs).
Proof.
  induction matched as [|rec rest IH]; intros discs; simpl.
  - apply frames_ret.
  - frames_walk; apply IH.
Qed.

Lemma frames_orphaned_loop (unmatched : list SettlementRecord.t) :
  forall discs, frames R (reconciliation.orphaned_loop unmatched discs).
Proof.
  induction unmatched as [|rec rest IH]; intros discs; simpl.
  - apply frames_ret.
  - frames_walk; apply IH.
Qed.

Lemma frames_settlementWindowHours : frames R reconciliation.settlementWindowHours.
Proof.
  intros w. rewrite settlementWindowHours_world. apply R_refl.
Qed.

Lemma frames_match_loop (unmatched : list SettlementRecord.t) :
  forall matched, frames R (reconciliation.match_loop unmatched matched).
Proof.
  induction unmatched as [|rec rest IH]; intros matched; simpl.
  - apply frames_ret.
  - frames_walk; apply IH.
Qed.

#[local] Hint Resolve frames_missing_loop frames_mismatch_loop
  frames_orphaned_loop frames_settlementWindowHours frames_match_loop : frames.

Lemma frames_DetectMissingSettlements :
  frames R reconciliation.DetectMissingSettlements.
Proof. unfold reconciliation.DetectMissingSettlements. frames_walk. Qed.

Lemma frames_DetectAmountMismatches :
  frames R reconciliation.DetectAmountMismatches.
Proof. unfold reconciliation.DetectAmountMismatches. frames_walk. Qed.

Lemma frames_DetectOrphanedSettlements :
  frames R reconciliation.DetectOrphanedSettlements.
Proof. unfold reconciliation.DetectOrphanedSettlements. frames_walk. Qed.

Lemma frames_MatchSettlements : frames R reconciliation.MatchSettlements.
Proof. unfold reconciliation.MatchSettlements. frames_walk. Qed.

#[local] Hint Resolve frames_DetectMissingSettlements
  frames_DetectAmountMismatches frames_DetectOrphanedSettlements
  frames_MatchSettlements : frames.

Lemma frames_RunFullReconciliation : frames R reconciliation.RunFullReconciliation.
Proof. unfold reconciliation.RunFullReconciliation. frames_walk. Qed.

End Frames.

Lemma only_discrepancies_refl (d : DB) : only_discrepancies d d.
Proof. repeat split. Qed.

Lemma only_discrepancies_trans (d1 d2 d3 : DB) :
  only_discrepancies d1 d2 -> only_discrepancies d2 d3 -> only_discrepancies d1 d3.
Proof.
  intros (H1 & H2 & H3) (K1 & K2 & K3).
  repeat split; etransitivity; eassumption.
Qed.

Lemma only_discrepancies_set (l : list Discrepancy.t) (d : DB) :
  only_discrepancies d (set_discrepancies l d).
Proof. repeat split. Qed.

(** X1: the three detectors write to the discrepancy table and to nothing
    else: whatever a detector returns, the transactions, the reports and
    the settlement records are afterwards what they were. *)
Theorem detectors_only_write_discrepancies {stdlib : StdLib} (w : World) :
  only_discrepancies (db w) (db (snd (reconciliation.DetectMissingSettlements w)))
  /\ only_discrepancies (db w) (db (snd (reconciliation.DetectAmountMismatches w)))
  /\ only_discrepancies (db w)
                        (db (snd (reconciliation.DetectOrphanedSettlements w))).
Proof.
  split; [|split].
  - apply (frames_DetectMissingSettlements only_discrepancies
             only_discrepancies_refl only_discrepancies_trans
             only_discrepancies_set).
  - apply (frames_DetectAmountMismatches only_discrepancies
             only_discrepancies_refl only_discrepancies_trans
             only_discrepancies_set).
  - apply (frames_DetectOrphanedSettlements only_discrepancies
             only_discrepancies_refl only_discrepancies_trans
             only_discrepancies_set).
Qed.

Lemma same_holdings_refl (d : DB) : same_holdings d d.
Proof. repeat split. Qed.

Lemma same_holdings_trans (d1 d2 d3 : DB) :
  same_holdings d1 d2 -> same_holdings d2 d3 -> same_holdings d1 d3.
Proof.
  intros (H1 & H2 & H3) (K1 & K2 & K3).
  repeat split; etransitivity; eassumption.
Qed.

Lemma same_holdings_discrepancies (l : list Discrepancy.t) (d : DB) :
  same_holdings d (set_discrepancies l d).
Proof. repeat split. Qed.

Lemma same_holdings_link (recordID txnID : string) (d : DB) :
  same_holdings d
    (set_settlement_records (link_rows recordID txnID (settlement_records d)) d).
Proof.
  repeat split. simpl. unfold link_rows. rewrite List.map_map.
  apply List.map_ext. intros r.
  destruct (String.eqb _ _); reflexivity.
Qed.

Lemma same_holdings_settle (id : string) (settledAt : Time) (d : DB) :
  same_holdings d (set_transactions (settle_rows id settledAt (transactions d)) d).
Proof.
  repeat split. simpl. unfold settle_rows. rewrite List.map_map.
  apply List.map_ext. intros t.
  destruct (String.eqb _ _); reflexivity.
Qed.

(** X2: a full reconciliation run, failed or not, adds and removes no
    report, no settlement record and no transaction and keeps their order;
    of a settlement record it changes the link at most, of a transaction
    the status and the settlement time at most.  The match step alone does
    the same. *)
Theorem reconciliation_keeps_holdings {stdlib : StdLib} (w : World) :
  same_holdings (db w) (db (snd (reconciliation.RunFullReconciliation w)))
  /\ same_holdings (db w) (db (snd (reconciliation.MatchSettlements w))).
Proof.
  split.
  - apply (frames_RunFullReconciliation same_holdings same_holdings_refl
             same_holdings_trans same_holdings_discrepancies same_holdings_link
             same_holdings_settle).
  - apply (frames_MatchSettlements same_holdings same_holdings_refl
             same_holdings_trans same_holdings_link same_holdings_settle).
Qed.

Lemma same_holdings_ids (d d' : DB) :
  same_holdings d d' ->
  List.map (fun r => SettlementRecord.ID (row_fields r)) (settlement_records d')
  = List.map (fun r => SettlementRecord.ID (row_fields r)) (settlement_records d)
  /\ List.map Transaction.ID (transactions d')
     = List.map Transaction.ID (transactions d).
Proof.
  intros (_ & Hr & Ht). split.
  - assert (E : forall l : list settlement_row,
               List.map (fun r => SettlementRecord.ID (row_fields r)) l
               = List.map SettlementRecord.ID (List.map row_fields l))
      by (intros l; rewrite List.map_map; reflexivity).
    rewrite (E (settlement_records d')), (E (settlement_records d)), Hr.
    reflexivity.
  - assert (E : forall l : list Transaction.t,
               List.map Transaction.ID l
               = List.map Transaction.ID (List.map unsettled l))
      by (intros l; rewrite List.map_map; reflexivity).
    rewrite (E (transactions d')), (E (transactions d)), Ht.
    reflexivity.
Qed.

(** ** Matching is sticky *)

Lemma UpdateWakalaTransactionID_rows (recordID txnID : string) (w : World) :
  let w' := snd (repository.UpdateWakalaTransactionID recordID txnID w) in
  (fst (repository.UpdateWakalaTransactionID recordID txnID w) <> None
   /\ db w' = db w)
  \/ (fst (repository.UpdateWakalaTransactionID recordID txnID w) = None
      /\ db w' = set_settlement_records
                   (link_rows recordID txnID (settlement_records (db w))) (db w)).
Proof.
  unfold repository.UpdateWakalaTransactionID. run_call.
  - right. split; reflexivity.
  - left. split; [discriminate | reflexivity].
  - right. split; reflexivity.
Qed.

Lemma link_rows_other (recordID txnID : string) (rows : list settlement_row)
    (r : settlement_row) :
  SettlementRecord.ID (row_fields r) <> recordID ->
  In r rows -> In r (link_rows recordID txnID rows).
Proof.
  intros Hne Hin. unfold link_rows. apply in_map_iff. exists r.
  split; [|exact Hin].
  apply String.eqb_neq in Hne. rewrite Hne. reflexivity.
Qed.

Section Sticky.

Context {stdlib : StdLib}.

Lemma GetUnmatchedRecords_inv (w w1 : World) (unmatched : list SettlementRecord.t) :
  repository.GetUnmatchedRecords w = (Ok unmatched, w1) ->
  unmatched = unmatched_records (db w) /\ db w1 = db w.
Proof.
  unfold repository.GetUnmatchedRecords, bind.
  pose proof (db_call_world w) as [Hdb _].
  destruct (db_call w) as [failed wa]; simpl in Hdb.
  destruct failed; unfold ret, get_db; [discriminate|].
  intros H. inversion H; subst. rewrite Hdb. split; reflexivity.
Qed.

Lemma match_loop_sticky (r : settlement_row) (unmatched : list SettlementRecord.t) :
  forall matched w,
    (forall rec, In rec unmatched ->
                 SettlementRecord.ID rec <> SettlementRecord.ID (row_fields r)) ->
    In r (settlement_records (db w)) ->
    In r (settlement_records
            (db (snd (reconciliation.match_loop unmatched matched w)))).
Proof.
  induction unmatched as [|rec rest IH]; intros matched w Hids Hin; simpl;
    [exact Hin|].
  assert (Hrest : forall rec', In rec' rest ->
            SettlementRecord.ID rec' <> SettlementRecord.ID (row_fields r))
    by (intros rec' H'; apply Hids; right; exact H').
  unfold bind at 1.
  pose proof (frames_GetByProcessorRef same_records (fun d => eq_refl)
                (SettlementRecord.Processor rec)
                (SettlementRecord.ProcessorTransactionID rec) w) as H1.
  destruct (repository.GetByProcessorRef _ _ w) as [[txn|e] w1];
    unfold same_records in H1; simpl in H1;
    [|apply IH; [exact Hrest | rewrite H1; exact Hin]].
  unfold bind at 1.
  pose proof (UpdateWakalaTransactionID_rows (SettlementRecord.ID rec)
                (Transaction.ID txn) w1) as H2.
  destruct (repository.UpdateWakalaTransactionID _ _ w1) as [e w2].
  simpl in H2.
  assert (Hin2 : In r (settlement_records (db w2))).
  { destruct H2 as [[_ ->] | [_ ->]]; [rewrite H1; exact Hin|].
    simpl. apply link_rows_other; [|rewrite H1; exact Hin].
    intros Heq. apply (Hids rec); [left; reflexivity | symmetry; exact Heq]. }
  destruct e as [e|]; [apply IH; assumption|].
  unfold bind at 1.
  pose proof (frames_UpdateStatusToSettled same_records (fun d => eq_refl)
                (fun id settledAt d => eq_refl) (Transaction.ID txn)
                (SettlementRecord.SettlementDate rec) w2) as H3.
  destruct (repository.UpdateStatusToSettled _ _ w2) as [e3 w3].
  unfold same_records in H3; simpl in H3.
  apply IH; [exact Hrest | rewrite H3; exact Hin2].
Qed.

(** A linked row and the unmatched rows have different ids. *)
Lemma unmatched_ids_differ (d : DB) (r : settlement_row) (rec : SettlementRecord.t) :
  unique_record_ids d -> In r (settlement_records d) ->
  wakala_transaction_id r <> None ->
  In rec (unmatched_records d) ->
  SettlementRecord.ID rec <> SettlementRecord.ID (row_fields r).
Proof.
  intros Hu Hin Hlinked Hrec Heq.
  unfold unmatched_records in Hrec.
  apply in_map_iff in Hrec as [r' [<- Hr']].
  apply filter_In in Hr' as [Hin' Hnull].
  assert (r' = r).
  { apply (NoDup_map_inj (fun r => SettlementRecord.ID (row_fields r))
             (settlement_records d)); assumption. }
  subst r'. destruct (wakala_transaction_id r); [discriminate | contradiction].
Qed.

Lemma keeps_linked_refl (d : DB) : keeps_linked d d.
Proof. intros Hu. split; [exact Hu | auto]. Qed.

Lemma keeps_linked_trans (d1 d2 d3 : DB) :
  keeps_linked d1 d2 -> keeps_linked d2 d3 -> keeps_linked d1 d3.
Proof.
  intros H12 H23 Hu. destruct (H12 Hu) as [Hu2 K12].
  destruct (H23 Hu2) as [Hu3 K23]. split; [exact Hu3 | auto].
Qed.

Lemma keeps_linked_discrepancies (l : list Discrepancy.t) (d : DB) :
  keeps_linked d (set_discrepancies l d).
Proof. intros Hu. split; [exact Hu | auto]. Qed.

Lemma keeps_linked_MatchSettlements :
  frames keeps_linked reconciliation.MatchSettlements.
Proof.
  intros w Hu. split.
  - pose proof (frames_MatchSettlements same_holdings same_holdings_refl
                  same_holdings_trans same_holdings_link same_holdings_settle w)
      as Hs.
    apply same_holdings_ids in Hs as [Hs _].
    unfold unique_record_ids. rewrite Hs. exact Hu.
  - intros r Hin Hlinked. unfold reconciliation.MatchSettlements, bind.
    pose proof (GetUnmatchedRecords_db w) as Hdb.
    destruct (repository.GetUnmatchedRecords w) as [[unmatched|e] w1] eqn:E;
      simpl in Hdb; [|simpl; rewrite Hdb; exact Hin].
    apply GetUnmatchedRecords_inv in E as [-> _].
    pose proof (match_loop_sticky r (unmatched_records (db w)) 0 w1) as Hl.
    destruct (reconciliation.match_loop _ 0 w1) as [n w2]. simpl in *.
    apply Hl; [|rewrite Hdb; exact Hin].
    intros rec Hrec. eapply unmatched_ids_differ; eassumption.
Qed.

Lemma keeps_linked_RunFullReconciliation :
  frames keeps_linked reconciliation.RunFullReconciliation.
Proof.
  pose proof (frames_ClearAll keeps_linked keeps_linked_refl
                keeps_linked_discrepancies) as H1.
  pose proof keeps_linked_MatchSettlements as H2.
  pose proof (frames_DetectMissingSettlements keeps_linked keeps_linked_refl
                keeps_linked_trans keeps_linked_discrepancies) as H3.
  pose proof (frames_DetectAmountMismatches keeps_linked keeps_linked_refl
                keeps_linked_trans keeps_linked_discrepancies) as H4.
  pose proof (frames_DetectOrphanedSettlements keeps_linked keeps_linked_refl
                keeps_linked_trans keeps_linked_discrepancies) as H5.
  unfold reconciliation.RunFullReconciliation.
  repeat first
    [ apply (frames_bind keeps_linked keeps_linked_trans); [assumption | intros]
    | apply (frames_ret keeps_linked keeps_linked_refl)
    | match goal with
      | |- frames _ (match ?x with _ => _ end) => destruct x
      end ].
Qed.

End Sticky.

(** X3: matching is sticky.  With unique record ids, a settlement record
    that is linked to a transaction is still in the table, with the same
    link and the same fields, after a match step and after a full
    reconciliation run, whatever fails along the way; and the record ids
    are still unique. *)
Theorem matching_is_sticky {stdlib : StdLib} (w : World) (r : settlement_row) :
  unique_record_ids (db w) ->
  In r (settlement_records (db w)) ->
  wakala_transaction_id r <> None ->
  In r (settlement_records (db (snd (reconciliation.MatchSettlements w))))
  /\ In r (settlement_records (db (snd (reconciliation.RunFullReconciliation w))))
  /\ unique_record_ids (db (snd (reconciliation.RunFullReconciliation w))).
Proof.
  intros Hu Hin Hlinked.
  destruct (keeps_linked_MatchSettlements w Hu) as [_ H1].
  destruct (keeps_linked_RunFullReconciliation w Hu) as [Hu2 H2].
  auto.
Qed.

(** The linked record of the matched example world survives a full run. *)
Lemma matching_is_sticky_witness :
  In Example.row1_matched
     (settlement_records
        (db (snd (reconciliation.RunFullReconciliation (stdlib := Example.lib)
                    Example.world_matched)))).
Proof.
  refine (proj1 (proj2 (matching_is_sticky (stdlib := Example.lib)
                          Example.world_matched Example.row1_matched
                          example_unique_record_ids _ _))).
  - left. vm_compute. reflexivity.
  - discriminate.
Defined.

(** ** Insert-or-ignore of settlement records *)

Lemma existsb_record_id (table : list settlement_row) (id : string) :
  existsb (fun r => String.eqb (SettlementRecord.ID (row_fields r)) id) table = true
  <-> In id (record_ids table).
Proof.
  unfold record_ids. rewrite existsb_exists, in_map_iff. split.
  - intros [r [Hin He]]. exists r. split; [apply String.eqb_eq, He | exact Hin].
  - intros [r [He Hin]]. exists r. split; [exact Hin | apply String.eqb_eq, He].
Qed.

Lemma NoDup_snoc {A : Type} (l : list A) (a : A) :
  List.NoDup l -> ~ In a l -> List.NoDup (l ++ [a]).
Proof.
  induction l as [|b l IH]; simpl; intros Hnd Hnotin.
  - constructor; [intros [] | constructor].
  - inversion Hnd as [|? ? Hb Hl]; subst. constructor.
    + intros Hin. apply in_app_or in Hin as [Hin | [<- | []]].
      * contradiction.
      * apply Hnotin. left. reflexivity.
    + apply IH; [exact Hl|]. intros Hin. apply Hnotin. right. exact Hin.
Qed.

Lemma record_ids_app (t1 t2 : list settlement_row) :
  record_ids (t1 ++ t2) = record_ids t1 ++ record_ids t2.
Proof. unfold record_ids. apply List.map_app. Qed.

(** What a completed loop of [InsertRecords] leaves: the old rows followed
    by new ones, the id of every record of the batch that has no NULL
    present, ids unique if they were. *)
Lemma insert_records_loop_table (reports : list SettlementReport.t)
    (records : list SettlementRecord.t) :
  forall table inserted table' inserted',
    repository.insert_records_loop reports records table inserted
    = Ok (table', inserted') ->
    (exists added, table' = table ++ added)
    /\ (forall rec, In rec records ->
                    repository.record_has_null rec = true
                    \/ In (SettlementRecord.ID rec) (record_ids table'))
    /\ (List.NoDup (record_ids table) -> List.NoDup (record_ids table')).
Proof.
  induction records as [|rec rest IH]; intros table inserted table' inserted' H.
  - simpl in H. inversion H; subst. split; [exists []; symmetry; apply app_nil_r|].
    split; [intros rec []|exact id].
  - simpl in H.
    destruct (repository.record_has_null rec) eqn:En; simpl orb in H.
    { apply IH in H as ([added Ha] & Hall & Hnd).
      split; [exists added; exact Ha|]. split; [|exact Hnd].
      intros rec' [<- | Hin]; [left; exact En | apply Hall, Hin]. }
    destruct (existsb _ table) eqn:Ex.
    + apply IH in H as ([added Ha] & Hall & Hnd).
      split; [exists added; exact Ha|]. split; [|exact Hnd].
      intros rec' [<- | Hin]; [|apply Hall, Hin].
      right. apply existsb_record_id in Ex. rewrite Ha, record_ids_app.
      apply in_or_app. left. exact Ex.
    + destruct (existsb _ reports); [|discriminate].
      apply IH in H as ([added Ha] & Hall & Hnd).
      split; [exists (repository.row_of_record rec :: added);
              rewrite Ha, <- app_assoc; reflexivity|].
      split.
      * intros rec' [<- | Hin]; [|apply Hall, Hin].
        right. rewrite Ha, !record_ids_app. apply in_or_app. left.
        apply in_or_app. right. left. reflexivity.
      * intros Hnd0. apply Hnd. rewrite record_ids_app.
        apply NoDup_snoc; [exact Hnd0|].
        intros Hin. apply existsb_record_id in Hin.
        change (SettlementRecord.ID (row_fields (repository.row_of_record rec)))
          with (SettlementRecord.ID rec) in Hin.
        rewrite Hin in Ex. discriminate.
Qed.

Lemma insert_records_loop_present (reports : list SettlementReport.t)
    (records : list SettlementRecord.t) (table : list settlement_row) :
  (forall rec, In rec records ->
               repository.record_has_null rec = true
               \/ In (SettlementRecord.ID rec) (record_ids table)) ->
  repository.insert_records_loop reports records table 0 = Ok (table, 0).
Proof.
  induction records as [|rec rest IH]; intros Hall; simpl; [reflexivity|].
  assert (Ex : repository.record_has_null rec
               || existsb (fun r => String.eqb (SettlementRecord.ID (row_fields r))
                                               (SettlementRecord.ID rec)) table
               = true).
  { apply orb_true_iff.
    destruct (Hall rec (or_introl eq_refl)) as [Hn | Hid]; [left; exact Hn|].
    right. apply existsb_record_id, Hid. }
  rewrite Ex. change (int_add 0 0) with 0.
  apply IH. intros rec' Hin. apply Hall. right. exact Hin.
Qed.

Lemma InsertRecords_inv (records : list SettlementRecord.t) (w w' : World)
    (inserted : int) :
  repository.InsertRecords records w = (Ok inserted, w') ->
  repository.insert_records_loop (settlement_reports (db w)) records
                                 (settlement_records (db w)) 0
  = Ok (settlement_records (db w'), inserted)
  /\ transactions (db w') = transactions (db w)
  /\ settlement_reports (db w') = settlement_reports (db w)
  /\ discrepancies (db w') = discrepancies (db w).
Proof.
  unfold repository.InsertRecords, bind.
  pose proof (db_call_world w) as [Hdb _].
  destruct (db_call w) as [failed wa]; simpl in *.
  destruct failed; unfold ret, get_db, put_db; [discriminate|].
  rewrite Hdb.
  destruct (repository.insert_records_loop _ _ _ _) as [[table n]|e];
    [|discriminate].
  intros H. inversion H; subst. simpl. auto.
Qed.

(** X4: a batch that [InsertRecords] has stored is ignored when it is
    inserted again: the second call returns 0 and leaves the database as
    it is.  The first call adds rows after the existing ones and keeps the
    record ids unique. *)
Theorem InsertRecords_again (records : list SettlementRecord.t) (w w1 : World)
    (inserted : int) :
  repository.InsertRecords records w = (Ok inserted, w1) ->
  next_call_succeeds w1 ->
  repository.InsertRecords records w1 = (Ok 0, snd (db_call w1))
  /\ db (snd (db_call w1)) = db w1
  /\ (exists added,
        settlement_records (db w1) = settlement_records (db w) ++ added)
  /\ (unique_record_ids (db w) -> unique_record_ids (db w1)).
Proof.
  intros H Hcall.
  apply InsertRecords_inv in H as (Hloop & _ & Hrep & _).
  apply insert_records_loop_table in Hloop as (Hadded & Hall & Hnd).
  pose proof (db_call_world w1) as [Hdb _].
  split; [|split; [exact Hdb | split; [exact Hadded | exact Hnd]]].
  unfold repository.InsertRecords, bind.
  pose proof (db_call_succeeds w1 Hcall) as Hf.
  destruct (db_call w1) as [failed wa]; simpl in *. subst failed.
  unfold get_db, ret, put_db. rewrite Hdb.
  rewrite (insert_records_loop_present _ records _ Hall).
  unfold set_db. simpl. rewrite <- Hdb.
  destruct wa as [d c f e]. destruct d. reflexivity.
Qed.

(** ** Outcomes of an ingestion *)

Lemma InsertReport_inv (rpt : SettlementReport.t) (w w1 : World) (e : option error) :
  repository.InsertReport rpt w = (e, w1) ->
  match e with
  | Some _ => db w1 = db w
  | None =>
      db w1 = set_settlement_reports (settlement_reports (db w) ++ [rpt]) (db w)
  end.
Proof.
  unfold repository.InsertReport, bind.
  pose proof (db_call_world w) as [Hdb _].
  destruct (db_call w) as [failed wa]; simpl in *.
  destruct failed; unfold ret, get_db, put_db.
  - intros H. inversion H; subst. exact Hdb.
  - destruct (existsb _ _); intros H; inversion H; subst; simpl.
    + exact Hdb.
    + rewrite Hdb. reflexivity.
Qed.

Lemma InsertRecords_failed (records : list SettlementRecord.t) (w w1 : World)
    (e : error) :
  repository.InsertRecords records w = (Err e, w1) -> db w1 = db w.
Proof.
  unfold repository.InsertRecords, bind.
  pose proof (db_call_world w) as [Hdb _].
  destruct (db_call w) as [failed wa]; simpl in *.
  destruct failed; unfold ret, get_db, put_db.
  - intros H. inversion H; subst. exact Hdb.
  - destruct (repository.insert_records_loop _ _ _ _) as [[table n]|e'];
      intros H; inversion H; subst. exact Hdb.
Qed.

Section IngestionOutcomes.

Context {stdlib : StdLib}.

Lemma new_report_fields (reportID : string) (proc : Processor)
    (batchID hash : string) (records : list SettlementRecord.t) (w : World) :
  let report := fst (ingestion.new_report reportID proc batchID hash records w) in
  SettlementReport.ID report = reportID
  /\ SettlementReport.FileHash report = hash
  /\ SettlementReport.RecordCount report = len records
  /\ db (snd (ingestion.new_report reportID proc batchID hash records w)) = db w.
Proof.
  unfold ingestion.new_report, bind, ret, time_Now.
  destruct (String.eqb batchID ""); simpl; auto.
Qed.

(** The steps behind every result of [IngestReport] for content whose
    digest is not stored. *)
Lemma IngestReport_new_content (data : list byte) (processor format : string)
    (w w' : World) (r : result ingestion.IngestResult) :
  ingestion.IngestReport data processor format w = (r, w') ->
  ~ report_stored (db w) (sha256_hex data) ->
  (exists e, r = Err e /\ db w' = db w)
  \/ exists records report inserted_or_error w3 w4,
       SettlementReport.FileHash report = sha256_hex data
       /\ SettlementReport.RecordCount report = len records
       /\ (exists reportID batchID,
             ingestion.parse_by_format format data reportID
             = Some (Ok (records, batchID))
             /\ SettlementReport.ID report = reportID)
       /\ db w3 = set_settlement_reports (settlement_reports (db w) ++ [report])
                                         (db w)
       /\ repository.InsertRecords records w3 = (inserted_or_error, w4)
       /\ match inserted_or_error with
          | Err cause => r = Err (Wrap "insert records" cause) /\ w' = w4
          | Ok inserted =>
              w' = snd (reconciliation.RunFullReconciliation w4)
              /\ exists res,
                   r = Ok res
                   /\ ingestion.ReportID res = SettlementReport.ID report
                   /\ ingestion.RecordsIngested res = inserted
                   /\ ingestion.DuplicatesSkipped res
                      = int_sub (len records) inserted
          end.
Proof.
  intros H Hnew. revert H.
  unfold ingestion.IngestReport. unfold bind at 1.
  destruct (repository.ReportExistsByHash _ w) as [[found|e] wa] eqn:E1.
  - apply ReportExistsByHash_inv in E1 as [Hdb Hfound].
    destruct found; [exfalso; apply Hnew, Hfound; reflexivity|].
    unfold bind at 1. unfold time_Now at 1.
    destruct (ingestion.parse_by_format _ _ _) as [[[records batchID]|e]|] eqn:Ep.
    + unfold bind at 1.
      match goal with
      | |- context [ingestion.new_report ?a ?b ?c ?d ?e ?w0] =>
          pose proof (new_report_fields a b c d e w0) as (Hid & Hh & Hc & Hdbr);
          destruct (ingestion.new_report a b c d e w0) as [report wb]
      end.
      simpl in Hid, Hh, Hc, Hdbr. unfold bind at 1.
      destruct (repository.InsertReport report wb) as [[e|] wc] eqn:E2.
      * apply InsertReport_inv in E2. unfold ret. intros H. inversion H; subst.
        left. eexists. split; [reflexivity|]. congruence.
      * apply InsertReport_inv in E2. unfold bind at 1.
        destruct (repository.InsertRecords records wc) as [[inserted|e] wd] eqn:E3.
        -- unfold bind at 1.
           destruct (reconciliation.RunFullReconciliation wd) as [rr we] eqn:E4.
           unfold ret. intros H. inversion H; subst.
           right. exists records, report, (Ok inserted), wc, wd.
           split; [exact Hh|]. split; [exact Hc|].
           split; [eexists; eexists; split; [exact Ep | exact Hid]|].
           split; [rewrite E2, Hdbr; simpl; rewrite Hdb; reflexivity|].
           split; [exact E3|].
           split; [rewrite E4; reflexivity|].
           eexists. split; [reflexivity|]. simpl. rewrite Hid. auto.
        -- unfold ret. intros H. inversion H; subst.
           right. exists records, report, (Err e), wc, w'.
           split; [exact Hh|]. split; [exact Hc|].
           split; [eexists; eexists; split; [exact Ep | exact Hid]|].
           split; [rewrite E2, Hdbr; simpl; rewrite Hdb; reflexivity|].
           split; [exact E3|]. split; reflexivity.
    + unfold ret. intros H. inversion H; subst.
      left. eexists. split; [reflexivity | exact Hdb].
    + unfold ret. intros H. inversion H; subst.
      left. eexists. split; [reflexivity | exact Hdb].
  - unfold ret. intros H. inversion H; subst. left.
    eexists. split; [reflexivity|].
    revert E1. unfold repository.ReportExistsByHash, bind.
    pose proof (db_call_world w) as [Hdb _].
    destruct (db_call w) as [failed wa']; simpl in *.
    destruct failed; unfold ret, get_db; intros E1; inversion E1; subst.
    exact Hdb.
Qed.

End IngestionOutcomes.

Lemma report_stored_dec (d : DB) (hash : string) :
  report_stored d hash \/ ~ report_stored d hash.
Proof.
  destruct (0 <? len (List.filter
                        (fun r => String.eqb (SettlementReport.FileHash r) hash)
                        (settlement_reports d))) eqn:E.
  - left. apply report_stored_count, E.
  - right. intros H. apply report_stored_count in H. congruence.
Qed.

(** X5: a failed ingestion leaves the database as it was, with one
    exception.  When [InsertRecords] fails, the report row written just
    before stays, with the digest of the content, while no settlement
    record is stored; the same bytes sent again are then answered
    "already-ingested" with no record ingested. *)
Theorem IngestReport_failure {stdlib : StdLib} (data : list byte)
    (processor format : string) (w w' : World) (e : error) :
  ingestion.IngestReport data processor format w = (Err e, w') ->
  db w' = db w
  \/ exists cause report,
       e = Wrap "insert records" cause
       /\ SettlementReport.FileHash report = sha256_hex data
       /\ settlement_reports (db w') = settlement_reports (db w) ++ [report]
       /\ transactions (db w') = transactions (db w)
       /\ settlement_records (db w') = settlement_records (db w)
       /\ discrepancies (db w') = discrepancies (db w)
       /\ forall processor' format',
            next_call_succeeds w' ->
            ingestion.IngestReport data processor' format' w'
            = (Ok already_ingested, snd (db_call w')).
Proof.
  intros H.
  destruct (report_stored_dec (db w) (sha256_hex data)) as [Hs | Hnew].
  - left. revert H. unfold ingestion.IngestReport. unfold bind at 1.
    destruct (repository.ReportExistsByHash _ w) as [[found|e0] wa] eqn:E1.
    + apply ReportExistsByHash_inv in E1 as [Hdb Hfound].
      apply Hfound in Hs. subst found. discriminate.
    + unfold ret. intros H. inversion H; subst.
      revert E1. unfold repository.ReportExistsByHash, bind.
      pose proof (db_call_world w) as [Hdb _].
      destruct (db_call w) as [failed wa']; simpl in *.
      destruct failed; unfold ret, get_db; intros E1; inversion E1; subst.
      exact Hdb.
  - destruct (IngestReport_new_content data processor format w w' _ H Hnew)
      as [[e0 [_ Hdb]] | (records & report & ioe & w3 & w4 & Hh & _ & _ & Hdb3
                          & Hins & Hres)];
      [left; exact Hdb|].
    destruct ioe as [inserted|cause].
    + destruct Hres as [_ [res [Hr _]]]. discriminate.
    + destruct Hres as [Hr ->]. inversion Hr; subst e.
      apply InsertRecords_failed in Hins.
      right. exists cause, report.
      split; [reflexivity|]. split; [exact Hh|].
      rewrite Hins, Hdb3. simpl.
      repeat (split; [reflexivity|]).
      intros processor' format' Hcall.
      apply IngestReport_seen; [exact Hcall|].
      exists report. split; [|exact Hh].
      rewrite Hins, Hdb3. simpl. apply in_or_app. right. left. reflexivity.
Qed.

(** X6: an ingestion of content not seen before that succeeds stores a
    report with the digest of the content whose [record_count] is
    [records_ingested + duplicates_skipped], neither negative; the table
    of settlement records has grown by [records_ingested]. *)
Theorem IngestReport_totals {stdlib : StdLib} (data : list byte)
    (processor format : string) (w w' : World) (res : ingestion.IngestResult) :
  ingestion.IngestReport data processor format w = (Ok res, w') ->
  ~ report_stored (db w) (sha256_hex data) ->
  parsed_count_fits format data ->
  0 <= ingestion.RecordsIngested res
  /\ 0 <= ingestion.DuplicatesSkipped res
  /\ len (settlement_records (db w'))
     = len (settlement_records (db w)) + ingestion.RecordsIngested res
  /\ exists report,
       In report (settlement_reports (db w'))
       /\ SettlementReport.ID report = ingestion.ReportID res
       /\ SettlementReport.FileHash report = sha256_hex data
       /\ SettlementReport.RecordCount report
          = ingestion.RecordsIngested res + ingestion.DuplicatesSkipped res.
Proof.
  intros H Hnew Hfits.
  destruct (IngestReport_new_content data processor format w w' _ H Hnew)
    as [[e0 [Hr _]] | (records & report & ioe & w3 & w4 & Hh & Hc
                       & (rid & bid & Hp & Hid) & Hdb3 & Hins & Hres)];
    [discriminate|].
  destruct ioe as [inserted|cause]; [|destruct Hres as [Hr _]; discriminate].
  destruct Hres as [-> [res' (Hr & Hrid & Hri & Hds)]].
  inversion Hr; subst res'.
  pose proof (Hfits _ _ _ Hp) as Hlen.
  pose proof (InsertRecords_count records w3 w4 inserted Hins Hlen) as [Hcount Hrange].
  pose proof (keeps_RunFullReconciliation (fun d => len (settlement_records d))
                record_count_stable w4) as Hk1.
  pose proof (keeps_reports_RunFullReconciliation w4) as Hk2.
  pose proof (keeps_reports_InsertRecords records w3) as Hk3.
  rewrite Hins in Hk3. simpl in Hk1, Hk2, Hk3.
  rewrite Hds, Hri, int_sub_small by (pose proof (len_nonneg records); lia).
  split; [lia|]. split; [lia|]. split.
  - rewrite Hk1, Hdb3 in *. simpl in Hcount. lia.
  - exists report. split.
    + rewrite Hk2, Hk3, Hdb3. simpl. apply in_or_app. right. left. reflexivity.
    + split; [congruence|]. split; [exact Hh|]. rewrite Hc. lia.
Qed.

(** ** The match step when every repository call answers *)

Lemma referenced_settle (id : string) (settledAt : Time) (txns : list Transaction.t)
    (processor ref : string) :
  referenced_transaction (settle_rows id settledAt txns) processor ref = None
  <-> referenced_transaction txns processor ref = None.
Proof.
  unfold referenced_transaction, settle_rows.
  induction txns as [|t rest IH]; simpl; [tauto|].
  assert (E : (String.eqb (Transaction.Processor
                             (if String.eqb (Transaction.ID t) id
                              then repository.set_settled settledAt t else t))
                          processor
               && String.eqb (Transaction.ProcessorReference
                                (if String.eqb (Transaction.ID t) id
                                 then repository.set_settled settledAt t else t))
                             ref)
              = (String.eqb (Transaction.Processor t) processor
                 && String.eqb (Transaction.ProcessorReference t) ref))
    by (destruct (String.eqb (Transaction.ID t) id); reflexivity).
  rewrite E.
  destruct (String.eqb (Transaction.Processor t) processor
            && String.eqb (Transaction.ProcessorReference t) ref);
    [split; intros H; discriminate H | exact IH].
Qed.

Lemma match_step_referenced (d : DB) (rec : SettlementRecord.t)
    (processor ref : string) :
  referenced_transaction (transactions (match_step d rec)) processor ref = None
  <-> referenced_transaction (transactions d) processor ref = None.
Proof.
  unfold match_step.
  destruct (referenced_transaction (transactions d) _ _) as [txn|]; [|tauto].
  simpl. apply referenced_settle.
Qed.

Lemma fold_match_step_referenced (unmatched : list SettlementRecord.t) :
  forall d processor ref,
    referenced_transaction (transactions (fold_left match_step unmatched d))
                           processor ref = None
    <-> referenced_transaction (transactions d) processor ref = None.
Proof.
  induction unmatched as [|rec rest IH]; intros d processor ref; simpl; [tauto|].
  rewrite IH. apply match_step_referenced.
Qed.

(** An unlinked row after a turn was there before, and if the turn found a
    transaction the row has another id than the turn's record. *)
Lemma match_step_unlinked (d : DB) (rec : SettlementRecord.t) (r : settlement_row) :
  In r (settlement_records (match_step d rec)) ->
  wakala_transaction_id r = None ->
  In r (settlement_records d)
  /\ (referenced_transaction (transactions d) (SettlementRecord.Processor rec)
                             (SettlementRecord.ProcessorTransactionID rec) <> None ->
      SettlementRecord.ID (row_fields r) <> SettlementRecord.ID rec).
Proof.
  unfold match_step.
  destruct (referenced_transaction (transactions d) _ _) as [txn|];
    [|intros Hin _; split; [exact Hin | intros H; contradiction]].
  simpl. unfold link_rows. intros Hin Hnone.
  apply in_map_iff in Hin as [r0 [He Hin]].
  destruct (String.eqb (SettlementRecord.ID (row_fields r0))
                       (SettlementRecord.ID rec)) eqn:E.
  - subst r. discriminate.
  - subst r0. split; [exact Hin|]. intros _. apply String.eqb_neq, E.
Qed.

Lemma fold_match_step_unlinked (unmatched : list SettlementRecord.t) :
  forall d r,
    In r (settlement_records (fold_left match_step unmatched d)) ->
    wakala_transaction_id r = None ->
    In r (settlement_records d).
Proof.
  induction unmatched as [|rec rest IH]; intros d r Hin Hnone; simpl in Hin;
    [exact Hin|].
  apply IH in Hin; [|exact Hnone].
  apply match_step_unlinked in Hin; [|exact Hnone]. apply Hin.
Qed.

(** After the loop, a row that is still unlinked and whose record the loop
    visited has no transaction under its processor and reference. *)
Lemma fold_match_step_complete (unmatched : list SettlementRecord.t) :
  forall d r,
    In r (settlement_records (fold_left match_step unmatched d)) ->
    wakala_transaction_id r = None ->
    In (repository.scanSettlementRecord r) unmatched ->
    referenced_transaction (transactions (fold_left match_step unmatched d))
      (SettlementRecord.Processor (row_fields r))
      (SettlementRecord.ProcessorTransactionID (row_fields r)) = None.
Proof.
  induction unmatched as [|rec rest IH]; intros d r Hin Hnone Hvisited;
    [destruct Hvisited|].
  simpl in *. destruct Hvisited as [-> | Hrest]; [|apply IH; assumption].
  apply fold_match_step_referenced.
  apply fold_match_step_unlinked in Hin; [|exact Hnone].
  apply match_step_unlinked in Hin as [_ Hmiss]; [|exact Hnone].
  apply match_step_referenced.
  destruct (referenced_transaction (transactions d)
              (SettlementRecord.Processor (repository.scanSettlementRecord r))
              (SettlementRecord.ProcessorTransactionID
                 (repository.scanSettlementRecord r))) as [txn|] eqn:E;
    [|exact E].
  exfalso. apply Hmiss; [discriminate | reflexivity].
Qed.

Section MatchFacts.

Context {stdlib : StdLib}.

Lemma GetByProcessorRef_no_faults (processor ref : string) (w : World) :
  no_faults w ->
  repository.GetByProcessorRef processor ref w
  = (match referenced_transaction (transactions (db w)) processor ref with
     | Some t => Ok t
     | None => Err ErrNoRows
     end, w).
Proof.
  intros Hnf. unfold repository.GetByProcessorRef, bind.
  rewrite (db_call_no_faults w Hnf). unfold get_db, ret, referenced_transaction.
  destruct (List.find _ _); reflexivity.
Qed.

Lemma UpdateWakalaTransactionID_no_faults (recordID txnID : string) (w : World) :
  no_faults w ->
  repository.UpdateWakalaTransactionID recordID txnID w
  = (None, set_db (set_settlement_records
                     (link_rows recordID txnID (settlement_records (db w)))
                     (db w)) w).
Proof.
  intros Hnf. unfold repository.UpdateWakalaTransactionID, bind.
  rewrite (db_call_no_faults w Hnf). reflexivity.
Qed.

Lemma UpdateStatusToSettled_no_faults (id : string) (settledAt : Time) (w : World) :
  no_faults w ->
  repository.UpdateStatusToSettled id settledAt w
  = (None, set_db (set_transactions
                     (settle_rows id settledAt (transactions (db w))) (db w)) w).
Proof.
  intros Hnf. unfold repository.UpdateStatusToSettled, bind.
  rewrite (db_call_no_faults w Hnf). reflexivity.
Qed.

(** The loop of [MatchSettlements] without faults: the database goes
    through [match_step] record by record; clock and schedule stay. *)
Lemma match_loop_no_faults (unmatched : list SettlementRecord.t) :
  forall matched w,
    no_faults w ->
    snd (reconciliation.match_loop unmatched matched w)
    = set_db (fold_left match_step unmatched (db w)) w.
Proof.
  induction unmatched as [|rec rest IH]; intros matched w Hnf; simpl.
  - destruct w; reflexivity.
  - unfold bind at 1. rewrite (GetByProcessorRef_no_faults _ _ w Hnf).
    unfold match_step at 2.
    destruct (referenced_transaction (transactions (db w)) _ _) as [txn|];
      [|apply IH, Hnf].
    unfold bind at 1. rewrite (UpdateWakalaTransactionID_no_faults _ _ w Hnf).
    unfold bind at 1.
    rewrite UpdateStatusToSettled_no_faults by exact Hnf.
    rewrite IH by exact Hnf. reflexivity.
Qed.

Lemma match_loop_all_miss (unmatched : list SettlementRecord.t) :
  forall matched w,
    no_faults w ->
    (forall rec, In rec unmatched ->
       referenced_transaction (transactions (db w))
         (SettlementRecord.Processor rec)
         (SettlementRecord.ProcessorTransactionID rec) = None) ->
    reconciliation.match_loop unmatched matched w = (matched, w).
Proof.
  induction unmatched as [|rec rest IH]; intros matched w Hnf Hmiss; simpl;
    [reflexivity|].
  unfold bind at 1. rewrite (GetByProcessorRef_no_faults _ _ w Hnf).
  rewrite (Hmiss rec) by (left; reflexivity).
  apply IH; [exact Hnf|]. intros rec' Hin. apply Hmiss. right. exact Hin.
Qed.

Lemma GetUnmatchedRecords_no_faults (w : World) :
  no_faults w ->
  repository.GetUnmatchedRecords w = (Ok (unmatched_records (db w)), w).
Proof.
  intros Hnf. unfold repository.GetUnmatchedRecords, bind.
  rewrite (db_call_no_faults w Hnf). reflexivity.
Qed.

Lemma MatchSettlements_no_faults (w : World) :
  no_faults w ->
  snd (reconciliation.MatchSettlements w)
  = set_db (fold_left match_step (unmatched_records (db w)) (db w)) w
  /\ exists n, fst (reconciliation.MatchSettlements w) = Ok n.
Proof.
  intros Hnf. unfold reconciliation.MatchSettlements, bind.
  rewrite (GetUnmatchedRecords_no_faults w Hnf).
  pose proof (match_loop_no_faults (unmatched_records (db w)) 0 w Hnf) as H.
  destruct (reconciliation.match_loop _ 0 w) as [n w1]. simpl in *.
  split; [exact H | eauto].
Qed.

End MatchFacts.

(** X7: when every repository call answers, the match step is complete
    and final: a settlement record that is still unmatched afterwards has
    no transaction under its processor and reference, and a second match
    step right after matches nothing and changes nothing. *)
Theorem MatchSettlements_complete {stdlib : StdLib} (w : World) :
  no_faults w ->
  let w' := snd (reconciliation.MatchSettlements w) in
  (forall r,
     In r (settlement_records (db w')) ->
     wakala_transaction_id r = None ->
     referenced_transaction (transactions (db w'))
       (SettlementRecord.Processor (row_fields r))
       (SettlementRecord.ProcessorTransactionID (row_fields r)) = None)
  /\ reconciliation.MatchSettlements w' = (Ok 0, w').
Proof.
  intros Hnf w'.
  destruct (MatchSettlements_no_faults w Hnf) as [Hw' _].
  fold w' in Hw'.
  assert (Hdb : db w' = fold_left match_step (unmatched_records (db w)) (db w))
    by (rewrite Hw'; reflexivity).
  assert (Hnf' : no_faults w') by (rewrite Hw'; exact Hnf).
  assert (Hcomplete : forall r,
            In r (settlement_records (db w')) ->
            wakala_transaction_id r = None ->
            referenced_transaction (transactions (db w'))
              (SettlementRecord.Processor (row_fields r))
              (SettlementRecord.ProcessorTransactionID (row_fields r)) = None).
  { intros r Hin Hnone. rewrite Hdb in *.
    apply fold_match_step_complete; [exact Hin | exact Hnone|].
    apply fold_match_step_unlinked in Hin; [|exact Hnone].
    unfold unmatched_records. apply in_map, filter_In.
    split; [exact Hin | rewrite Hnone; reflexivity]. }
  split; [exact Hcomplete|].
  unfold reconciliation.MatchSettlements, bind.
  rewrite (GetUnmatchedRecords_no_faults w' Hnf').
  rewrite (match_loop_all_miss (unmatched_records (db w')) 0 w' Hnf');
    [reflexivity|].
  intros rec Hrec. unfold unmatched_records in Hrec.
  apply in_map_iff in Hrec as [r [<- Hr]].
  apply filter_In in Hr as [Hin Hnull].
  apply (Hcomplete r Hin).
  destruct (wakala_transaction_id r); [discriminate | reflexivity].
Qed.

(** ** The links the match step sets *)

Lemma linked_right_settle (id : string) (settledAt : Time)
    (txns : list Transaction.t) (r : settlement_row) :
  linked_right txns r -> linked_right (settle_rows id settledAt txns) r.
Proof.
  unfold linked_right. destruct (wakala_transaction_id r) as [link|]; [|tauto].
  intros (txn & Hin & Hid & Hproc & Href & Hstatus).
  exists (if String.eqb (Transaction.ID txn) id
          then repository.set_settled settledAt txn else txn).
  split.
  - unfold settle_rows. apply in_map_iff. exists txn. split; [reflexivity | exact Hin].
  - destruct (String.eqb (Transaction.ID txn) id); simpl; tauto.
Qed.

Lemma referenced_transaction_some (txns : list Transaction.t)
    (processor ref : string) (txn : Transaction.t) :
  referenced_transaction txns processor ref = Some txn ->
  In txn txns
  /\ Transaction.Processor txn = processor
  /\ Transaction.ProcessorReference txn = ref.
Proof.
  unfold referenced_transaction. intros H.
  apply find_some in H as [Hin Heq].
  apply andb_true_iff in Heq as [Hp Hr].
  apply String.eqb_eq in Hp, Hr. tauto.
Qed.

(** A row after a turn comes from a row before it with the same fields:
    untouched, or linked by this turn to the transaction it found. *)
Lemma match_step_rows (d : DB) (rec : SettlementRecord.t) (r : settlement_row) :
  In r (settlement_records (match_step d rec)) ->
  In r (settlement_records d)
  \/ exists r0 txn,
       In r0 (settlement_records d)
       /\ row_fields r = row_fields r0
       /\ SettlementRecord.ID (row_fields r0) = SettlementRecord.ID rec
       /\ referenced_transaction (transactions d) (SettlementRecord.Processor rec)
            (SettlementRecord.ProcessorTransactionID rec) = Some txn
       /\ wakala_transaction_id r = Some (Transaction.ID txn).
Proof.
  unfold match_step.
  destruct (referenced_transaction (transactions d) _ _) as [txn|] eqn:Href;
    [|left; assumption].
  simpl. unfold link_rows. intros Hin.
  apply in_map_iff in Hin as [r0 [He Hin]].
  destruct (String.eqb (SettlementRecord.ID (row_fields r0))
                       (SettlementRecord.ID rec)) eqn:E.
  - right. exists r0, txn. subst r. simpl.
    apply String.eqb_eq in E. tauto.
  - left. subst r0. exact Hin.
Qed.

Lemma visits_agree_step (unmatched : list SettlementRecord.t)
    (rec : SettlementRecord.t) (d : DB) :
  visits_agree (rec :: unmatched) (settlement_records d) ->
  visits_agree unmatched (settlement_records (match_step d rec)).
Proof.
  intros Hagree rec' r Hrec' Hr Hid.
  apply match_step_rows in Hr as [Hr | (r0 & txn & Hr0 & Hf & _)].
  - apply (Hagree rec' r); [right; exact Hrec' | exact Hr | exact Hid].
  - rewrite Hf in *.
    apply (Hagree rec' r0); [right; exact Hrec' | exact Hr0 | exact Hid].
Qed.

Lemma fold_match_step_links (rows0 : list settlement_row)
    (unmatched : list SettlementRecord.t) :
  forall d,
    visits_agree unmatched (settlement_records d) ->
    (forall r, In r (settlement_records d) ->
               In r rows0 \/ linked_right (transactions d) r) ->
    forall r,
      In r (settlement_records (fold_left match_step unmatched d)) ->
      In r rows0
      \/ linked_right (transactions (fold_left match_step unmatched d)) r.
Proof.
  induction unmatched as [|rec rest IH]; intros d Hagree Hgood; simpl;
    [exact Hgood|].
  apply IH; [apply visits_agree_step, Hagree|].
  intros r Hr.
  pose proof (match_step_rows d rec r Hr) as Hfrom.
  unfold match_step in *.
  destruct (referenced_transaction (transactions d) _ _) as [txn|] eqn:Href;
    [|apply Hgood, Hr].
  simpl in *.
  destruct Hfrom as [Hold | (r0 & txn' & Hr0 & Hf & Hid & Hfound & Hlink)].
  - destruct (Hgood r Hold) as [Hin | Hright]; [left; exact Hin|].
    right. apply linked_right_settle, Hright.
  - right. injection Hfound as <-.
    apply referenced_transaction_some in Href as (Hin & Hproc & Hptid).
    destruct (Hagree rec r0 (or_introl eq_refl) Hr0 Hid) as [Hp Hr'].
    unfold linked_right. rewrite Hlink.
    exists (repository.set_settled (SettlementRecord.SettlementDate rec) txn).
    split.
    + unfold settle_rows. apply in_map_iff. exists txn.
      rewrite String.eqb_refl. split; [reflexivity | exact Hin].
    + simpl. rewrite Hf, Hp, Hr'. tauto.
Qed.

(** X8: when every repository call answers and record ids are unique,
    the match step leaves each settlement row as it was or links it to a
    transaction that is in the store afterwards, has the row's processor
    and processor reference, and is settled. *)
Theorem MatchSettlements_links_right {stdlib : StdLib} (w : World)
    (r : settlement_row) :
  no_faults w ->
  unique_record_ids (db w) ->
  In r (settlement_records (db (snd (reconciliation.MatchSettlements w)))) ->
  In r (settlement_records (db w))
  \/ (wakala_transaction_id r <> None
      /\ linked_right (transactions (db (snd (reconciliation.MatchSettlements w)))) r).
Proof.
  intros Hnf Huniq Hin.
  destruct (MatchSettlements_no_faults w Hnf) as [Hw' _].
  rewrite Hw' in *. simpl in *.
  destruct (wakala_transaction_id r) as [link|] eqn:Hlink.
  - destruct (fold_match_step_links (settlement_records (db w))
                (unmatched_records (db w)) (db w)) with (r := r)
      as [Hold | Hright]; [| |exact Hin|left; exact Hold|].
    + intros rec r' Hrec Hr' Hid. unfold unmatched_records in Hrec.
      apply in_map_iff in Hrec as [r0 [<- Hr0]].
      apply filter_In in Hr0 as [Hr0 _].
      assert (r' = r0) as ->
        by (apply (NoDup_map_inj (fun x => SettlementRecord.ID (row_fields x))
                     (settlement_records (db w))); assumption).
      split; reflexivity.
    + intros r' Hr'. left. exact Hr'.
    + right. split; [discriminate | exact Hright].
  - left. apply (fold_match_step_unlinked (unmatched_records (db w)));
      assumption.
Qed.

(** ** The discrepancy table after a full run *)

Lemma bulk_insert_loop_table_len (discs : list Discrepancy.t) :
  forall table inserted table' inserted',
    repository.bulk_insert_loop discs table inserted = (table', inserted') ->
    0 <= inserted -> inserted + len discs < 2 ^ 63 ->
    len table' = len table + (inserted' - inserted).
Proof.
  induction discs as [|d rest IH]; intros table inserted table' inserted' H H0 Hb.
  - simpl in H. inversion H; subst. lia.
  - simpl in H. change (len (d :: rest)) with (Z.of_nat (S (length rest))) in *.
    pose proof (len_nonneg rest) as Hr. unfold len in Hb, Hr.
    destruct (repository.discrepancy_has_null d || existsb _ table).
    + rewrite int_add_small in H by lia. rewrite Z.add_0_r in H.
      apply IH in H; unfold len in *; lia.
    + rewrite int_add_small in H by lia.
      apply IH in H; [|lia | unfold len; lia].
      rewrite len_app in H. change (len [d]) with 1 in H. lia.
Qed.

Lemma ClearAll_empties (w w' : World) :
  repository.ClearAll w = (None, w') -> discrepancies (db w') = [].
Proof.
  unfold repository.ClearAll, bind.
  destruct (db_call w) as [failed wa]. destruct failed; [discriminate|].
  unfold get_db, put_db, ret. intros H. inversion H; subst. reflexivity.
Qed.

Lemma MatchSettlements_discrepancies {stdlib : StdLib} (w : World) :
  discrepancies (db (snd (reconciliation.MatchSettlements w)))
  = discrepancies (db w).
Proof.
  apply (frames_MatchSettlements (fun d d' => discrepancies d' = discrepancies d)).
  - reflexivity.
  - intros d1 d2 d3 H12 H23. congruence.
  - reflexivity.
  - reflexivity.
Qed.

(** X9: after a successful full run on tables of fewer than 2^61 rows,
    the discrepancy table holds exactly [total_discrepancies] rows: what
    was there before the run is gone and each detector's count is the
    number of rows it added. *)
Theorem RunFullReconciliation_total_stored {stdlib : StdLib} (w w' : World)
    (r : reconciliation.ReconciliationResult) :
  reconciliation.RunFullReconciliation w = (Ok r, w') ->
  len (transactions (db w)) < 2 ^ 61 ->
  len (settlement_records (db w)) < 2 ^ 61 ->
  len (discrepancies (db w')) = reconciliation.TotalDiscrepancies r.
Proof.
  set (txns := fun d : DB => len (transactions d)).
  set (recs := fun d : DB => len (settlement_records d)).
  change (len (transactions (db w))) with (txns (db w)).
  change (len (settlement_records (db w))) with (recs (db w)).
  unfold reconciliation.RunFullReconciliation.
  unfold bind at 1.
  pose proof (keeps_ClearAll txns transaction_count_stable w) as T1.
  pose proof (keeps_ClearAll recs record_count_stable w) as R1.
  destruct (repository.ClearAll w) as [[e|] w1] eqn:E1; [discriminate|].
  apply ClearAll_empties in E1.
  simpl in T1, R1. unfold bind at 1.
  pose proof (keeps_MatchSettlements txns transaction_count_stable w1) as T2.
  pose proof (keeps_MatchSettlements recs record_count_stable w1) as R2.
  pose proof (MatchSettlements_discrepancies w1) as D2.
  destruct (reconciliation.MatchSettlements w1) as [[matched|e] w2]; [|discriminate].
  simpl in T2, R2, D2. unfold bind at 1.
  pose proof (keeps_DetectMissingSettlements recs record_count_stable w2) as R3.
  destruct (reconciliation.DetectMissingSettlements w2) as [[missing|e] w3] eqn:E3;
    [|discriminate].
  simpl in R3. unfold bind at 1.
  pose proof (keeps_DetectAmountMismatches recs record_count_stable w3) as R4.
  destruct (reconciliation.DetectAmountMismatches w3) as [[mismatches|e] w4] eqn:E4;
    [|discriminate].
  simpl in R4. unfold bind at 1.
  destruct (reconciliation.DetectOrphanedSettlements w4) as [[orphaned|e] w5] eqn:E5;
    [|discriminate].
  unfold ret. intros H Ht Hr. inversion H; subst; simpl.
  apply DetectMissingSettlements_inserts in E3.
  apply DetectAmountMismatches_inserts in E4.
  apply DetectOrphanedSettlements_inserts in E5.
  pose proof (emitted_missing_len w2) as L3.
  pose proof (emitted_mismatches_len w3) as L4.
  pose proof (emitted_orphans_len w4) as L5.
  fold (txns (db w2)) in L3. fold (recs (db w3)) in L4. fold (recs (db w4)) in L5.
  assert (Hm : 0 <= missing <= txns (db w))
    by (apply (detector_count _ _ _ _ _ E3); lia).
  assert (Ha : 0 <= mismatches <= recs (db w))
    by (apply (detector_count _ _ _ _ _ E4); lia).
  assert (Ho : 0 <= orphaned <= recs (db w))
    by (apply (detector_count _ _ _ _ _ E5); lia).
  apply bulk_insert_loop_table_len in E3; [|lia|lia].
  apply bulk_insert_loop_table_len in E4; [|lia|lia].
  apply bulk_insert_loop_table_len in E5; [|lia|lia].
  rewrite D2, E1 in E3. change (len []) with 0 in E3.
  rewrite (int_add_small missing mismatches) by lia.
  rewrite int_add_small by lia. lia.
Qed.

(** ** What the parsers hand over *)

Lemma last_batch_snoc (records : list SettlementRecord.t)
    (rec : SettlementRecord.t) :
  last_batch (records ++ [rec]) = SettlementRecord.BatchID rec.
Proof.
  unfold last_batch. rewrite List.map_app. simpl. apply last_last.
Qed.

Lemma ToUSD_rate (amount : float64) (code : string) (usd : float64) :
  supported code ->
  currency.ToUSD amount code = Ok usd -> usd = div amount (fixed_rate code).
Proof.
  intros Hs. unfold currency.ToUSD. rewrite (ratesPerUSD_supported code Hs).
  intros H. inversion H. reflexivity.
Qed.

Section ParserOutput.

Context {stdlib : StdLib} (reportID : string).

Lemma afripay_loop_normalised (pending : list (result (list string))) :
  forall fpr lineNum records batchID records' batchID',
    ingestion.afripay_loop pending fpr reportID lineNum records batchID
    = Ok (records', batchID') ->
    Forall (normalised reportID ProcessorAfriPay "KES" (dec 1295 1)) records ->
    batchID = last_batch records ->
    Forall (normalised reportID ProcessorAfriPay "KES" (dec 1295 1)) records'
    /\ batchID' = last_batch records'.
Proof.
  induction pending as [|raw pending IH];
    intros fpr lineNum records batchID records' batchID' H HF Hb; simpl in H.
  - inversion H; subst. split; [exact HF | reflexivity].
  - destruct (csv.readRecord fpr raw) as [[row|e] fpr']; [|discriminate].
    destruct (len row <? 7); [eapply IH; eassumption|].
    destruct (ParseFloat (TrimSpace (ingestion.field row 3))) as [gross|e];
      [|discriminate].
    destruct (ParseFloat (TrimSpace (ingestion.field row 4))) as [fee|e];
      [|discriminate].
    destruct (ParseFloat (TrimSpace (ingestion.field row 5))) as [net|e];
      [|discriminate].
    destruct (match time_Parse layout_date (TrimSpace (ingestion.field row 2)) with
              | Ok t => Ok t
              | Err _ => time_Parse RFC3339 (TrimSpace (ingestion.field row 2))
              end) as [settleDate|e]; [|discriminate].
    destruct (currency.ToUSD gross "KES") as [usdGross|e] eqn:Eg; [|discriminate].
    destruct (currency.ToUSD net "KES") as [usdNet|e] eqn:En; [|discriminate].
    apply ToUSD_rate in Eg; [|right; left; reflexivity].
    apply ToUSD_rate in En; [|right; left; reflexivity].
    eapply IH; [exact H | | symmetry; apply last_batch_snoc].
    apply Forall_app. split; [exact HF|].
    constructor; [|constructor]. subst usdGross usdNet. repeat split.
Qed.

Lemma capepay_loop_normalised (pending : list (result (list string))) :
  forall fpr lineNum records batchID records' batchID',
    ingestion.capepay_loop pending fpr reportID lineNum records batchID
    = Ok (records', batchID') ->
    Forall (normalised reportID ProcessorCapePay "ZAR" (dec 186 1)) records ->
    batchID = last_batch records ->
    Forall (normalised reportID ProcessorCapePay "ZAR" (dec 186 1)) records'
    /\ batchID' = last_batch records'.
Proof.
  induction pending as [|raw pending IH];
    intros fpr lineNum records batchID records' batchID' H HF Hb; simpl in H.
  - inversion H; subst. split; [exact HF | reflexivity].
  - destruct (csv.readRecord fpr raw) as [[row|e] fpr']; [|discriminate].
    destruct (len row <? 7); [eapply IH; eassumption|].
    destruct (ParseFloat (TrimSpace (ingestion.field row 3))) as [amount|e];
      [|discriminate].
    destruct (ParseFloat (TrimSpace (ingestion.field row 4))) as [deductions|e];
      [|discriminate].
    destruct (ParseFloat (TrimSpace (ingestion.field row 5))) as [net|e];
      [|discriminate].
    destruct (match time_Parse layout_date (TrimSpace (ingestion.field row 2)) with
              | Ok t => Ok t
              | Err _ => time_Parse RFC3339 (TrimSpace (ingestion.field row 2))
              end) as [settleDate|e]; [|discriminate].
    destruct (currency.ToUSD amount "ZAR") as [usdGross|e] eqn:Eg; [|discriminate].
    destruct (currency.ToUSD net "ZAR") as [usdNet|e] eqn:En; [|discriminate].
    apply ToUSD_rate in Eg; [|right; right; right; reflexivity].
    apply ToUSD_rate in En; [|right; right; right; reflexivity].
    eapply IH; [exact H | | symmetry; apply last_batch_snoc].
    apply Forall_app. split; [exact HF|].
    constructor; [|constructor]. subst usdGross usdNet. repeat split.
Qed.

Lemma naira_loop_normalised (batchID : string)
    (entries : list nairaGatewayEntry.t) :
  forall i records records',
    ingestion.naira_loop entries i reportID batchID records = Ok records' ->
    Forall (fun rec => normalised reportID ProcessorNairaGateway "NGN"
                         (dec 15800 1) rec
                       /\ SettlementRecord.BatchID rec = batchID) records ->
    Forall (fun rec => normalised reportID ProcessorNairaGateway "NGN"
                         (dec 15800 1) rec
                       /\ SettlementRecord.BatchID rec = batchID) records'.
Proof.
  induction entries as [|entry rest IH]; intros i records records' H HF;
    simpl in H.
  - inversion H; subst. exact HF.
  - destruct (match time_Parse RFC3339 (nairaGatewayEntry.SettledAt entry) with
              | Ok t => Ok t
              | Err _ => time_Parse layout_offset (nairaGatewayEntry.SettledAt entry)
              end) as [settledAt|e]; [|discriminate].
    destruct (currency.ToUSD (nairaGatewayEntry.AmountNGN entry) "NGN")
      as [usdGross|e] eqn:Eg; [|discriminate].
    destruct (currency.ToUSD (nairaGatewayEntry.PayoutNGN entry) "NGN")
      as [usdNet|e] eqn:En; [|discriminate].
    apply ToUSD_rate in Eg; [|right; right; left; reflexivity].
    apply ToUSD_rate in En; [|right; right; left; reflexivity].
    eapply IH; [exact H|].
    apply Forall_app. split; [exact HF|].
    constructor; [|constructor]. subst usdGross usdNet. repeat split.
Qed.

End ParserOutput.

(** X10: every record a parser hands over belongs to the report being
    read, has the processor and the currency of its format (afripay and
    KES, nairagateway and NGN, capepay and ZAR), is linked to no
    transaction, and has USD gross and net amounts that are the local
    amounts divided by the fixed rate of that currency.  The batch id
    returned with a CSV is that of its last record; the batch id of a JSON
    file is on each of its records. *)
Theorem parsers_normalise {stdlib : StdLib} (format : string) (data : list byte)
    (reportID : string) (records : list SettlementRecord.t) (batchID : string) :
  ingestion.parse_by_format format data reportID = Some (Ok (records, batchID)) ->
  Forall (normalised reportID (format_processor format) (format_currency format)
                     (fixed_rate (format_currency format)))
         records
  /\ (format = "json_b" ->
      Forall (fun rec => SettlementRecord.BatchID rec = batchID) records)
  /\ (format <> "json_b" -> batchID = last_batch records).
Proof.
  unfold ingestion.parse_by_format, format_processor, format_currency.
  destruct (String.eqb format "csv_a") eqn:Ea.
  { apply String.eqb_eq in Ea. subst format. intros H. inversion H as [Hp].
    unfold ingestion.ParseAfriPayCSV in Hp.
    destruct (csv_records _ _ _) as [|raw pending]; [discriminate|].
    destruct (csv.readRecord 0 raw) as [[header|e] fpr]; [|discriminate].
    destruct (len header <? 7); [discriminate|].
    apply afripay_loop_normalised in Hp as [HF Hb];
      [|constructor | reflexivity].
    split; [exact HF|]. split; [discriminate | intros _; exact Hb]. }
  destruct (String.eqb format "json_b") eqn:Eb.
  { apply String.eqb_eq in Eb. subst format. intros H. inversion H as [Hp].
    unfold ingestion.ParseNairaGatewayJSON in Hp.
    destruct (json_Unmarshal data) as [file|e]; [|discriminate].
    destruct (ingestion.naira_loop _ _ _ _ _) as [recs|e] eqn:El; [|discriminate].
    inversion Hp; subst.
    apply naira_loop_normalised in El; [|constructor].
    split; [|split; [intros _ | intros Hne; contradiction]].
    - eapply List.Forall_impl; [|exact El]. intros rec [Hn _]. exact Hn.
    - eapply List.Forall_impl; [|exact El]. intros rec [_ Hbatch]. exact Hbatch. }
  destruct (String.eqb format "csv_c") eqn:Ec; [|discriminate].
  apply String.eqb_eq in Ec. subst format. intros H. inversion H as [Hp].
  unfold ingestion.ParseCapePayCSV in Hp.
  destruct (csv_records _ _ _) as [|raw pending]; [discriminate|].
  destruct (csv.readRecord 0 raw) as [[header|e] fpr]; [|discriminate].
  destruct (len header <? 7); [discriminate|].
  apply capepay_loop_normalised in Hp as [HF Hb];
    [|constructor | reflexivity].
  split; [exact HF|]. split; [discriminate | intros _; exact Hb].
Qed.

(** ** Which transactions are reported missing *)

Lemma insert_by_created_In_iff {stdlib : StdLib} (t u : Transaction.t)
    (l : list Transaction.t) :
  In u (repository.insert_by_created t l) <-> u = t \/ In u l.
Proof.
  split; [apply insert_by_created_In|].
  induction l as [|v l IH]; simpl.
  - intros [-> | []]. left. reflexivity.
  - destruct (String.leb _ _); simpl.
    + intros [-> | [-> | H]]; auto.
    + intros [-> | [-> | H]]; auto.
Qed.

Lemma order_by_created_In_iff {stdlib : StdLib} (u : Transaction.t)
    (l : list Transaction.t) :
  In u (repository.order_by_created l) <-> In u l.
Proof.
  unfold repository.order_by_created.
  induction l as [|t l IH]; simpl; [tauto|].
  rewrite insert_by_created_In_iff, IH. split; intros [H | H]; auto.
Qed.


(** The rows of the table after the insert-or-ignore of [BulkInsert]:
    the rows before, then some of the new ones; a new one without a NULL
    that is left out has its id in the table already. *)
Lemma bulk_insert_loop_covers (discs : list Discrepancy.t) :
  forall table inserted table' inserted',
    repository.bulk_insert_loop discs table inserted = (table', inserted') ->
    (forall d, In d table -> In d table')
    /\ (forall d, In d discs ->
          repository.discrepancy_has_null d = false ->
          exists d', In d' table' /\ Discrepancy.ID d' = Discrepancy.ID d)
    /\ (forall d, In d table' -> In d table \/ In d discs).
Proof.
  induction discs as [|d rest IH]; intros table inserted table' inserted' H;
    simpl in H.
  - inversion H; subst. repeat split; auto. intros d [].
  - destruct (repository.discrepancy_has_null d) eqn:En; simpl orb in H.
    { apply IH in H as (Hold & Hnew & Hfrom). split; [exact Hold|]. split.
      - intros d0 [<- | Hin] Hn; [congruence | apply Hnew; assumption].
      - intros d0 Hin. destruct (Hfrom d0 Hin); [left | right; right]; assumption. }
    destruct (existsb _ table) eqn:E.
    + apply IH in H as (Hold & Hnew & Hfrom). split; [exact Hold|]. split.
      * intros d0 [<- | Hin] Hn; [|apply Hnew; assumption].
        apply existsb_exists in E as [d' [Hin' Hid]].
        apply String.eqb_eq in Hid. exists d'. split; [apply Hold, Hin' | exact Hid].
      * intros d0 Hin. destruct (Hfrom d0 Hin); [left | right; right]; assumption.
    + apply IH in H as (Hold & Hnew & Hfrom). split; [|split].
      * intros d0 Hin. apply Hold, in_or_app. left. exact Hin.
      * intros d0 [<- | Hin] Hn; [|apply Hnew; assumption].
        exists d. split; [|reflexivity].
        apply Hold, in_or_app. right. left. reflexivity.
      * intros d0 Hin. destruct (Hfrom d0 Hin) as [Ht | Hr]; [|right; right; exact Hr].
        apply in_app_or in Ht as [Ht | [<- | []]]; [left; exact Ht | right; left; reflexivity].
Qed.

Section MissingSelection.

Context {stdlib : StdLib}.

Lemma settlementWindowHours_env (w w0 : World) :
  env_SETTLEMENT_WINDOW_HOURS w0 = env_SETTLEMENT_WINDOW_HOURS w ->
  fst (reconciliation.settlementWindowHours w0)
  = fst (reconciliation.settlementWindowHours w).
Proof.
  unfold reconciliation.settlementWindowHours, bind, Getenv_SETTLEMENT_WINDOW_HOURS.
  intros ->.
  destruct (negb _); [|reflexivity].
  destruct (Atoi _) as [h|e]; [|reflexivity].
  destruct (0 <? h); reflexivity.
Qed.

Lemma GetCapturedWithoutSettlement_selects (cutoff : Time) (w w' : World)
    (txns : list Transaction.t) :
  repository.GetCapturedWithoutSettlement cutoff w = (Ok txns, w') ->
  forall t, In t txns
            <-> In t (transactions (db w)) /\ overdue_unsettled (db w) cutoff t.
Proof.
  unfold repository.GetCapturedWithoutSettlement, bind.
  pose proof (db_call_world w) as [Hdb _].
  destruct (db_call w) as [failed wa]; simpl in *.
  destruct failed; unfold ret, get_db; [discriminate|].
  intros H t. inversion H; subst. rewrite Hdb.
  rewrite order_by_created_In_iff, filter_In.
  rewrite !andb_true_iff, negb_true_iff, String.eqb_eq.
  unfold overdue_unsettled.
  assert (Hcap : match Transaction.CapturedAt t with
                 | Some c =>
                     String.ltb (column_text c) (time_Format_RFC3339 cutoff)
                 | None => false
                 end = true
                 <-> exists c, Transaction.CapturedAt t = Some c
                               /\ String.ltb (column_text c)
                                             (time_Format_RFC3339 cutoff) = true).
  { destruct (Transaction.CapturedAt t) as [c|]; split.
    - intros Hc. exists c. split; [reflexivity | exact Hc].
    - intros [c' [Hc' Hlt]]. inversion Hc'; subst. exact Hlt.
    - discriminate.
    - intros [c' [Hc' _]]. discriminate. }
  assert (Hlink : existsb
                    (fun r0 => match wakala_transaction_id r0 with
                               | Some id => String.eqb id (Transaction.ID t)
                               | None => false
                               end) (settlement_records (db w)) = false
                  <-> forall r, In r (settlement_records (db w)) ->
                                wakala_transaction_id r <> Some (Transaction.ID t)).
  { split.
    - intros Hex r Hin Hl.
      assert (Htrue : existsb
                        (fun r0 => match wakala_transaction_id r0 with
                                   | Some id => String.eqb id (Transaction.ID t)
                                   | None => false
                                   end) (settlement_records (db w)) = true).
      { apply existsb_exists. exists r. split; [exact Hin|].
        rewrite Hl. apply String.eqb_refl. }
      congruence.
    - intros Hnone.
      destruct (existsb _ (settlement_records (db w))) eqn:E; [|reflexivity].
      apply existsb_exists in E as [r [Hin Hl]].
      exfalso. apply (Hnone r Hin).
      destruct (wakala_transaction_id r) as [id|]; [|discriminate].
      apply String.eqb_eq in Hl. subst. reflexivity. }
  rewrite Hcap, Hlink. unfold StatusCaptured. tauto.
Qed.

Lemma missing_loop_rows (txns : list Transaction.t) :
  forall discs w,
    exists built,
      fst (reconciliation.missing_loop txns discs w) = discs ++ built
      /\ Forall2 missing_row txns built.
Proof.
  induction txns as [|txn rest IH]; intros discs w; simpl.
  - exists []. split; [symmetry; apply app_nil_r | constructor].
  - unfold bind at 1, time_Now at 1.
    match goal with
    | |- context [reconciliation.missing_loop rest (discs ++ [?d]) ?w'] =>
        destruct (IH (discs ++ [d]) w') as [built [Hb HF]];
        exists (d :: built)
    end.
    split.
    + rewrite Hb, <- app_assoc. reflexivity.
    + constructor; [|exact HF]. repeat split.
Qed.

Lemma missing_selection (w w' : World) (n : int) :
  reconciliation.DetectMissingSettlements w = (Ok n, w') ->
  exists txns,
    Forall2 missing_row txns (emitted_missing w)
    /\ forall t, In t txns
                 <-> In t (transactions (db w))
                     /\ overdue_unsettled (db w) (settlement_cutoff w) t.
Proof.
  unfold reconciliation.DetectMissingSettlements, emitted_missing, settlement_cutoff.
  unfold bind at 1. unfold time_Now.
  unfold bind at 1.
  pose proof (settlementWindowHours_world
                {| db := db w; clock := clock w + 1; faults := faults w;
                   env_SETTLEMENT_WINDOW_HOURS := env_SETTLEMENT_WINDOW_HOURS w |})
    as Hw.
  pose proof (settlementWindowHours_env w
                {| db := db w; clock := clock w + 1; faults := faults w;
                   env_SETTLEMENT_WINDOW_HOURS := env_SETTLEMENT_WINDOW_HOURS w |}
                eq_refl) as Hwin.
  destruct (reconciliation.settlementWindowHours _) as [window w2].
  simpl in Hw, Hwin. subst w2. rewrite <- Hwin.
  unfold bind at 1.
  destruct (repository.GetCapturedWithoutSettlement _ _) as [[txns|e] w3] eqn:E;
    [|discriminate].
  intros _.
  pose proof (GetCapturedWithoutSettlement_selects _ _ _ _ E) as Hsel.
  simpl in Hsel.
  destruct (missing_loop_rows txns [] w3) as [built [Hb HF]].
  exists txns. rewrite Hb. simpl. split; [exact HF | exact Hsel].
Qed.


End MissingSelection.


(** The comparison is on text cut to the second: a transaction captured
    half a second before the cutoff is not reported. *)
Lemma DetectMissingSettlements_same_second :
  1704703600000000000
  < settlement_cutoff (stdlib := Example.lib) Cases.world_same_second
  /\ fst (reconciliation.DetectMissingSettlements (stdlib := Example.lib)
                                                  Cases.world_same_second)
     = Ok 0.
Proof. split; vm_compute; reflexivity. Qed.

(** ** What the discrepancy table holds after a full run *)

Section ReportFacts.

Context {stdlib : StdLib}.

Lemma GetByID_inv (id : string) (w : World) :
  db (snd (repository.GetByID id w)) = db w
  /\ forall txn,
       fst (repository.GetByID id w) = Ok txn ->
       List.find (fun t => String.eqb (Transaction.ID t) id) (transactions (db w))
       = Some txn.
Proof.
  unfold repository.GetByID, bind.
  pose proof (db_call_world w) as [Hdb _].
  destruct (db_call w) as [failed wa]; simpl in Hdb.
  destruct failed; unfold ret, get_db; simpl.
  - split; [exact Hdb | discriminate].
  - rewrite Hdb. destruct (List.find _ _) as [t|]; simpl.
    + split; [exact Hdb|]. intros txn H. inversion H. reflexivity.
    + split; [exact Hdb | discriminate].
Qed.

(** Whatever fails, a discrepancy the loop of [DetectAmountMismatches]
    builds is that of a record it was given and of the transaction the
    record links to, a pair that is not within tolerance. *)
Lemma mismatch_loop_sound (d0 : DB) (matched : list SettlementRecord.t) :
  forall discs w d,
    db w = d0 ->
    In d (fst (reconciliation.mismatch_loop matched discs w)) ->
    In d discs
    \/ exists rec txn,
         In rec matched
         /\ linked_transaction d0 rec = Some txn
         /\ tolerated (Transaction.USDAmount txn)
                      (SettlementRecord.USDGrossAmount rec) = false
         /\ mismatch_of (txn, rec) d.
Proof.
  induction matched as [|rec rest IH]; intros discs w d Hdb; simpl.
  - intros Hin. left. exact Hin.
  - unfold bind at 1.
    destruct (GetByID_inv (SettlementRecord.WakalaTransactionID rec) w)
      as [Hdb1 Hfind].
    destruct (repository.GetByID _ w) as [[txn|e] w1]; simpl in Hdb1, Hfind.
    2:{ intros Hin. apply IH in Hin; [|congruence].
        destruct Hin as [Hin | (rec' & txn' & Hr & Hrest)]; [left; exact Hin|].
        right. exists rec', txn'. split; [right; exact Hr | exact Hrest]. }
    specialize (Hfind txn eq_refl). rewrite Hdb in Hfind.
    destruct (gtb (Transaction.USDAmount txn) zero && _) eqn:Erel.
    { intros Hin. apply IH in Hin; [|congruence].
      destruct Hin as [Hin | (rec' & txn' & Hr & Hrest)]; [left; exact Hin|].
      right. exists rec', txn'. split; [right; exact Hr | exact Hrest]. }
    destruct (ltb _ (dec 10 2)) eqn:Eabs.
    { intros Hin. apply IH in Hin; [|congruence].
      destruct Hin as [Hin | (rec' & txn' & Hr & Hrest)]; [left; exact Hin|].
      right. exists rec', txn'. split; [right; exact Hr | exact Hrest]. }
    unfold bind at 1, time_Now at 1.
    intros Hin. apply IH in Hin; [|simpl; congruence].
    destruct Hin as [Hin | (rec' & txn' & Hr & Hrest)].
    + apply in_app_or in Hin as [Hin | [<- | []]]; [left; exact Hin|].
      right. exists rec, txn. split; [left; reflexivity|].
      split; [exact Hfind|]. split.
      * unfold tolerated, abs_diff. rewrite Erel, Eabs. reflexivity.
      * repeat split.
    + right. exists rec', txn'. split; [right; exact Hr | exact Hrest].
Qed.

Lemma emitted_mismatches_sound (w : World) (d : Discrepancy.t) :
  In d (emitted_mismatches w) ->
  exists r txn,
    In r (settlement_records (db w))
    /\ wakala_transaction_id r <> None
    /\ linked_transaction (db w) (repository.scanSettlementRecord r) = Some txn
    /\ tolerated (Transaction.USDAmount txn)
                 (SettlementRecord.USDGrossAmount (row_fields r)) = false
    /\ mismatch_of (txn, repository.scanSettlementRecord r) d.
Proof.
  unfold emitted_mismatches, repository.GetMatchedRecords, bind.
  pose proof (db_call_world w) as [Hdb _].
  destruct (db_call w) as [failed wa]; simpl in Hdb.
  destruct failed; unfold ret, get_db; [intros []|].
  rewrite Hdb. intros Hin.
  apply (mismatch_loop_sound (db w)) in Hin; [|exact Hdb].
  destruct Hin as [[] | (rec & txn & Hrec & Hlink & Htol & Hm)].
  apply in_map_iff in Hrec as [r [<- Hr]].
  apply filter_In in Hr as [Hr Hlinked].
  exists r, txn. split; [exact Hr|]. split.
  - destruct (wakala_transaction_id r); [discriminate | discriminate Hlinked].
  - auto.
Qed.

Lemma emitted_orphans_sound (w : World) (d : Discrepancy.t) :
  In d (emitted_orphans w) ->
  exists r,
    In r (settlement_records (db w))
    /\ wakala_transaction_id r = None
    /\ orphan_of (repository.scanSettlementRecord r) d.
Proof.
  unfold emitted_orphans.
  destruct (repository.GetUnmatchedRecords w) as [[unmatched|e] w1] eqn:E;
    [|intros []].
  apply GetUnmatchedRecords_inv in E as [-> _].
  destruct (orphaned_loop_rows (unmatched_records (db w)) [] w1)
    as [built [Hb HF]].
  rewrite Hb. simpl. intros Hin.
  destruct (Forall2_In_r _ _ _ d HF Hin) as [rec [Hrec Ho]].
  unfold unmatched_records in Hrec.
  apply in_map_iff in Hrec as [r [<- Hr]].
  apply filter_In in Hr as [Hr Hnull].
  exists r. split; [exact Hr|]. split; [|apply Ho].
  destruct (wakala_transaction_id r); [discriminate | reflexivity].
Qed.

End ReportFacts.

(** X12: after a successful full run every row of the discrepancy table
    is backed by the tables as the run leaves them.  It is the
    MISSING_SETTLEMENT discrepancy of a captured transaction that no
    settlement row links to, or the AMOUNT_MISMATCH discrepancy of a
    linked settlement row and the transaction its link finds, a pair
    outside the tolerance, or the ORPHANED_SETTLEMENT discrepancy of a
    settlement row without a link.  Nothing of the table before the run
    is left. *)
Theorem RunFullReconciliation_report_sound {stdlib : StdLib} (w w' : World)
    (res : reconciliation.ReconciliationResult) (d : Discrepancy.t) :
  reconciliation.RunFullReconciliation w = (Ok res, w') ->
  In d (discrepancies (db w')) ->
  (exists txn,
     In txn (transactions (db w'))
     /\ Transaction.Status txn = StatusCaptured
     /\ (forall r, In r (settlement_records (db w')) ->
                   wakala_transaction_id r <> Some (Transaction.ID txn))
     /\ missing_of txn d)
  \/ (exists r txn,
        In r (settlement_records (db w'))
        /\ wakala_transaction_id r <> None
        /\ linked_transaction (db w') (repository.scanSettlementRecord r) = Some txn
        /\ tolerated (Transaction.USDAmount txn)
                     (SettlementRecord.USDGrossAmount (row_fields r)) = false
        /\ mismatch_of (txn, repository.scanSettlementRecord r) d)
  \/ (exists r,
        In r (settlement_records (db w'))
        /\ wakala_transaction_id r = None
        /\ orphan_of (repository.scanSettlementRecord r) d).
Proof.
  unfold reconciliation.RunFullReconciliation.
  unfold bind at 1.
  destruct (repository.ClearAll w) as [[e|] w1] eqn:E1; [discriminate|].
  apply ClearAll_empties in E1.
  unfold bind at 1.
  pose proof (MatchSettlements_discrepancies w1) as D2.
  destruct (reconciliation.MatchSettlements w1) as [[matched|e] w2]; [|discriminate].
  simpl in D2. rewrite E1 in D2. unfold bind at 1.
  pose proof (frames_DetectMissingSettlements only_discrepancies
                only_discrepancies_refl only_discrepancies_trans
                only_discrepancies_set w2) as (T3 & _ & R3).
  destruct (reconciliation.DetectMissingSettlements w2) as [[missing|e] w3] eqn:E3;
    [|discriminate].
  simpl in T3, R3. unfold bind at 1.
  pose proof (frames_DetectAmountMismatches only_discrepancies
                only_discrepancies_refl only_discrepancies_trans
                only_discrepancies_set w3) as (T4 & _ & R4).
  destruct (reconciliation.DetectAmountMismatches w3) as [[mismatches|e] w4] eqn:E4;
    [|discriminate].
  simpl in T4, R4. unfold bind at 1.
  pose proof (frames_DetectOrphanedSettlements only_discrepancies
                only_discrepancies_refl only_discrepancies_trans
                only_discrepancies_set w4) as (T5 & _ & R5).
  destruct (reconciliation.DetectOrphanedSettlements w4) as [[orphaned|e] w5] eqn:E5;
    [|discriminate].
  simpl in T5, R5.
  unfold ret. intros H Hd. inversion H; subst w'. clear H.
  destruct (missing_selection w2 w3 missing E3) as [txns [HF Hsel]].
  apply DetectMissingSettlements_inserts, bulk_insert_loop_covers in E3
    as (_ & _ & Hfrom3).
  apply DetectAmountMismatches_inserts, bulk_insert_loop_covers in E4
    as (_ & _ & Hfrom4).
  apply DetectOrphanedSettlements_inserts, bulk_insert_loop_covers in E5
    as (_ & _ & Hfrom5).
  assert (Ht : transactions (db w5) = transactions (db w2)) by congruence.
  assert (Hr : settlement_records (db w5) = settlement_records (db w2))
    by congruence.
  destruct (Hfrom5 d Hd) as [Hd4 | Horphan].
  - destruct (Hfrom4 d Hd4) as [Hd3 | Hmismatch].
    + destruct (Hfrom3 d Hd3) as [Hd2 | Hmissing];
        [rewrite D2 in Hd2; destruct Hd2|].
      left. destruct (Forall2_In_r _ _ _ d HF Hmissing) as [txn [Htxn [Hm _]]].
      apply Hsel in Htxn as [Hin (Hcap & _ & Hfree)].
      exists txn. rewrite Ht, Hr. auto.
    + right. left.
      destruct (emitted_mismatches_sound w3 d Hmismatch)
        as (r & txn & Hin & Hlinked & Hlink & Htol & Hm).
      exists r, txn. unfold linked_transaction in *.
      rewrite Ht, Hr, <- T3, <- R3. auto.
  - right. right.
    destruct (emitted_orphans_sound w4 d Horphan) as (r & Hin & Hnull & Ho).
    exists r. rewrite Hr, <- R3, <- R4. auto.
Qed.

(** ** What a successful full run does not leave out *)

Section Timeless.

Context {stdlib : StdLib}.










End Timeless.


(** ** The further properties on the examples *)

(** The two records of the mixed example, inserted and inserted again. *)
Lemma InsertRecords_again_witness :
  repository.InsertRecords [Example.rec1; Example.rec2] Cases.world_reports
  = (Ok 2, Cases.world_inserted)
  /\ repository.InsertRecords [Example.rec1; Example.rec2] Cases.world_inserted
     = (Ok 0, snd (db_call Cases.world_inserted)).
Proof.
  assert (H1 : repository.InsertRecords [Example.rec1; Example.rec2]
                 Cases.world_reports
               = (Ok 2, Cases.world_inserted))
    by (vm_compute; reflexivity).
  split; [exact H1|].
  exact (proj1 (InsertRecords_again [Example.rec1; Example.rec2]
                  Cases.world_reports Cases.world_inserted 2 H1 eq_refl)).
Defined.

(** An ingestion whose insert of the records fails: the report stays. *)
Lemma IngestReport_failure_witness :
  ingestion.IngestReport (stdlib := Example.lib) Example.afripay_good
                         "afripay" "csv_a" Cases.world_records_fail
  = (Err (Wrap "insert records" ErrStore), Cases.world_records_failed)
  /\ len (settlement_reports (db Cases.world_records_failed)) = 1
  /\ (db Cases.world_records_failed = db Cases.world_records_fail
      \/ exists cause report,
           Wrap "insert records" ErrStore = Wrap "insert records" cause
           /\ SettlementReport.FileHash report
              = sha256_hex (StdLib := Example.lib) Example.afripay_good
           /\ settlement_reports (db Cases.world_records_failed)
              = settlement_reports (db Cases.world_records_fail) ++ [report]
           /\ transactions (db Cases.world_records_failed)
              = transactions (db Cases.world_records_fail)
           /\ settlement_records (db Cases.world_records_failed)
              = settlement_records (db Cases.world_records_fail)
           /\ discrepancies (db Cases.world_records_failed)
              = discrepancies (db Cases.world_records_fail)
           /\ forall processor' format',
                next_call_succeeds Cases.world_records_failed ->
                ingestion.IngestReport (stdlib := Example.lib) Example.afripay_good
                                       processor' format' Cases.world_records_failed
                = (Ok already_ingested, snd (db_call Cases.world_records_failed))).
Proof.
  assert (H1 : ingestion.IngestReport (stdlib := Example.lib) Example.afripay_good
                 "afripay" "csv_a" Cases.world_records_fail
               = (Err (Wrap "insert records" ErrStore), Cases.world_records_failed))
    by (vm_compute; reflexivity).
  split; [exact H1|]. split; [reflexivity|].
  exact (IngestReport_failure (stdlib := Example.lib) Example.afripay_good
           "afripay" "csv_a" Cases.world_records_fail Cases.world_records_failed
           (Wrap "insert records" ErrStore) H1).
Defined.

(** The one-row AfriPay file ingested into the first example world: one
    record in, none skipped, a report of one record. *)
Lemma IngestReport_totals_witness :
  ingestion.IngestReport (stdlib := Example.lib) Example.afripay_good
                         "afripay" "csv_a" Example.world0
  = (Ok Example.result1, Example.world1)
  /\ ingestion.RecordsIngested Example.result1 = 1
  /\ len (settlement_records (db Example.world1))
     = len (settlement_records (db Example.world0))
       + ingestion.RecordsIngested Example.result1.
Proof.
  assert (H1 : ingestion.IngestReport (stdlib := Example.lib) Example.afripay_good
                 "afripay" "csv_a" Example.world0
               = (Ok Example.result1, Example.world1))
    by (vm_compute; reflexivity).
  assert (H2 : ~ report_stored (db Example.world0)
                   (sha256_hex (StdLib := Example.lib) Example.afripay_good))
    by (intros [r [[] _]]).
  assert (H3 : parsed_count_fits (stdlib := Example.lib) "csv_a"
                 Example.afripay_good).
  { intros reportID records batchID H. vm_compute in H.
    inversion H; subst. vm_compute. reflexivity. }
  split; [exact H1|]. split; [reflexivity|].
  exact (proj1 (proj2 (proj2
           (IngestReport_totals (stdlib := Example.lib) Example.afripay_good
              "afripay" "csv_a" Example.world0 Example.world1 Example.result1
              H1 H2 H3)))).
Defined.

(** The match step on the mixed example, and once more on what it left. *)
Lemma MatchSettlements_complete_witness :
  no_faults Example.world_mixed
  /\ reconciliation.MatchSettlements
       (snd (reconciliation.MatchSettlements Example.world_mixed))
     = (Ok 0, snd (reconciliation.MatchSettlements Example.world_mixed)).
Proof.
  split; [reflexivity|].
  exact (proj2 (MatchSettlements_complete (stdlib := Example.lib)
                  Example.world_mixed eq_refl)).
Defined.

(** The record of the mixed example that the match step links to the
    first transaction. *)
Lemma MatchSettlements_links_right_witness :
  In Example.row1_matched
     (settlement_records (db (snd (reconciliation.MatchSettlements
                                     Example.world_mixed))))
  /\ (In Example.row1_matched (settlement_records (db Example.world_mixed))
      \/ (wakala_transaction_id Example.row1_matched <> None
          /\ linked_right
               (transactions (db (snd (reconciliation.MatchSettlements
                                         Example.world_mixed))))
               Example.row1_matched)).
Proof.
  assert (Hu : unique_record_ids (db Example.world_mixed)).
  { unfold unique_record_ids. simpl.
    constructor; [|constructor; [|constructor]]; simpl; intuition discriminate. }
  assert (Hin : In Example.row1_matched
                   (settlement_records
                      (db (snd (reconciliation.MatchSettlements
                                  Example.world_mixed)))))
    by (vm_compute; left; reflexivity).
  split; [exact Hin|].
  exact (MatchSettlements_links_right (stdlib := Example.lib) Example.world_mixed
           Example.row1_matched eq_refl Hu Hin).
Defined.

(** The full run on the mixed example leaves three discrepancies. *)
Lemma RunFullReconciliation_total_stored_witness :
  reconciliation.RunFullReconciliation (stdlib := Example.lib) Example.world_mixed
  = (Ok Example.result_mixed, Example.world_reconciled)
  /\ reconciliation.TotalDiscrepancies Example.result_mixed = 3
  /\ len (discrepancies (db Example.world_reconciled))
     = reconciliation.TotalDiscrepancies Example.result_mixed.
Proof.
  assert (H1 : reconciliation.RunFullReconciliation (stdlib := Example.lib)
                 Example.world_mixed
               = (Ok Example.result_mixed, Example.world_reconciled))
    by (vm_compute; reflexivity).
  split; [exact H1|]. split; [reflexivity|].
  apply (RunFullReconciliation_total_stored (stdlib := Example.lib)
           Example.world_mixed Example.world_reconciled Example.result_mixed H1);
    vm_compute; reflexivity.
Defined.

(** The record of the one-row AfriPay file. *)
Lemma parsers_normalise_witness :
  ingestion.parse_by_format (stdlib := Example.lib) "csv_a" Example.afripay_good
                            "RPT-afripay-1710000000000000000"
  = Some (Ok (Example.afripay_good_records, "KE-BATCH-001"))
  /\ Forall (normalised "RPT-afripay-1710000000000000000" ProcessorAfriPay "KES"
                        (dec 1295 1))
            Example.afripay_good_records.
Proof.
  assert (H1 : ingestion.parse_by_format (stdlib := Example.lib) "csv_a"
                 Example.afripay_good "RPT-afripay-1710000000000000000"
               = Some (Ok (Example.afripay_good_records, "KE-BATCH-001")))
    by (vm_compute; reflexivity).
  split; [exact H1|].
  exact (proj1 (parsers_normalise (stdlib := Example.lib) "csv_a"
                  Example.afripay_good "RPT-afripay-1710000000000000000"
                  Example.afripay_good_records "KE-BATCH-001" H1)).
Defined.


(** The first discrepancy of the reconciled mixed world is backed. *)
Lemma RunFullReconciliation_report_sound_witness :
  In Cases.first_discrepancy (discrepancies (db Example.world_reconciled))
  /\ ((exists txn,
         In txn (transactions (db Example.world_reconciled))
         /\ Transaction.Status txn = StatusCaptured
         /\ (forall r, In r (settlement_records (db Example.world_reconciled)) ->
                       wakala_transaction_id r <> Some (Transaction.ID txn))
         /\ missing_of txn Cases.first_discrepancy)
      \/ (exists r txn,
            In r (settlement_records (db Example.world_reconciled))
            /\ wakala_transaction_id r <> None
            /\ linked_transaction (db Example.world_reconciled)
                 (repository.scanSettlementRecord r) = Some txn
            /\ tolerated (Transaction.USDAmount txn)
                         (SettlementRecord.USDGrossAmount (row_fields r)) = false
            /\ mismatch_of (txn, repository.scanSettlementRecord r)
                           Cases.first_discrepancy)
      \/ (exists r,
            In r (settlement_records (db Example.world_reconciled))
            /\ wakala_transaction_id r = None
            /\ orphan_of (repository.scanSettlementRecord r)
                         Cases.first_discrepancy)).
Proof.
  assert (H1 : reconciliation.RunFullReconciliation (stdlib := Example.lib)
                 Example.world_mixed
               = (Ok Example.result_mixed, Example.world_reconciled))
    by (vm_compute; reflexivity).
  assert (H2 : In Cases.first_discrepancy
                  (discrepancies (db Example.world_reconciled)))
    by (vm_compute; left; reflexivity).
  split; [exact H2|].
  exact (RunFullReconciliation_report_sound (stdlib := Example.lib)
           Example.world_mixed Example.world_reconciled Example.result_mixed
           Cases.first_discrepancy H1 H2).
Defined.


(** ** The ids of the records of one file *)









Section ParserIds.

Context {stdlib : StdLib} (reportID : string).

Lemma len_cons {A : Type} (a : A) (l : list A) : len (a :: l) = len l + 1.
Proof. unfold len. simpl length. lia. Qed.




End ParserIds.






(** ** What [duplicates_skipped] counts *)




(** A record with a NaN amount is left out, and counted as not inserted,
    though the table has no row of its id. *)
Lemma InsertRecords_nan_ignored :
  stored_id (settlement_records (db Cases.world_reports)) Cases.rec_nan = false
  /\ ignored_record (settlement_records (db Cases.world_reports)) Cases.rec_nan
     = true
  /\ fst (repository.InsertRecords [Cases.rec_nan; Example.rec1] Cases.world_reports)
     = Ok 1.
Proof. repeat split; vm_compute; reflexivity. Qed.




(** ** A JSON file is taken whole or not at all *)

Section JsonFacts.

Context {stdlib : StdLib} (reportID batchID : string).

Lemma ToUSD_NGN (amount : float64) :
  currency.ToUSD amount "NGN" = Ok (div amount (dec 15800 1)).
Proof.
  unfold currency.ToUSD.
  rewrite (ratesPerUSD_supported "NGN") by (right; right; left; reflexivity).
  reflexivity.
Qed.

Lemma naira_loop_all (entries : list nairaGatewayEntry.t) :
  forall i records,
    Forall settled_at_parses entries ->
    exists built,
      ingestion.naira_loop entries i reportID batchID records
      = Ok (records ++ built)
      /\ Forall2 record_of_entry entries built.
Proof.
  induction entries as [|entry rest IH]; intros i records HF; simpl.
  - exists []. split; [rewrite app_nil_r; reflexivity | constructor].
  - inversion HF as [|? ? Hparse Hrest]; subst.
    rewrite !ToUSD_NGN.
    assert (Hdate : exists t,
              match time_Parse RFC3339 (nairaGatewayEntry.SettledAt entry) with
              | Ok t => Ok t
              | Err _ => time_Parse layout_offset (nairaGatewayEntry.SettledAt entry)
              end = Ok t).
    { destruct Hparse as [[t Ht] | [t Ht]].
      - exists t. rewrite Ht. reflexivity.
      - destruct (time_Parse RFC3339 _) as [t'|e]; [exists t'; reflexivity|].
        exists t. exact Ht. }
    destruct Hdate as [t Ht]. rewrite Ht.
    match goal with
    | |- context [ingestion.naira_loop rest ?j _ _ (records ++ [?rec])] =>
        destruct (IH j (records ++ [rec]) Hrest) as [built [Hb HF2]];
        exists (rec :: built)
    end.
    split.
    + rewrite Hb, <- app_assoc. reflexivity.
    + constructor; [repeat split | exact HF2].
Qed.

Lemma naira_loop_bad_date (good : list nairaGatewayEntry.t)
    (bad : nairaGatewayEntry.t) (rest : list nairaGatewayEntry.t) :
  forall i records,
    Forall settled_at_parses good ->
    ~ settled_at_parses bad ->
    0 <= i -> i + len good < 2 ^ 63 ->
    exists e,
      ingestion.naira_loop (good ++ bad :: rest) i reportID batchID records
      = Err (Wrap ("record " +:+ itoa (i + len good) +:+ " date") e).
Proof.
  induction good as [|entry good IH]; intros i records HF Hbad H0 Hb; simpl.
  - change (len []) with 0. rewrite Z.add_0_r.
    destruct (time_Parse RFC3339 (nairaGatewayEntry.SettledAt bad)) as [t|e1] eqn:E1;
      [exfalso; apply Hbad; left; eauto|].
    destruct (time_Parse layout_offset (nairaGatewayEntry.SettledAt bad))
      as [t|e2] eqn:E2; [exfalso; apply Hbad; right; eauto|].
    exists e2. reflexivity.
  - inversion HF as [|? ? Hparse Hrest]; subst.
    rewrite len_cons in Hb. pose proof (len_nonneg good) as Hl.
    rewrite !ToUSD_NGN.
    assert (Hdate : exists t,
              match time_Parse RFC3339 (nairaGatewayEntry.SettledAt entry) with
              | Ok t => Ok t
              | Err _ => time_Parse layout_offset (nairaGatewayEntry.SettledAt entry)
              end = Ok t).
    { destruct Hparse as [[t Ht] | [t Ht]].
      - exists t. rewrite Ht. reflexivity.
      - destruct (time_Parse RFC3339 _) as [t'|e]; [exists t'; reflexivity|].
        exists t. exact Ht. }
    destruct Hdate as [t Ht]. rewrite Ht.
    rewrite (int_add_small i 1) by lia.
    rewrite len_cons.
    replace (i + (len good + 1)) with (i + 1 + len good) by lia.
    apply IH; [exact Hrest | exact Hbad | lia | lia].
Qed.

End JsonFacts.

(** X16: [ParseNairaGatewayJSON] takes a file whole or not at all.  When
    the time stamp of every entry parses in one of the two layouts, it
    returns one record per entry, in the order of the file, with the
    reference and the amounts of its entry, and the batch id of the file.
    When an entry has a time stamp that parses in neither layout, no record
    is returned: the error names the index of the first such entry.  The
    conversion to USD never fails. *)
Theorem ParseNairaGatewayJSON_whole {stdlib : StdLib} (data : list byte)
    (reportID : string) (file : nairaGatewayFile.t) :
  json_Unmarshal data = Ok file ->
  len (nairaGatewayFile.Records file) < 2 ^ 63 ->
  (Forall settled_at_parses (nairaGatewayFile.Records file) ->
   exists records,
     ingestion.ParseNairaGatewayJSON data reportID
     = Ok (records, nairaGatewayFile.BatchID file)
     /\ Forall2 record_of_entry (nairaGatewayFile.Records file) records)
  /\ (forall good bad rest,
        nairaGatewayFile.Records file = good ++ bad :: rest ->
        Forall settled_at_parses good ->
        ~ settled_at_parses bad ->
        exists e,
          ingestion.ParseNairaGatewayJSON data reportID
          = Err (Wrap ("record " +:+ itoa (len good) +:+ " date") e)).
Proof.
  intros Hfile Hlen. unfold ingestion.ParseNairaGatewayJSON. rewrite Hfile.
  split.
  - intros HF.
    destruct (naira_loop_all reportID (nairaGatewayFile.BatchID file)
                (nairaGatewayFile.Records file) 0 [] HF) as [built [Hb HF2]].
    rewrite Hb. exists built. split; [reflexivity | exact HF2].
  - intros good bad rest Hsplit HF Hbad.
    rewrite Hsplit in *. rewrite len_app in Hlen.
    pose proof (len_nonneg (bad :: rest)) as Hl.
    destruct (naira_loop_bad_date reportID (nairaGatewayFile.BatchID file)
                good bad rest 0 [] HF Hbad) as [e He]; [lia | lia|].
    rewrite He. exists e. reflexivity.
Qed.

(** The document of two entries is refused for its second time stamp. *)
Lemma ParseNairaGatewayJSON_whole_witness :
  exists e,
    ingestion.ParseNairaGatewayJSON (stdlib := Cases.json_lib) []
                                    "RPT-nairagateway-1"
    = Err (Wrap ("record " +:+ itoa (len [Cases.naira_entry1]) +:+ " date") e).
Proof.
  apply (proj2 (ParseNairaGatewayJSON_whole (stdlib := Cases.json_lib) []
                  "RPT-nairagateway-1" Cases.naira_file eq_refl
                  ltac:(vm_compute; reflexivity))
           [Cases.naira_entry1] Cases.naira_entry2 []).
  - reflexivity.
  - constructor; [|constructor]. left. exists 1705359599000000000. reflexivity.
  - intros [[t Ht] | [t Ht]]; discriminate Ht.
Defined.

(** ** A CSV file of well-formed rows *)

Section CsvFacts.

Context {stdlib : StdLib} (reportID : string) (header : list string).
Hypothesis header_columns : 7 <= len header.

Lemma readRecord_same_length (row : list string) :
  len row = len header ->
  csv.readRecord (len header) (Ok row) = (Ok row, len header)
  /\ (len row <? 7) = false.
Proof.
  intros Hlen. unfold csv.readRecord.
  assert (H0 : (0 <? len header) = true) by (apply Z.ltb_lt; lia).
  rewrite H0, Hlen, Z.eqb_refl. simpl.
  split; [reflexivity | apply Z.ltb_ge; lia].
Qed.

Lemma well_formed_row_parses (row : list string) :
  ~ unparseable_row row ->
  exists gross fee net settleDate,
    ParseFloat (TrimSpace (ingestion.field row 3)) = Ok gross
    /\ ParseFloat (TrimSpace (ingestion.field row 4)) = Ok fee
    /\ ParseFloat (TrimSpace (ingestion.field row 5)) = Ok net
    /\ match time_Parse layout_date (TrimSpace (ingestion.field row 2)) with
       | Ok t => Ok t
       | Err _ => time_Parse RFC3339 (TrimSpace (ingestion.field row 2))
       end = Ok settleDate
    /\ (time_Parse layout_date (TrimSpace (ingestion.field row 2)) = Ok settleDate
        \/ time_Parse RFC3339 (TrimSpace (ingestion.field row 2)) = Ok settleDate).
Proof.
  unfold unparseable_row. intros Hgood.
  destruct (ParseFloat (TrimSpace (ingestion.field row 3))) as [gross|e] eqn:E3;
    [|exfalso; apply Hgood; left; eauto].
  destruct (ParseFloat (TrimSpace (ingestion.field row 4))) as [fee|e] eqn:E4;
    [|exfalso; apply Hgood; right; left; eauto].
  destruct (ParseFloat (TrimSpace (ingestion.field row 5))) as [net|e] eqn:E5;
    [|exfalso; apply Hgood; right; right; left; eauto].
  destruct (time_Parse layout_date (TrimSpace (ingestion.field row 2)))
    as [t|e1] eqn:E1.
  - exists gross, fee, net, t. repeat (split; [reflexivity|]). left. reflexivity.
  - destruct (time_Parse RFC3339 (TrimSpace (ingestion.field row 2)))
      as [t|e2] eqn:E2; [|exfalso; apply Hgood; right; right; right; eauto].
    exists gross, fee, net, t. repeat (split; [reflexivity|]). right. reflexivity.
Qed.

Lemma ToUSD_total (amount : float64) (code : string) :
  supported code -> exists usd, currency.ToUSD amount code = Ok usd.
Proof.
  intros Hs. unfold currency.ToUSD. rewrite (ratesPerUSD_supported code Hs). eauto.
Qed.

Lemma afripay_loop_whole (rows : list (list string)) :
  forall lineNum records batchID,
    0 <= lineNum -> lineNum + len rows < 2 ^ 63 - 1 ->
    Forall (well_formed_row header) rows ->
    batchID = last_batch records ->
    exists built,
      ingestion.afripay_loop (List.map Ok rows) (len header) reportID lineNum
                             records batchID
      = Ok (records ++ built, last_batch (records ++ built))
      /\ rows_records "SR-AP-" (lineNum + 1) rows built.
Proof.
  induction rows as [|row rows IH]; intros lineNum records batchID H0 Hb HF Hbatch.
  - exists []. simpl. rewrite app_nil_r. subst batchID. split; [reflexivity | exact I].
  - inversion HF as [|? ? [Hlen Hgood] Hrest]; subst.
    rewrite len_cons in Hb. pose proof (len_nonneg rows) as Hl.
    destruct (readRecord_same_length row Hlen) as [Hread Hseven].
    destruct (well_formed_row_parses row Hgood)
      as (gross & fee & net & settleDate & E3 & E4 & E5 & Ed & Edate).
    destruct (ToUSD_total gross "KES") as [usdGross Eg]; [right; left; reflexivity|].
    destruct (ToUSD_total net "KES") as [usdNet En]; [right; left; reflexivity|].
    simpl List.map. cbn [ingestion.afripay_loop].
    rewrite Hread, Hseven, E3, E4, E5, Ed, Eg, En.
    rewrite !(int_add_small lineNum 1) by lia.
    match goal with
    | |- context [ingestion.afripay_loop _ _ _ _ (records ++ [?rec]) ?b] =>
        destruct (IH (lineNum + 1) (records ++ [rec]) b) as [built [Hrun Hrows]];
        [lia | lia | exact Hrest | symmetry; apply last_batch_snoc|];
        exists (rec :: built)
    end.
    rewrite Hrun, <- app_assoc. split; [reflexivity|].
    split; [|exact Hrows]. repeat split; auto.
Qed.

Lemma capepay_loop_whole (rows : list (list string)) :
  forall lineNum records batchID,
    0 <= lineNum -> lineNum + len rows < 2 ^ 63 - 1 ->
    Forall (well_formed_row header) rows ->
    batchID = last_batch records ->
    exists built,
      ingestion.capepay_loop (List.map Ok rows) (len header) reportID lineNum
                             records batchID
      = Ok (records ++ built, last_batch (records ++ built))
      /\ rows_records "SR-CP-" (lineNum + 1) rows built.
Proof.
  induction rows as [|row rows IH]; intros lineNum records batchID H0 Hb HF Hbatch.
  - exists []. simpl. rewrite app_nil_r. subst batchID. split; [reflexivity | exact I].
  - inversion HF as [|? ? [Hlen Hgood] Hrest]; subst.
    rewrite len_cons in Hb. pose proof (len_nonneg rows) as Hl.
    destruct (readRecord_same_length row Hlen) as [Hread Hseven].
    destruct (well_formed_row_parses row Hgood)
      as (amount & deductions & net & settleDate & E3 & E4 & E5 & Ed & Edate).
    destruct (ToUSD_total amount "ZAR") as [usdGross Eg];
      [right; right; right; reflexivity|].
    destruct (ToUSD_total net "ZAR") as [usdNet En];
      [right; right; right; reflexivity|].
    simpl List.map. cbn [ingestion.capepay_loop].
    rewrite Hread, Hseven, E3, E4, E5, Ed, Eg, En.
    rewrite !(int_add_small lineNum 1) by lia.
    match goal with
    | |- context [ingestion.capepay_loop _ _ _ _ (records ++ [?rec]) ?b] =>
        destruct (IH (lineNum + 1) (records ++ [rec]) b) as [built [Hrun Hrows]];
        [lia | lia | exact Hrest | symmetry; apply last_batch_snoc|];
        exists (rec :: built)
    end.
    rewrite Hrun, <- app_assoc. split; [reflexivity|].
    split; [|exact Hrows]. repeat split; auto.
Qed.

End CsvFacts.

(** X17: a CSV file whose header has at least 7 columns and whose data
    rows all have as many fields as the header, with amounts and a date
    that parse, is taken whole by [ParseAfriPayCSV] and [ParseCapePayCSV]:
    one record per data row, in the order of the file, the first data row
    read as line 2, each record with the id, the reference, the amounts,
    the date and the batch id of its row; the batch id returned is that of
    the last row. *)
Theorem csv_parsers_whole {stdlib : StdLib} (data : list byte) (reportID : string)
    (header : list string) (rows : list (list string)) :
  7 <= len header ->
  len rows < 2 ^ 62 ->
  Forall (well_formed_row header) rows ->
  (csv_records ","%char true (string_of_list_byte data)
   = Ok header :: List.map Ok rows ->
   exists records,
     ingestion.ParseAfriPayCSV data reportID = Ok (records, last_batch records)
     /\ rows_records "SR-AP-" 2 rows records)
  /\ (csv_records "|"%char true (string_of_list_byte data)
      = Ok header :: List.map Ok rows ->
      exists records,
        ingestion.ParseCapePayCSV data reportID = Ok (records, last_batch records)
        /\ rows_records "SR-CP-" 2 rows records).
Proof.
  intros Hcols Hlen HF.
  assert (Hheader : csv.readRecord 0 (Ok header) = (Ok header, len header))
    by reflexivity.
  assert (Hseven : (len header <? 7) = false) by (apply Z.ltb_ge; lia).
  pose proof (len_nonneg rows) as Hl.
  split; intros Hcsv.
  - unfold ingestion.ParseAfriPayCSV. rewrite Hcsv, Hheader, Hseven.
    destruct (afripay_loop_whole reportID header Hcols rows 1 [] "")
      as [built [Hrun Hrows]]; [lia | lia | exact HF | reflexivity|].
    exists built. split; [exact Hrun | exact Hrows].
  - unfold ingestion.ParseCapePayCSV. rewrite Hcsv, Hheader, Hseven.
    destruct (capepay_loop_whole reportID header Hcols rows 1 [] "")
      as [built [Hrun Hrows]]; [lia | lia | exact HF | reflexivity|].
    exists built. split; [exact Hrun | exact Hrows].
Qed.

(** The one-row AfriPay file gives one record, read as line 2. *)
Lemma csv_parsers_whole_witness :
  exists records,
    ingestion.ParseAfriPayCSV (stdlib := Example.lib) Example.afripay_good
                              "RPT-afripay-1710000000000000000"
    = Ok (records, last_batch records)
    /\ rows_records (stdlib := Example.lib) "SR-AP-" 2 Cases.afripay_rows records.
Proof.
  apply (proj1 (csv_parsers_whole (stdlib := Example.lib) Example.afripay_good
                  "RPT-afripay-1710000000000000000"
                  Cases.afripay_header_fields Cases.afripay_rows
                  ltac:(vm_compute; discriminate)
                  ltac:(vm_compute; reflexivity)
                  ltac:(constructor; [|constructor]; split;
                        [vm_compute; reflexivity|];
                        intros [[e H] | [[e H] | [[e H] | [[e H] _]]]];
                        vm_compute in H; discriminate H))).
  vm_compute. reflexivity.
Defined.

(** ** Equal amounts *)

Lemma sub_diag (x : float64) : is_finite x = true -> sub x x = zero.
Proof.
  unfold sub, zero.
  destruct x as [s|s| |s m e]; simpl; intros H; try discriminate.
  - destruct s; reflexivity.
  - rewrite Z.sub_diag. reflexivity.
Qed.

Lemma tolerated_diag (x : float64) : is_finite x = true -> tolerated x x = true.
Proof.
  intros H. unfold tolerated, abs_diff. rewrite (sub_diag x H).
  apply orb_true_iff. right. vm_compute. reflexivity.
Qed.

(** X18: equal amounts are an exact match.  When the gross USD amount of
    a record equals the finite USD amount of its transaction, the
    tolerance test of [DetectAmountMismatches] passes and
    [calculateConfidence] scores 1.0, or 0.5 when the amount is zero; and
    no AMOUNT_MISMATCH discrepancy that the detector emits has an actual
    amount equal to a finite expected amount. *)
Theorem equal_amounts_match {stdlib : StdLib} (txn : Transaction.t)
    (rec : SettlementRecord.t) :
  is_finite (Transaction.USDAmount txn) = true ->
  SettlementRecord.USDGrossAmount rec = Transaction.USDAmount txn ->
  tolerated (Transaction.USDAmount txn) (SettlementRecord.USDGrossAmount rec) = true
  /\ reconciliation.calculateConfidence txn rec
     = (if eqb (Transaction.USDAmount txn) zero then dec 5 1 else dec 10 1)
  /\ forall w d,
       In d (emitted_mismatches w) ->
       Discrepancy.ExpectedUSD d = Transaction.USDAmount txn ->
       Discrepancy.ActualUSD d <> Transaction.USDAmount txn.
Proof.
  intros Hfin Heq. rewrite Heq. split; [apply tolerated_diag, Hfin|]. split.
  - unfold reconciliation.calculateConfidence. rewrite Heq, (sub_diag _ Hfin).
    destruct (Transaction.USDAmount txn) as [s|s| |s m e]; try discriminate Hfin.
    + reflexivity.
    + destruct s; vm_compute; reflexivity.
  - intros w d Hin Hexp Hact.
    destruct (emitted_mismatches_sound w d Hin)
      as (r & txn' & _ & _ & _ & Htol & Hm).
    destruct Hm as (_ & _ & _ & _ & HX & HY & _). simpl in HX, HY.
    assert (Hsame : SettlementRecord.USDGrossAmount (row_fields r)
                    = Transaction.USDAmount txn') by congruence.
    rewrite Hsame, tolerated_diag in Htol; [discriminate|].
    rewrite <- HX, Hexp. exact Hfin.
Qed.

(** The first example transaction against a record of its own amount. *)
Lemma equal_amounts_match_witness :
  reconciliation.calculateConfidence Example.txn1
    (SettlementRecord.mk "SR-AP-AP-TXN-001-2" "RPT-1" ProcessorAfriPay "AP-TXN-001" ""
       (dec 4580674 2) (dec 68710 2) (dec 4511964 2) "KES"
       (dec 35372 2) (dec 34841 2) 1704758400000000000 "KE-BATCH-001")
  = dec 10 1.
Proof.
  exact (proj1 (proj2
           (equal_amounts_match (stdlib := Example.lib) Example.txn1
              (SettlementRecord.mk "SR-AP-AP-TXN-001-2" "RPT-1" ProcessorAfriPay
                 "AP-TXN-001" ""
                 (dec 4580674 2) (dec 68710 2) (dec 4511964 2) "KES"
                 (dec 35372 2) (dec 34841 2) 1704758400000000000 "KE-BATCH-001")
              eq_refl eq_refl))).
Defined.
